(** * BrickMap: a shallow embedding of [lib/BrickMapMixin.js]

    The BrickMap is the index tree of a brick archive: a header directory
    whose leaves carry ordered lists of brick references.  The mixin is
    JavaScript that mutates one object graph in place; here the graph is a
    tree value, a node reference is the list of property names that leads
    to it from the header, and every operation returns the new map next to
    its outcome (a value or a thrown error), because a throwing call keeps
    the mutations it made before the throw. *)

From Stdlib Require Import List String Ascii ZArith Bool Lia Arith.
From Stdlib Require Strings.Byte.
Import ListNotations.
Set Warnings "-register-all".
Local Open Scope string_scope.
Local Open Scope list_scope.

(** ** Strings and paths *)

Definition slash : ascii := ascii_of_nat 47.
Definition backslash : ascii := ascii_of_nat 92.

(** [String.prototype.split] with a one character separator: the result
    is never empty, and the empty string splits into one empty segment. *)
Fixpoint split (sep : ascii) (s : string) : list string :=
  match s with
  | EmptyString => [EmptyString]
  | String c s' =>
      if Ascii.eqb c sep then EmptyString :: split sep s'
      else match split sep s' with
           | [] => [String c EmptyString]
           | h :: t => String c h :: t
           end
  end.

(** [Array.prototype.join("/")]. *)
Definition join (l : list string) : string := String.concat "/" l.

(** [dirname]: [segments.slice(0, -1).join('/')]. *)
Definition dirname (path : string) : string :=
  join (removelast (split slash path)).

(** [basename]: [segments.pop()]. *)
Definition basename (path : string) : string :=
  last (split slash path) EmptyString.

(** *** The path normaliser of [swarmutils]

    [pskPath.normalize] belongs to the [swarmutils] package, which the
    mixin imports.  Every operation below takes the normaliser as an
    argument, so that the theorems hold for whatever it computes; the
    function [pskNormalize] is the package's algorithm (backslashes become
    slashes, runs of slashes collapse, [..] segments are resolved, a leading
    slash is kept) and instantiates the argument in closed examples. *)

Fixpoint replaceBackslashes (s : string) : string :=
  match s with
  | EmptyString => EmptyString
  | String c s' =>
      String (if Ascii.eqb c backslash then slash else c) (replaceBackslashes s')
  end.

Fixpoint collapseSlashes (s : string) : string :=
  match s with
  | EmptyString => EmptyString
  | String c s' =>
      match s' with
      | String c' _ =>
          if Ascii.eqb c slash && Ascii.eqb c' slash then collapseSlashes s'
          else String c (collapseSlashes s')
      | EmptyString => String c EmptyString
      end
  end.

(** The [..] loop of [resolve]: [kept] holds the segments before the
    cursor, last one first; a [..] at index 0 is dropped and makes the
    result absolute, a later one is dropped with its predecessor. *)
Fixpoint resolveSegments (kept : list string) (makeAbsolute : bool)
    (segs : list string) : list string * bool :=
  match segs with
  | [] => (rev kept, makeAbsolute)
  | s :: rest =>
      if String.eqb s ".." then
        match kept with
        | [] => resolveSegments [] true rest
        | _ :: kept' => resolveSegments kept' makeAbsolute rest
        end
      else resolveSegments (s :: kept) makeAbsolute rest
  end.

Definition ensureIsAbsolute (p : string) : string :=
  match p with
  | String c _ => if Ascii.eqb c slash then p else String slash p
  | EmptyString => String slash p
  end.

Definition resolve (pth : string) : string :=
  let segs := split slash pth in
  let abs0 := match segs with s :: _ => String.eqb s EmptyString | [] => false end in
  let '(segs', abs) := resolveSegments [] abs0 segs in
  let res := join segs' in
  if abs && negb (String.eqb res EmptyString) then ensureIsAbsolute res else res.

Definition pskNormalize (pth : string) : string :=
  resolve (collapseSlashes (replaceBackslashes pth)).

(** ** Data model *)

(** JavaScript values that can sit in metadata or in a brick's [key]:
    JSON data plus byte buffers.  Numbers are integers. *)
Inductive value : Type :=
| VNull
| VBool (b : bool)
| VNum (z : Z)
| VStr (s : string)
| VArr (l : list value)
| VObj (fields : list (string * value))
| VBuf (bytes : list Byte.byte).

(** Truthiness, as tested by [if (x)]. *)
Definition truthy (v : value) : bool :=
  match v with
  | VNull => false
  | VBool b => b
  | VNum z => negb (Z.eqb z 0)
  | VStr s => negb (String.eqb s EmptyString)
  | VArr _ | VObj _ | VBuf _ => true
  end.

(** *** Objects used as maps

    A JavaScript object is kept as the list of its own properties in
    enumeration order.  Reading takes the first entry with the name,
    assigning overwrites it in place or appends a new property, [delete]
    removes it.

    Two things an object of the code does are not kept.  The names it
    inherits from [Object.prototype] ([constructor], [toString],
    [__proto__] and the like): a read under one of them finds the inherited
    function where the object has no entry of its own, and an assignment to
    [__proto__] sets the prototype.  And the place of the names that look
    like array indices, which the enumeration puts before all others. *)
Section Props.
Context {A : Type}.

Fixpoint getProp (k : string) (o : list (string * A)) : option A :=
  match o with
  | [] => None
  | (k', v) :: o' => if String.eqb k k' then Some v else getProp k o'
  end.

Fixpoint setProp (k : string) (v : A) (o : list (string * A)) : list (string * A) :=
  match o with
  | [] => [(k, v)]
  | (k', v') :: o' =>
      if String.eqb k k' then (k', v) :: o' else (k', v') :: setProp k v o'
  end.

Fixpoint deleteProp (k : string) (o : list (string * A)) : list (string * A) :=
  match o with
  | [] => []
  | (k', v') :: o' =>
      if String.eqb k k' then deleteProp k o' else (k', v') :: deleteProp k o'
  end.
End Props.

(** A brick reference, [{checkSum, hashLink, size?, key?}]. *)
Record BrickRef : Type := mkBrickRef {
  checkSum : string;
  hashLink : string;
  size : option Z;
  key : option value
}.

(** The descriptor handed to [add]: [{checkSum, hashLink, size?, encryptionKey?}]. *)
Record BrickDescriptor : Type := mkBrickDescriptor {
  d_checkSum : string;
  d_hashLink : string;
  d_size : option Z;
  d_encryptionKey : option value
}.

(** A node is an object with a [metadata] property and, optionally, an
    [items] and a [hashLinks] property.  The source tells directories from
    files by the presence of [items]; a node may carry both properties
    (after [truncateNode] on a directory, or after a copy onto a node of
    the other kind), so both are optional here rather than alternatives. *)
Inductive node : Type :=
| Node (metadata : list (string * value))
       (items : option (list (string * node)))
       (hashLinks : option (list BrickRef)).

Definition metadata (n : node) : list (string * value) :=
  match n with Node m _ _ => m end.
Definition items (n : node) : option (list (string * node)) :=
  match n with Node _ i _ => i end.
Definition hashLinks (n : node) : option (list BrickRef) :=
  match n with Node _ _ h => h end.

Definition setMetadataProp (m : list (string * value)) (n : node) : node :=
  Node m (items n) (hashLinks n).
Definition setItemsProp (i : list (string * node)) (n : node) : node :=
  Node (metadata n) (Some i) (hashLinks n).
Definition setHashLinksProp (h : list BrickRef) (n : node) : node :=
  Node (metadata n) (items n) (Some h).

(** The BrickMap object: its header and its template key identity
    ([null] until [setKeySSI] is called; the identity is known by the
    string [getIdentifier()] returns). *)
Record BrickMap : Type := mkBrickMap {
  header : node;
  templateKeySSI : option string
}.

Definition withHeader (h : node) (bm : BrickMap) : BrickMap :=
  mkBrickMap h (templateKeySSI bm).

(** Errors thrown by the mixin, one constructor per message; [TypeError]
    is the engine's error for a property read on [undefined] or [null],
    [SyntaxError] the one of [JSON.parse(undefined)]. *)
Inductive error : Type :=
| EmptyPath
| PathNotFound (path : string)
| PathIsFolder (path : string)
| SourceNotFound (path : string)
| InvalidRootPath
| MissingFolderName
| FolderInFile
| AlreadyExists
| MetadataPathNotFound (path : string)
| RawDataFailure
| TypeError
| SyntaxError.

Inductive outcome (A : Type) : Type :=
| Ok (a : A)
| Throw (e : error).
Arguments Ok {A} a.
Arguments Throw {A} e.

(** A reference to a node: the property names leading to it from the
    header; [[]] is the header itself. *)
Definition ref : Type := list string.

Fixpoint lookupRef (r : ref) (n : node) : option node :=
  match r with
  | [] => Some n
  | k :: r' =>
      match items n with
      | Some its =>
          match getProp k its with
          | Some c => lookupRef r' c
          | None => None
          end
      | None => None
      end
  end.

(** In-place mutation of the node a reference points to. *)
Fixpoint updateRef (r : ref) (f : node -> node) (n : node) : node :=
  match r with
  | [] => f n
  | k :: r' =>
      match items n with
      | Some its =>
          match getProp k its with
          | Some c => setItemsProp (setProp k (updateRef r' f c) its) n
          | None => n
          end
      | None => n
      end
  end.

(** ** Node helpers *)

(** [nodeIsDeleted]: [typeof node.metadata.deletedAt !== 'undefined']. *)
Definition nodeIsDeleted (n : node) : bool :=
  match getProp "deletedAt" (metadata n) with
  | Some _ => true
  | None => false
  end.

(** [nodeIsDirectory]: [typeof node.items === 'object']. *)
Definition nodeIsDirectory (n : node) : bool :=
  match items n with
  | Some _ => true
  | None => false
  end.

(** [delete node.metadata.deletedAt]. *)
Definition clearDeletedAt (n : node) : node :=
  setMetadataProp (deleteProp "deletedAt" (metadata n)) n.

(** [if (node.metadata.deletedAt) { delete node.metadata.deletedAt }]:
    the guard is a truthiness test. *)
Definition clearDeletedAtIfTruthy (n : node) : node :=
  match getProp "deletedAt" (metadata n) with
  | Some v => if truthy v then clearDeletedAt n else n
  | None => n
  end.

(** Whether [this.header.metadata.createdAt] is truthy.  No operation
    changes the header's [createdAt] while it runs, so an operation reads
    it from the header it starts with. *)
Definition timestampsEnabled (hdr : node) : bool :=
  match getProp "createdAt" (metadata hdr) with
  | Some v => truthy v
  | None => false
  end.

(** [updateTimeMetadata(target, prop)]; [now] is what [getTimestamp()]
    returns.  The code reads the clock anew at every stamp; an operation
    here hands the one reading [now] to every stamp of a call, which is what
    the code writes as long as the clock, read to the second, does not tick
    during the call. *)
Definition updateTimeMetadata (hdr : node) (now : string) (prop : string)
    (target : node) : node :=
  if timestampsEnabled hdr
  then setMetadataProp (setProp prop (VStr now) (metadata target)) target
  else target.

(** [initialize(header, options)]: a given header is kept as it is. *)
Definition initialize (given : option node) (preventTimestamp : bool)
    (now : string) : BrickMap :=
  match given with
  | Some h => mkBrickMap h None
  | None =>
      mkBrickMap
        (Node (if preventTimestamp then [] else [("createdAt", VStr now)])
              (Some []) None)
        None
  end.

(** [createFileNode(parent, name)].  The assignment [parent.items[name] =
    node] needs [parent.items]; both callers have read it just before. *)
Definition createFileNode (hdr : node) (now : string) (parent : node)
    (name : string) : node :=
  match items parent with
  | Some its =>
      setItemsProp
        (setProp name (updateTimeMetadata hdr now "createdAt" (Node [] None (Some []))) its)
        parent
  | None => parent
  end.

(** [createDirectoryNode(root, name)]. *)
Definition createDirectoryNode (hdr : node) (now : string) (root : node)
    (name : string) : node :=
  match items root with
  | Some its =>
      setItemsProp
        (setProp name (updateTimeMetadata hdr now "createdAt" (Node [] (Some []) None)) its)
        root
  | None => root
  end.

(** ** Materialising a path: [createNodesFromPath] *)

Inductive trailingNodeType : Type := Child | Parent.

(** The code after the loop: create the trailing node when it is
    missing and return [parentNode.items[nodeName]], here as a reference
    relative to [parentNode]. *)
Definition createTrailingNode (hdr : node) (now : string) (ty : trailingNodeType)
    (nodeName : string) (parentNode : node) : node * outcome ref :=
  match items parentNode with
  | None => (parentNode, Throw TypeError)
  | Some its =>
      match getProp nodeName its with
      | Some _ => (parentNode, Ok [nodeName])
      | None =>
          (match ty with
           | Child => createFileNode hdr now parentNode nodeName
           | Parent => createDirectoryNode hdr now parentNode nodeName
           end, Ok [nodeName])
      end
  end.

(** One turn of the [while] loop for the segment [nodeName]; [isLast]
    says that no segment is left ([break]), [continue] is the rest of the
    loop, run on the child the loop descends into. *)
Definition loopIteration (hdr : node) (now : string) (ty : trailingNodeType)
    (nodeName : string) (isLast : bool)
    (continue : node -> node * outcome ref)
    (parentNode : node) : node * outcome ref :=
  match items parentNode with
  | None => (parentNode, Throw TypeError)
  | Some its =>
      let its1 :=
        match getProp nodeName its with
        | Some c => setProp nodeName (clearDeletedAt c) its
        | None => its
        end in
      let parent1 := clearDeletedAt (setItemsProp its1 parentNode) in
      if isLast then createTrailingNode hdr now ty nodeName parent1
      else
        let parent2 :=
          match getProp nodeName its1 with
          | Some _ => parent1
          | None => createDirectoryNode hdr now parent1 nodeName
          end in
        match items parent2 with
        | None => (parent2, Throw TypeError)
        | Some its2 =>
            match getProp nodeName its2 with
            | None => (parent2, Throw TypeError)
            | Some c =>
                let '(c', r) := continue c in
                (setItemsProp (setProp nodeName c' its2) parent2,
                 match r with
                 | Ok r' => Ok (nodeName :: r')
                 | Throw e => Throw e
                 end)
            end
        end
  end.

Definition isEmptyList {A : Type} (l : list A) : bool :=
  match l with [] => true | _ => false end.

(** The loop over [pathSegments].  [shift()] on an empty array gives
    [undefined], which as a property name reads ["undefined"]. *)
Fixpoint createNodesLoop (hdr : node) (now : string) (ty : trailingNodeType)
    (pathSegments : list string) : node -> node * outcome ref :=
  match pathSegments with
  | [] => createTrailingNode hdr now ty "undefined"
  | s :: rest =>
      if String.eqb s EmptyString then
        match rest with
        | [] =>
            loopIteration hdr now ty "undefined" true
              (fun n => (n, Throw TypeError))
        | s' :: rest' =>
            loopIteration hdr now ty s' (isEmptyList rest')
              (createNodesLoop hdr now ty rest')
        end
      else
        loopIteration hdr now ty s (isEmptyList rest)
          (createNodesLoop hdr now ty rest)
  end.

(** [createNodesFromPath(path, options)]: the header after the call and
    the reference to the returned node. *)
Definition createNodesFromPath (now : string) (ty : trailingNodeType)
    (path : string) (bm : BrickMap) : BrickMap * outcome ref :=
  let '(h, r) := createNodesLoop (header bm) now ty (split slash path) (header bm) in
  (withHeader h bm, r).

(** ** JSON

    [JSON.stringify] prints a value and [JSON.parse] reads the text back.
    A JSON text is kept here as the data tree it denotes (a [value] without
    buffers); printing is then the conversion [stringify], which is where
    buffers are replaced by their [toJSON()] form, and parsing without a
    reviver returns the tree.  The order of an object's properties is part
    of the tree. *)

Definition mapValues {A B : Type} (f : A -> B) (o : list (string * A))
    : list (string * B) :=
  map (fun kv => (fst kv, f (snd kv))) o.

Definition bufferTag : string := "$$.Buffer".

Definition byteToNum (b : Byte.byte) : value := VNum (Z.of_N (Byte.to_N b)).

(** Modelled from the spec: [$$.Buffer] is provided by the runtime, not by
    this repository; its JSON form is the binary-buffer encoding of the
    spec, an object with a type tag and a [data] array of byte values,
    [{type: '$$.Buffer', data: [...]}]. *)
Definition bufferToJSON (bytes : list Byte.byte) : value :=
  VObj [("type", VStr bufferTag); ("data", VArr (map byteToNum bytes))].

Fixpoint stringify (v : value) : value :=
  match v with
  | VArr l => VArr (map stringify l)
  | VObj fields => VObj (mapValues stringify fields)
  | VBuf bytes => bufferToJSON bytes
  | _ => v
  end.

(** A value that is JSON data: it has no buffer in it. *)
Fixpoint isJSON (v : value) : bool :=
  match v with
  | VArr l => forallb isJSON l
  | VObj fields => forallb (fun kv => isJSON (snd kv)) fields
  | VBuf _ => false
  | _ => true
  end.

(** The JavaScript object a brick reference and a node are. *)
Definition brickToValue (b : BrickRef) : value :=
  VObj ([("checkSum", VStr (checkSum b)); ("hashLink", VStr (hashLink b))]
        ++ match size b with Some z => [("size", VNum z)] | None => [] end
        ++ match key b with Some k => [("key", k)] | None => [] end).

Fixpoint nodeToValue (n : node) : value :=
  match n with
  | Node m its hl =>
      VObj ([("metadata", VObj m)]
            ++ match its with
               | Some l => [("items", VObj (mapValues nodeToValue l))]
               | None => []
               end
            ++ match hl with
               | Some l => [("hashLinks", VArr (map brickToValue l))]
               | None => []
               end)
  end.

(** Reading a value back as a brick reference or a node; [None] when
    the value has another shape. *)
Definition valueToBrick (v : value) : option BrickRef :=
  match v with
  | VObj fields =>
      (fix props (fs : list (string * value)) (c h : option string)
           (s : option Z) (k : option value) : option BrickRef :=
         match fs with
         | [] =>
             match c, h with
             | Some c', Some h' => Some (mkBrickRef c' h' s k)
             | _, _ => None
             end
         | (name, x) :: fs' =>
             if String.eqb name "checkSum" then
               match x with VStr c' => props fs' (Some c') h s k | _ => None end
             else if String.eqb name "hashLink" then
               match x with VStr h' => props fs' c (Some h') s k | _ => None end
             else if String.eqb name "size" then
               match x with VNum z => props fs' c h (Some z) k | _ => None end
             else if String.eqb name "key" then props fs' c h s (Some x)
             else None
         end) fields None None None None
  | _ => None
  end.

Fixpoint valuesToBricks (l : list value) : option (list BrickRef) :=
  match l with
  | [] => Some []
  | x :: l' =>
      match valueToBrick x, valuesToBricks l' with
      | Some b, Some bs => Some (b :: bs)
      | _, _ => None
      end
  end.

Fixpoint valueToNode (v : value) : option node :=
  match v with
  | VObj fields =>
      (fix props (fs : list (string * value))
           (m : option (list (string * value)))
           (its : option (list (string * node)))
           (hl : option (list BrickRef)) : option node :=
         match fs with
         | [] =>
             match m with
             | Some m' => Some (Node m' its hl)
             | None => None
             end
         | (name, x) :: fs' =>
             if String.eqb name "metadata" then
               match x with VObj m' => props fs' (Some m') its hl | _ => None end
             else if String.eqb name "items" then
               match x with
               | VObj children =>
                   match
                     (fix nodes (cs : list (string * value))
                        : option (list (string * node)) :=
                        match cs with
                        | [] => Some []
                        | (cname, c) :: cs' =>
                            match valueToNode c, nodes cs' with
                            | Some c', Some r => Some ((cname, c') :: r)
                            | _, _ => None
                            end
                        end) children
                   with
                   | Some its' => props fs' m (Some its') hl
                   | None => None
                   end
               | _ => None
               end
             else if String.eqb name "hashLinks" then
               match x with
               | VArr bricks =>
                   match valuesToBricks bricks with
                   | Some hl' => props fs' m its (Some hl')
                   | None => None
                   end
               | _ => None
               end
             else None
         end) fields None None None
  | _ => None
  end.

(** The name under which the reviver sees a value: a property name, or
    an array index (never equal to ['key']). *)
Inductive propertyKey : Type :=
| Name (s : string)
| Index (i : nat).

Definition isKeyProperty (k : propertyKey) : bool :=
  match k with
  | Name s => String.eqb s "key"
  | Index _ => false
  end.

(** [$$.Buffer.from(array)] is the runtime's: each element is stored as a
    byte, a number reduced modulo 256 as in a [Uint8Array]; for an element
    that is not a number the runtime's number conversion decides, which is
    left open as [elementToByte]. *)
Definition numToByte (z : Z) : Byte.byte :=
  match Byte.of_N (Z.to_N (z mod 256)) with
  | Some b => b
  | None => Byte.x00
  end.

(** Modelled from the spec: the brick class ([lib/Brick.js]) is not among
    the sources.  A brick is the content-addressed unit of the spec, with
    the operations [load] and [toBrick] use: raw bytes can be set and
    fetched (fetching may fail) and a key identity attached.  The raw bytes
    of a BrickMap brick are a JSON text. *)
Record Brick : Type := mkBrick {
  rawData : outcome value;
  brickKeySSI : option string
}.

(** What a BrickMap can be constructed from before [load] runs. *)
Inductive headerSource : Type :=
| SourceBrick (b : Brick)
| SourceBuffer (text : value)
| SourceString (text : value)
| SourceObject (h : node).

(** [toBrick()]. *)
Definition toBrick (bm : BrickMap) : Brick :=
  mkBrick (Ok (stringify (nodeToValue (header bm)))) (templateKeySSI bm).

(** The reviver's test on an object: two properties, the buffer tag
    under [type] and an array under [data]. *)
Definition dataOf (fields : list (string * value)) : list value :=
  match getProp "data" fields with
  | Some (VArr data) => data
  | _ => []
  end.

Definition encodesBuffer (fields : list (string * value)) : bool :=
  Nat.eqb (List.length fields) 2 &&
  match getProp "type" fields, getProp "data" fields with
  | Some (VStr tag), Some (VArr _) => String.eqb tag bufferTag
  | _, _ => false
  end.

(** A value that [load] can take back: under a property named [key]
    there is no [null], and an object there has the shape of an encoded
    buffer only when it is the encoding of bytes, [type] first and [data]
    an array of numbers from 0 to 255. *)
Definition isByteNum (v : value) : bool :=
  match v with
  | VNum z => Z.leb 0 z && Z.ltb z 256
  | _ => false
  end.

Definition isBufferEncoding (fields : list (string * value)) : bool :=
  match fields with
  | [(t, VStr tag); (d, VArr data)] =>
      String.eqb t "type" && String.eqb d "data" && String.eqb tag bufferTag &&
      forallb isByteNum data
  | _ => false
  end.

Fixpoint revivable (k : propertyKey) (v : value) : bool :=
  match v with
  | VNull => negb (isKeyProperty k)
  | VArr l => forallb (revivable (Index 0)) l
  | VObj fields =>
      forallb (fun kv => revivable (Name (fst kv)) (snd kv)) fields &&
      (negb (isKeyProperty k) || negb (encodesBuffer fields) || isBufferEncoding fields)
  | _ => true
  end.

Section Reviver.

Variable elementToByte : value -> Byte.byte.

Definition bufferFrom (data : list value) : list Byte.byte :=
  map (fun x => match x with VNum z => numToByte z | _ => elementToByte x end) data.

(** The [reviver] of [load].  [typeof value !== 'object'] lets numbers,
    strings and booleans through; [null] has type ['object'] and
    [Object.keys(null)] throws. *)
Definition reviver (k : propertyKey) (v : value) : outcome value :=
  if negb (isKeyProperty k) then Ok v
  else
    match v with
    | VBool _ | VNum _ | VStr _ => Ok v
    | VNull => Throw TypeError
    | VArr l => Ok v
    | VBuf _ => Ok v
    | VObj fields =>
        if negb (Nat.eqb (List.length fields) 2) then Ok v
        else
          match getProp "type" fields, getProp "data" fields with
          | Some (VStr tag), Some (VArr data) =>
              if String.eqb tag bufferTag then Ok (VBuf (bufferFrom data)) else Ok v
          | _, _ => Ok v
          end
    end.

(** [JSON.parse(text, reviver)]: the properties of an object and the
    elements of an array are revived first, in order, then the value
    itself; the root is revived under the empty name. *)
Fixpoint internalize (k : propertyKey) (j : value) : outcome value :=
  match j with
  | VArr l =>
      match
        (fix elements (i : nat) (l : list value) : outcome (list value) :=
           match l with
           | [] => Ok []
           | x :: l' =>
               match internalize (Index i) x with
               | Throw e => Throw e
               | Ok x' =>
                   match elements (S i) l' with
                   | Throw e => Throw e
                   | Ok r => Ok (x' :: r)
                   end
               end
           end) 0 l
      with
      | Throw e => Throw e
      | Ok l' => reviver k (VArr l')
      end
  | VObj fields =>
      match
        (fix props (fs : list (string * value)) : outcome (list (string * value)) :=
           match fs with
           | [] => Ok []
           | (name, x) :: fs' =>
               match internalize (Name name) x with
               | Throw e => Throw e
               | Ok x' =>
                   match props fs' with
                   | Throw e => Throw e
                   | Ok r => Ok ((name, x') :: r)
                   end
               end
           end) fields
      with
      | Throw e => Throw e
      | Ok fields' => reviver k (VObj fields')
      end
  | _ => reviver k j
  end.

Definition parseWithReviver (text : value) : outcome value :=
  internalize (Name EmptyString) text.

(** *** What [load] makes of a stringified value

    [restore k v] is the value [JSON.parse(JSON.stringify(v), reviver)]
    returns for [v] under the name [k] when the reviver does not throw. *)

Fixpoint restore (k : propertyKey) (v : value) : value :=
  match v with
  | VBuf bytes => if isKeyProperty k then VBuf bytes else bufferToJSON bytes
  | VArr l => VArr (map (restore (Index 0)) l)
  | VObj fields =>
      let fields' := map (fun kv => (fst kv, restore (Name (fst kv)) (snd kv))) fields in
      if isKeyProperty k && encodesBuffer fields'
      then VBuf (bufferFrom (dataOf fields'))
      else VObj fields'
  | _ => v
  end.

Definition restoreBrick (b : BrickRef) : BrickRef :=
  mkBrickRef (checkSum b) (hashLink b) (size b)
    (match key b with Some k => Some (restore (Name "key") k) | None => None end).

Fixpoint restoreNode (n : node) : node :=
  match n with
  | Node m its hl =>
      Node (map (fun kv => (fst kv, restore (Name (fst kv)) (snd kv))) m)
           (match its with Some l => Some (mapValues restoreNode l) | None => None end)
           (match hl with Some l => Some (map restoreBrick l) | None => None end)
  end.

(** [load(callback)] for a header given as a brick, as a buffer or a
    string holding the JSON text, or as an object.  The outcome is what the
    callback receives; [None] stands for a parsed value that is not of the
    shape of a node. *)
Definition parseHeader (templateKey : option string) (text : value)
    : outcome (option BrickMap) :=
  match parseWithReviver text with
  | Throw e => Throw e
  | Ok v =>
      Ok (match valueToNode v with
          | Some h => Some (mkBrickMap h templateKey)
          | None => None
          end)
  end.

Definition load (templateKey : option string) (source : headerSource)
    : outcome (option BrickMap) :=
  match source with
  | SourceBrick b =>
      match rawData b with
      | Throw _ => Throw RawDataFailure
      | Ok text => parseHeader templateKey text
      end
  | SourceBuffer text => parseHeader templateKey text
  | SourceString text => parseHeader templateKey text
  | SourceObject h => Ok (Some (mkBrickMap h templateKey))
  end.

End Reviver.

(** [JSON.parse(JSON.stringify(x))] on the objects of the tree. *)
Definition cloneMetadata (m : list (string * value)) : list (string * value) :=
  mapValues stringify m.

Definition cloneBrick (b : BrickRef) : BrickRef :=
  mkBrickRef (checkSum b) (hashLink b) (size b)
    (match key b with Some k => Some (stringify k) | None => None end).

Fixpoint cloneNode (n : node) : node :=
  match n with
  | Node m its hl =>
      Node (cloneMetadata m)
           (match its with Some l => Some (mapValues cloneNode l) | None => None end)
           (match hl with Some l => Some (map cloneBrick l) | None => None end)
  end.

(** ** Read-only traversal *)

(** [navigate(toPath)]: empty segments are skipped; a missing segment
    gives [undefined]; the walk moves into a child only when the child is
    a directory, and otherwise stays where it is. *)
Fixpoint navigateFrom (segments : list string) (r : ref) (parentNode : node)
    : outcome (option (ref * node)) :=
  match segments with
  | [] => Ok (Some (r, parentNode))
  | segment :: rest =>
      if String.eqb segment EmptyString then navigateFrom rest r parentNode
      else
        match items parentNode with
        | None => Throw TypeError
        | Some its =>
            match getProp segment its with
            | None => Ok None
            | Some c =>
                if nodeIsDirectory c
                then navigateFrom rest (r ++ [segment]) c
                else navigateFrom rest r parentNode
            end
        end
  end.

Definition navigate (toPath : string) (bm : BrickMap) : outcome (option (ref * node)) :=
  navigateFrom (split slash toPath) [] (header bm).

Section Operations.

(** [pskPath.normalize]. *)
Variable normalize : string -> string.

(** [getDeepestNode(path)]: the node and the reference to it, [None]
    for [undefined]. *)
Definition getDeepestNode (path : string) (bm : BrickMap)
    : outcome (option (ref * node)) :=
  let path := normalize path in
  if String.eqb path "/" then Ok (Some ([], header bm))
  else
    let filename := basename path in
    let dirPath := dirname path in
    match navigate dirPath bm with
    | Throw e => Throw e
    | Ok None => Ok None
    | Ok (Some (r, parentNode)) =>
        match items parentNode with
        | None => Throw TypeError
        | Some its =>
            match getProp filename its with
            | None => Ok None
            | Some c => Ok (Some (r ++ [filename], c))
            end
        end
    end.

(** ** Mutations of one node *)

(** [appendBrick(node, brick)]: the time stamp is written before
    [node.hashLinks.push] can throw. *)
Definition appendBrick (hdr : node) (now : string) (brick : BrickRef)
    (n : node) : node * outcome unit :=
  let n1 := updateTimeMetadata hdr now "updatedAt" n in
  match hashLinks n1 with
  | Some hl => (setHashLinksProp (hl ++ [brick]) n1, Ok tt)
  | None => (n1, Throw TypeError)
  end.

(** [deleteNode(node)]. *)
Definition deleteNode (hdr : node) (now : string) (n : node) : node :=
  let n1 := updateTimeMetadata hdr now "deletedAt" n in
  if nodeIsDirectory n1 then setItemsProp [] n1
  else setHashLinksProp [] n1.

(** [truncateNode(node)]: a directory loses its items and also gets an
    empty [hashLinks]. *)
Definition truncateNode (hdr : node) (now : string) (n : node) : node :=
  let n1 := clearDeletedAt n in
  let n2 := updateTimeMetadata hdr now "updatedAt" n1 in
  let n3 := if nodeIsDirectory n2 then setItemsProp [] n2 else n2 in
  setHashLinksProp [] n3.

(** Replacing the first and the last element of an array. *)
Definition replaceFirst (brick : BrickRef) (hl : list BrickRef) : list BrickRef :=
  match hl with
  | [] => []
  | _ :: t => brick :: t
  end.

Definition replaceLast (brick : BrickRef) (hl : list BrickRef) : list BrickRef :=
  match hl with
  | [] => []
  | _ => removelast hl ++ [brick]
  end.

(** Running a node mutation at a reference of the header. *)
Definition mutateAt (r : ref) (f : node -> node) (bm : BrickMap) : BrickMap :=
  withHeader (updateRef r f (header bm)) bm.

(** The node a reference of this map points to; the references used
    below come from a traversal of the same header. *)
Definition nodeAt (r : ref) (bm : BrickMap) : option node :=
  lookupRef r (header bm).

(** ** Operations of the mixin *)

(** [getNodeFromPath(filePath)]. *)
Definition getNodeFromPath (now : string) (filePath : string) (bm : BrickMap)
    : BrickMap * outcome ref :=
  let filePath := normalize filePath in
  if String.eqb filePath EmptyString then (bm, Throw EmptyPath)
  else
    match createNodesFromPath now Child filePath bm with
    | (bm1, Throw e) => (bm1, Throw e)
    | (bm1, Ok r) => (mutateAt r clearDeletedAtIfTruthy bm1, Ok r)
    end.

(** The common body of [replaceFirstBrick] and [replaceLastBrick].  The
    reference was returned for this map, so the node is there; the branch
    for a reference that leads nowhere is only there to make the function
    total. *)
Definition replaceBrickWith (repl : list BrickRef -> list BrickRef)
    (now : string) (filePath : string) (bm : BrickMap) : BrickMap * outcome unit :=
  match getNodeFromPath now filePath bm with
  | (bm1, Throw e) => (bm1, Throw e)
  | (bm1, Ok r) =>
      let bm2 := mutateAt r (updateTimeMetadata (header bm) now "updatedAt") bm1 in
      match nodeAt r bm2 with
      | Some n =>
          match hashLinks n with
          | Some hl => (mutateAt r (setHashLinksProp (repl hl)) bm2, Ok tt)
          | None => (bm2, Throw TypeError)
          end
      | None => (bm2, Throw TypeError)
      end
  end.

Definition replaceFirstBrick (now : string) (filePath : string)
    (brick : BrickRef) : BrickMap -> BrickMap * outcome unit :=
  replaceBrickWith (replaceFirst brick) now filePath.

Definition replaceLastBrick (now : string) (filePath : string)
    (brick : BrickRef) : BrickMap -> BrickMap * outcome unit :=
  replaceBrickWith (replaceLast brick) now filePath.

(** The brick object [add] builds: [size] and [key] are copied when
    truthy. *)
Definition brickObj (brick : BrickDescriptor) : BrickRef :=
  mkBrickRef (d_checkSum brick) (d_hashLink brick)
    (match d_size brick with
     | Some z => if Z.eqb z 0 then None else Some z
     | None => None
     end)
    (match d_encryptionKey brick with
     | Some k => if truthy k then Some k else None
     | None => None
     end).

(** [add(filePath, brick)].  As above, the reference returned by
    [createNodesFromPath] leads to a node. *)
Definition add (now : string) (filePath : string) (brick : BrickDescriptor)
    (bm : BrickMap) : BrickMap * outcome unit :=
  let filePath := normalize filePath in
  if String.eqb filePath EmptyString then (bm, Throw EmptyPath)
  else
    match createNodesFromPath now Child filePath bm with
    | (bm1, Throw e) => (bm1, Throw e)
    | (bm1, Ok r) =>
        let bm2 := mutateAt r clearDeletedAtIfTruthy bm1 in
        match nodeAt r bm2 with
        | Some n =>
            let '(n', res) := appendBrick (header bm) now (brickObj brick) n in
            (mutateAt r (fun _ => n') bm2, res)
        | None => (bm2, Throw TypeError)
        end
    end.

(** [delete(barPath)]. *)
Definition delete (now : string) (barPath : string) (bm : BrickMap)
    : BrickMap * outcome unit :=
  let barPath := normalize barPath in
  match getDeepestNode barPath bm with
  | Throw e => (bm, Throw e)
  | Ok None => (bm, Ok tt)
  | Ok (Some (r, childNode)) =>
      if nodeIsDeleted childNode then (bm, Ok tt)
      else (mutateAt r (deleteNode (header bm) now) bm, Ok tt)
  end.

(** [createNode(barPath, options)]. *)
Definition createNode (now : string) (barPath : string) (ty : trailingNodeType)
    (bm : BrickMap) : BrickMap * outcome unit :=
  let barPath := normalize barPath in
  if String.eqb barPath "/" then (bm, Throw InvalidRootPath)
  else
    let dirName := basename barPath in
    let dirPath := dirname barPath in
    match getDeepestNode dirPath bm with
    | Throw e => (bm, Throw e)
    | Ok parentDir =>
        if String.eqb dirName EmptyString then (bm, Throw MissingFolderName)
        else
          let create :=
            match createNodesFromPath now ty barPath bm with
            | (bm1, Throw e) => (bm1, Throw e)
            | (bm1, Ok _) => (bm1, Ok tt)
            end in
          match parentDir with
          | Some (_, parentNode) =>
              if String.eqb dirPath EmptyString then create
              else
                match items parentNode with
                | None => (bm, Throw FolderInFile)
                | Some its =>
                    match getProp dirName its, ty with
                    | Some _, Parent => (bm, Throw AlreadyExists)
                    | _, _ => create
                    end
                end
          | None => create
          end
    end.

Definition createFolder (now : string) (barPath : string)
    : BrickMap -> BrickMap * outcome unit :=
  createNode now barPath Parent.

Definition createFile (now : string) (barPath : string)
    : BrickMap -> BrickMap * outcome unit :=
  createNode now barPath Child.

(** ** Queries *)

(** [getBricksMeta(filePath)]; [None] is the [undefined] a node without
    [hashLinks] gives. *)
Definition getBricksMeta (filePath : string) (bm : BrickMap)
    : outcome (option (list BrickRef)) :=
  match getDeepestNode filePath bm with
  | Throw e => Throw e
  | Ok None => Throw (PathNotFound filePath)
  | Ok (Some (_, fileNode)) =>
      if nodeIsDirectory fileNode then Throw (PathIsFolder filePath)
      else if nodeIsDeleted fileNode then Throw (PathNotFound filePath)
      else Ok (hashLinks fileNode)
  end.

(** [getHashList(filePath)]. *)
Definition getHashList (filePath : string) (bm : BrickMap)
    : outcome (list string) :=
  if String.eqb filePath EmptyString then Throw EmptyPath
  else
    match getDeepestNode filePath bm with
    | Throw e => Throw e
    | Ok None => Throw (PathNotFound filePath)
    | Ok (Some (_, fileNode)) =>
        if nodeIsDirectory fileNode then Throw (PathIsFolder filePath)
        else
          match hashLinks fileNode with
          | Some hl => Ok (map hashLink hl)
          | None => Throw TypeError
          end
    end.

(** [Object.keys(o)] and the truth value of an array: an array object
    is truthy whatever its length. *)
Definition objectKeys {A : Type} (o : list (string * A)) : list string :=
  map fst o.
Definition arrayIsTruthy {A : Type} (a : list A) : bool := true.

(** [isEmpty(filePath)]: the directory branch negates the array
    [Object.keys] returns, the file branch negates a length. *)
Definition isEmpty (filePath : string) (bm : BrickMap) : outcome bool :=
  match getDeepestNode filePath bm with
  | Throw e => Throw e
  | Ok None => Ok true
  | Ok (Some (_, n)) =>
      match items n with
      | Some its => Ok (negb (arrayIsTruthy (objectKeys its)))
      | None =>
          match hashLinks n with
          | Some hl => Ok (Nat.eqb (List.length hl) 0)
          | None => Throw TypeError
          end
      end
  end.

(** [emptyList(filePath)]. *)
Definition emptyList (now : string) (filePath : string) (bm : BrickMap)
    : BrickMap * outcome unit :=
  match getDeepestNode filePath bm with
  | Throw e => (bm, Throw e)
  | Ok None => (bm, Throw (PathNotFound filePath))
  | Ok (Some (r, _)) => (mutateAt r (truncateNode (header bm) now) bm, Ok tt)
  end.

(** [fileExists(path)] is [node && !nodeIsDeleted(node)]: [undefined]
    ([None]) when there is no node. *)
Definition fileExists (path : string) (bm : BrickMap) : outcome (option bool) :=
  match getDeepestNode path bm with
  | Throw e => Throw e
  | Ok None => Ok None
  | Ok (Some (_, n)) => Ok (Some (negb (nodeIsDeleted n)))
  end.

(** [fileDeleted(path)] is [node && nodeIsDeleted(node)]. *)
Definition fileDeleted (path : string) (bm : BrickMap) : outcome (option bool) :=
  match getDeepestNode path bm with
  | Throw e => Throw e
  | Ok None => Ok None
  | Ok (Some (_, n)) => Ok (Some (nodeIsDeleted n))
  end.

(** [getBrickEncryptionKeySSI(brickMeta)]: [brickMeta] is [None] when
    the argument is [undefined]; the result [None] is [undefined]. *)
Definition getBrickEncryptionKeySSI (brickMeta : option BrickRef) (bm : BrickMap)
    : outcome (option value) :=
  match brickMeta with
  | None =>
      match templateKeySSI bm with
      | Some identifier => Ok (Some (VStr identifier))
      | None => Throw TypeError
      end
  | Some b => Ok (key b)
  end.

(** [setKeySSI(keySSI)]. *)
Definition setKeySSI (identifier : string) (bm : BrickMap) : BrickMap :=
  mkBrickMap (header bm) (Some identifier).

(** [getMetadata(path)]. *)
Definition getMetadata (path : string) (bm : BrickMap)
    : outcome (list (string * value)) :=
  match getDeepestNode path bm with
  | Throw e => Throw e
  | Ok None => Throw (PathNotFound path)
  | Ok (Some (_, n)) => Ok (metadata n)
  end.

(** [updateMetadata(path, key, value)]. *)
Definition updateMetadata (path : string) (k : string) (v : value) (bm : BrickMap)
    : BrickMap * outcome unit :=
  match getDeepestNode path bm with
  | Throw e => (bm, Throw e)
  | Ok None => (bm, Throw (MetadataPathNotFound path))
  | Ok (Some (r, _)) =>
      (mutateAt r (fun n => setMetadataProp (setProp k v (metadata n)) n) bm, Ok tt)
  end.

(** [copy(srcPath, dstPath)].  [srcNode] is an object of the tree that
    [createNodesFromPath] works on, so its properties are read after the
    destination has been materialised, through its reference (which still
    leads to it: materialising adds nodes and removes [deletedAt] entries,
    it never replaces a node).  [JSON.stringify] of an [undefined]
    [hashLinks] is [undefined], on which [JSON.parse] throws. *)
Definition copy (now : string) (srcPath dstPath : string) (bm : BrickMap)
    : BrickMap * outcome unit :=
  match getDeepestNode srcPath bm with
  | Throw e => (bm, Throw e)
  | Ok None => (bm, Throw (SourceNotFound srcPath))
  | Ok (Some (rs, srcNode)) =>
      let ty := if nodeIsDirectory srcNode then Parent else Child in
      match createNodesFromPath now ty dstPath bm with
      | (bm1, Throw e) => (bm1, Throw e)
      | (bm1, Ok rd) =>
          match nodeAt rs bm1 with
          | None => (bm1, Throw TypeError)
          | Some srcNode1 =>
              match items srcNode1 with
              | Some its =>
                  (mutateAt rd (setItemsProp (mapValues cloneNode its)) bm1, Ok tt)
              | None =>
                  match hashLinks srcNode1 with
                  | Some hl =>
                      (mutateAt rd (setHashLinksProp (map cloneBrick hl)) bm1, Ok tt)
                  | None => (bm1, Throw SyntaxError)
                  end
              end
          end
      end
  end.

(** [setMetadata(path, metadata)]. *)
Definition setMetadata (path : string) (m : list (string * value)) (bm : BrickMap)
    : BrickMap * outcome unit :=
  match getDeepestNode path bm with
  | Throw e => (bm, Throw e)
  | Ok None => (bm, Throw (PathNotFound path))
  | Ok (Some (r, _)) => (mutateAt r (setMetadataProp (cloneMetadata m)) bm, Ok tt)
  end.

(** [getState()]: the snapshot is plain JSON data. *)
Definition getState (bm : BrickMap) : value :=
  stringify (nodeToValue (header bm)).

End Operations.

(** ** Invariants of the tree *)

(** [allNodes P n]: the node [n] and every node below it satisfy [P]. *)
Fixpoint allNodes (P : node -> bool) (n : node) : bool :=
  match n with
  | Node _ its _ =>
      P n &&
      match its with
      | Some l =>
          (fix children (l : list (string * node)) : bool :=
             match l with
             | [] => true
             | (_, c) :: l' => allNodes P c && children l'
             end) l
      | None => true
      end
  end.

(** [allItems P l]: every node of the items [l] satisfies [allNodes P]. *)
Definition allItems (P : node -> bool) (l : list (string * node)) : bool :=
  forallb (fun kv => allNodes P (snd kv)) l.

(** The child [name] of [n], if there is one, is not tombstoned; and the
    reference an outcome carries leads to a node that is not tombstoned. *)
Definition liveAt (name : string) (n : node) : Prop :=
  forall its c, items n = Some its -> getProp name its = Some c ->
                nodeIsDeleted c = false.

Definition refIsLive (res : node * outcome ref) : Prop :=
  forall r, snd res = Ok r ->
            exists c, lookupRef r (fst res) = Some c /\ nodeIsDeleted c = false.

(** The content of a node is empty: no item for a directory, no brick
    for a file. *)
Definition contentIsEmpty (n : node) : bool :=
  match items n with
  | Some its => isEmptyList its
  | None =>
      match hashLinks n with
      | Some hl => isEmptyList hl
      | None => false
      end
  end.

(** A tombstoned node has empty content. *)
Definition tombstoneIsEmpty (n : node) : bool :=
  if nodeIsDeleted n then contentIsEmpty n else true.

(** The node has no metadata entry at all. *)
Definition metadataIsEmpty (n : node) : bool := isEmptyList (metadata n).

(** What the two invariants ask of the header an operation reads
    [createdAt] from: nothing for the tombstones, disabled time stamps for
    the empty metadata. *)
Definition noGuard (hdr : node) : Prop := True.
Definition untimed (hdr : node) : Prop := timestampsEnabled hdr = false.

(** ** Sequences of calls *)

Inductive operation : Type :=
| OpAdd (path : string) (brick : BrickDescriptor)
| OpDelete (path : string)
| OpEmptyList (path : string)
| OpCopy (srcPath dstPath : string)
| OpCreateFolder (path : string)
| OpCreateFile (path : string)
| OpReplaceFirstBrick (path : string) (brick : BrickRef)
| OpReplaceLastBrick (path : string) (brick : BrickRef)
| OpSetMetadata (path : string) (m : list (string * value))
| OpUpdateMetadata (path : string) (k : string) (v : value).

(** One call, made when the clock reads [now]; the caller goes on with
    the map whether the call returned or threw. *)
Definition perform (normalize : string -> string) (now : string)
    (o : operation) (bm : BrickMap) : BrickMap :=
  match o with
  | OpAdd path brick => fst (add normalize now path brick bm)
  | OpDelete path => fst (delete normalize now path bm)
  | OpEmptyList path => fst (emptyList normalize now path bm)
  | OpCopy srcPath dstPath => fst (copy normalize now srcPath dstPath bm)
  | OpCreateFolder path => fst (createFolder normalize now path bm)
  | OpCreateFile path => fst (createFile normalize now path bm)
  | OpReplaceFirstBrick path brick => fst (replaceFirstBrick normalize now path brick bm)
  | OpReplaceLastBrick path brick => fst (replaceLastBrick normalize now path brick bm)
  | OpSetMetadata path m => fst (setMetadata normalize path m bm)
  | OpUpdateMetadata path k v => fst (updateMetadata normalize path k v bm)
  end.

Fixpoint run (normalize : string -> string) (calls : list (string * operation))
    (bm : BrickMap) : BrickMap :=
  match calls with
  | [] => bm
  | (now, o) :: calls' => run normalize calls' (perform normalize now o bm)
  end.

(** The calls that do not write a [deletedAt] entry chosen by the
    caller: everything except [updateMetadata] with the key [deletedAt]
    and [setMetadata] with a mapping that has one. *)
Definition writesNoDeletedAt (o : operation) : bool :=
  match o with
  | OpSetMetadata _ m =>
      match getProp "deletedAt" m with Some _ => false | None => true end
  | OpUpdateMetadata _ k _ => negb (String.eqb k "deletedAt")
  | _ => true
  end.

(** The calls that take their metadata from the clock, not from the
    caller. *)
Definition writesNoCallerMetadata (o : operation) : bool :=
  match o with
  | OpSetMetadata _ _ | OpUpdateMetadata _ _ _ => false
  | _ => true
  end.

(** ** The object store

    The tree above has no sharing, so it cannot say whether [copy] leaves
    the destination with objects of its own.  The store keeps the objects
    of the JavaScript heap under their addresses: a property holds a
    primitive value or the address of an object, and two properties that
    hold the same address share the object.  [copy] and what it calls are
    embedded a second time over the store. *)

Module Store.

Definition loc : Type := nat.

Inductive sval : Type :=
| SNull
| SBool (b : bool)
| SNum (z : Z)
| SStr (s : string)
| SRef (l : loc).

Inductive object : Type :=
| OObject (props : list (string * sval))
| OArray (elems : list sval)
| OBuffer (bytes : list Byte.byte).

(** Addresses are positions; allocation appends, nothing is freed. *)
Definition store : Type := list object.

(** Store-passing computations that may throw; a throw keeps the store
    reached so far. *)
Definition M (A : Type) : Type := store -> outcome A * store.

Definition ret {A : Type} (a : A) : M A := fun h => (Ok a, h).
Definition throw {A : Type} (e : error) : M A := fun h => (Throw e, h).
Definition bind {A B : Type} (m : M A) (f : A -> M B) : M B :=
  fun h =>
    match m h with
    | (Ok a, h') => f a h'
    | (Throw e, h') => (Throw e, h')
    end.

Notation "x <- m ;; k" := (bind m (fun x => k))
  (at level 61, m at next level, right associativity).
Notation "m ;;; k" := (bind m (fun _ => k))
  (at level 61, right associativity).

Definition alloc (o : object) : M loc :=
  fun h => (Ok (List.length h), h ++ [o]).

Fixpoint writeObj (l : loc) (o : object) (h : store) : store :=
  match h, l with
  | [], _ => []
  | _ :: h', O => o :: h'
  | o' :: h', S l' => o' :: writeObj l' o h'
  end.

(** [o[name]] for a value [o] that may be [undefined] ([None]).  Reading
    a property of [undefined] or [null] throws; a primitive, an array or a
    buffer has none of the names used here. *)
Definition readProp (o : option sval) (name : string) : M (option sval) :=
  fun h =>
    match o with
    | None | Some SNull => (Throw TypeError, h)
    | Some (SRef l) =>
        match nth_error h l with
        | Some (OObject props) => (Ok (getProp name props), h)
        | Some _ => (Ok None, h)
        | None => (Throw TypeError, h)
        end
    | Some _ => (Ok None, h)
    end.

(** [o[name] = v].  The file is in strict mode, where the assignment
    throws unless [o] is an object; the named properties an array or a
    buffer could take are not kept, and the mixin never assigns any. *)
Definition writeProp (o : option sval) (name : string) (v : sval) : M unit :=
  fun h =>
    match o with
    | Some (SRef l) =>
        match nth_error h l with
        | Some (OObject props) => (Ok tt, writeObj l (OObject (setProp name v props)) h)
        | _ => (Throw TypeError, h)
        end
    | _ => (Throw TypeError, h)
    end.

(** [delete o[name]]. *)
Definition removeProp (o : option sval) (name : string) : M unit :=
  fun h =>
    match o with
    | None | Some SNull => (Throw TypeError, h)
    | Some (SRef l) =>
        match nth_error h l with
        | Some (OObject props) => (Ok tt, writeObj l (OObject (deleteProp name props)) h)
        | Some _ => (Ok tt, h)
        | None => (Throw TypeError, h)
        end
    | Some _ => (Ok tt, h)
    end.

Definition truthyS (v : option sval) : bool :=
  match v with
  | None | Some SNull => false
  | Some (SBool b) => b
  | Some (SNum z) => negb (Z.eqb z 0)
  | Some (SStr s) => negb (String.eqb s EmptyString)
  | Some (SRef _) => true
  end.

(** [typeof v === 'object']. *)
Definition typeofObject (v : option sval) : bool :=
  match v with
  | Some SNull | Some (SRef _) => true
  | _ => false
  end.

(** [nodeIsDirectory(node)]. *)
Definition nodeIsDirectory (n : option sval) : M bool :=
  its <- readProp n "items" ;;
  ret (typeofObject its).

(** [updateTimeMetadata(target, prop)]; [hdr] is [this.header]. *)
Definition updateTimeMetadata (hdr : sval) (now : string) (prop : string)
    (target : option sval) : M unit :=
  hm <- readProp (Some hdr) "metadata" ;;
  createdAt <- readProp hm "createdAt" ;;
  if truthyS createdAt then
    tm <- readProp target "metadata" ;;
    writeProp tm prop (SStr now)
  else ret tt.

(** [createFileNode(parent, name)]. *)
Definition createFileNode (hdr : sval) (now : string) (parent : option sval)
    (name : string) : M unit :=
  hashLinks <- alloc (OArray []) ;;
  metadata <- alloc (OObject []) ;;
  n <- alloc (OObject [("hashLinks", SRef hashLinks); ("metadata", SRef metadata)]) ;;
  its <- readProp parent "items" ;;
  writeProp its name (SRef n) ;;;
  updateTimeMetadata hdr now "createdAt" (Some (SRef n)).

(** [createDirectoryNode(root, name)]. *)
Definition createDirectoryNode (hdr : sval) (now : string) (root : option sval)
    (name : string) : M unit :=
  metadata <- alloc (OObject []) ;;
  items <- alloc (OObject []) ;;
  n <- alloc (OObject [("metadata", SRef metadata); ("items", SRef items)]) ;;
  its <- readProp root "items" ;;
  writeProp its name (SRef n) ;;;
  updateTimeMetadata hdr now "createdAt" (Some (SRef n)).

(** The code of [createNodesFromPath] after its loop. *)
Definition createTrailingNode (hdr : sval) (now : string) (ty : trailingNodeType)
    (nodeName : string) (parentNode : option sval) : M (option sval) :=
  its <- readProp parentNode "items" ;;
  c <- readProp its nodeName ;;
  (if truthyS c then ret tt
   else
     match ty with
     | Child => createFileNode hdr now parentNode nodeName
     | Parent => createDirectoryNode hdr now parentNode nodeName
     end) ;;;
  its' <- readProp parentNode "items" ;;
  readProp its' nodeName.

(** One turn of its loop. *)
Definition loopIteration (hdr : sval) (now : string) (ty : trailingNodeType)
    (nodeName : string) (isLast : bool)
    (continue : option sval -> M (option sval))
    (parentNode : option sval) : M (option sval) :=
  its <- readProp parentNode "items" ;;
  c <- readProp its nodeName ;;
  (if truthyS c then
     cm <- readProp c "metadata" ;;
     removeProp cm "deletedAt"
   else ret tt) ;;;
  pm <- readProp parentNode "metadata" ;;
  (if typeofObject pm then removeProp pm "deletedAt" else ret tt) ;;;
  if isLast then createTrailingNode hdr now ty nodeName parentNode
  else
    its1 <- readProp parentNode "items" ;;
    c1 <- readProp its1 nodeName ;;
    (if truthyS c1 then ret tt
     else createDirectoryNode hdr now parentNode nodeName) ;;;
    its2 <- readProp parentNode "items" ;;
    next <- readProp its2 nodeName ;;
    continue next.

Fixpoint createNodesLoop (hdr : sval) (now : string) (ty : trailingNodeType)
    (pathSegments : list string) : option sval -> M (option sval) :=
  match pathSegments with
  | [] => createTrailingNode hdr now ty "undefined"
  | s :: rest =>
      if String.eqb s EmptyString then
        match rest with
        | [] =>
            loopIteration hdr now ty "undefined" true (fun _ => throw TypeError)
        | s' :: rest' =>
            loopIteration hdr now ty s' (isEmptyList rest')
              (createNodesLoop hdr now ty rest')
        end
      else
        loopIteration hdr now ty s (isEmptyList rest)
          (createNodesLoop hdr now ty rest)
  end.

Definition createNodesFromPath (hdr : sval) (now : string) (ty : trailingNodeType)
    (path : string) : M (option sval) :=
  createNodesLoop hdr now ty (split slash path) (Some hdr).

(** [navigate(toPath)]. *)
Fixpoint navigateFrom (segments : list string) (parentNode : option sval)
    : M (option sval) :=
  match segments with
  | [] => ret parentNode
  | segment :: rest =>
      if String.eqb segment EmptyString then navigateFrom rest parentNode
      else
        its <- readProp parentNode "items" ;;
        c <- readProp its segment ;;
        match c with
        | None => ret None
        | Some _ =>
            isDir <- nodeIsDirectory c ;;
            if isDir then navigateFrom rest c else navigateFrom rest parentNode
        end
  end.

(** [getDeepestNode(path)]. *)
Definition getDeepestNode (normalize : string -> string) (hdr : sval)
    (path : string) : M (option sval) :=
  let path := normalize path in
  if String.eqb path "/" then ret (Some hdr)
  else
    parentNode <- navigateFrom (split slash (dirname path)) (Some hdr) ;;
    if truthyS parentNode then
      its <- readProp parentNode "items" ;;
      readProp its (basename path)
    else ret None.

(** [JSON.stringify(v)] in a store: [None] when the walk does not end
    within [fuel] nested objects.  With more fuel than the store has
    objects that happens only on a cycle, where [JSON.stringify] throws. *)
Fixpoint stringifyS (fuel : nat) (h : store) (v : sval) : option value :=
  match v with
  | SNull => Some VNull
  | SBool b => Some (VBool b)
  | SNum z => Some (VNum z)
  | SStr s => Some (VStr s)
  | SRef l =>
      match fuel with
      | O => None
      | S fuel' =>
          match nth_error h l with
          | Some (OObject props) =>
              option_map VObj
                ((fix fields (ps : list (string * sval)) : option (list (string * value)) :=
                    match ps with
                    | [] => Some []
                    | (k, x) :: ps' =>
                        match stringifyS fuel' h x, fields ps' with
                        | Some j, Some r => Some ((k, j) :: r)
                        | _, _ => None
                        end
                    end) props)
          | Some (OArray elems) =>
              option_map VArr
                ((fix elements (es : list sval) : option (list value) :=
                    match es with
                    | [] => Some []
                    | x :: es' =>
                        match stringifyS fuel' h x, elements es' with
                        | Some j, Some r => Some (j :: r)
                        | _, _ => None
                        end
                    end) elems)
          | Some (OBuffer bytes) => Some (bufferToJSON bytes)
          | None => None
          end
      end
  end.

(** [JSON.parse(text)]: every object and array of the text becomes a new
    object of the store. *)
Fixpoint parseS (j : value) (h : store) : sval * store :=
  match j with
  | VNull => (SNull, h)
  | VBool b => (SBool b, h)
  | VNum z => (SNum z, h)
  | VStr s => (SStr s, h)
  | VArr l =>
      let '(vs, h') :=
        (fix elements (l : list value) (h : store) : list sval * store :=
           match l with
           | [] => ([], h)
           | x :: l' =>
               let '(v, h1) := parseS x h in
               let '(vs, h2) := elements l' h1 in
               (v :: vs, h2)
           end) l h in
      (SRef (List.length h'), h' ++ [OArray vs])
  | VObj fields =>
      let '(ps, h') :=
        (fix props (fs : list (string * value)) (h : store)
           : list (string * sval) * store :=
           match fs with
           | [] => ([], h)
           | (k, x) :: fs' =>
               let '(v, h1) := parseS x h in
               let '(ps, h2) := props fs' h1 in
               ((k, v) :: ps, h2)
           end) fields h in
      (SRef (List.length h'), h' ++ [OObject ps])
  | VBuf bytes => (SRef (List.length h), h ++ [OBuffer bytes])
  end.

(** [target[prop] = JSON.parse(JSON.stringify(source[prop]))]; for an
    [undefined] property [JSON.parse] is handed [undefined] and throws. *)
Definition assignClone (source target : option sval) (prop : string) : M unit :=
  v <- readProp source prop ;;
  match v with
  | None => throw SyntaxError
  | Some v' =>
      fun h =>
        match stringifyS (S (List.length h)) h v' with
        | None => (Throw TypeError, h)
        | Some text =>
            let '(copied, h') := parseS text h in
            writeProp target prop copied h'
        end
  end.

(** [copy(srcPath, dstPath)]. *)
Definition copy (normalize : string -> string) (hdr : sval) (now : string)
    (srcPath dstPath : string) : M unit :=
  srcNode <- getDeepestNode normalize hdr srcPath ;;
  if negb (truthyS srcNode) then throw (SourceNotFound srcPath)
  else
    isDir <- nodeIsDirectory srcNode ;;
    dstNode <- createNodesFromPath hdr now (if isDir then Parent else Child) dstPath ;;
    isDir' <- nodeIsDirectory srcNode ;;
    if isDir' then assignClone srcNode dstNode "items"
    else assignClone srcNode dstNode "hashLinks".

(** [reach h v l]: the object at [l] is [v] or can be reached from [v]
    through properties and elements. *)
Inductive reach (h : store) : sval -> loc -> Prop :=
| reach_here l : reach h (SRef l) l
| reach_prop l props k v l' :
    nth_error h l = Some (OObject props) -> In (k, v) props ->
    reach h v l' -> reach h (SRef l) l'
| reach_elem l elems v l' :
    nth_error h l = Some (OArray elems) -> In v elems ->
    reach h v l' -> reach h (SRef l) l'.

(** The values an object holds. *)
Definition heldValues (o : object) : list sval :=
  match o with
  | OObject props => map snd props
  | OArray elems => elems
  | OBuffer _ => []
  end.

(** [v] is no address below [base]. *)
Definition isNewFrom (base : nat) (v : sval) : Prop :=
  match v with
  | SRef l => base <= l
  | _ => True
  end.

(** [res] is [h] extended by new objects that hold no address below the
    length of [h], and its value is no such address either. *)
Definition parsedInto (h : store) (res : sval * store) : Prop :=
  exists ext,
    snd res = h ++ ext /\
    isNewFrom (List.length h) (fst res) /\
    Forall (fun o => Forall (isNewFrom (List.length h)) (heldValues o)) ext.

(** [printsBack j h]: the value parsed from [j] in the store [h] prints
    as [j] again, in every store that has the objects the parse made, given
    fuel for that many objects. *)
Definition printsBack (j : value) (h : store) : Prop :=
  forall hx fuel,
    List.length (snd (parseS j h)) - List.length h <= fuel ->
    (forall l, List.length h <= l < List.length (snd (parseS j h)) ->
               nth_error hx l = nth_error (snd (parseS j h)) l) ->
    stringifyS fuel hx (fst (parseS j h)) = Some j.

(** [validIn h v]: [v] is a primitive value or the address of an object
    of [h]. *)
Definition validIn (h : store) (v : sval) : bool :=
  match v with
  | SRef l => Nat.ltb l (List.length h)
  | _ => true
  end.

Definition validOpt (h : store) (o : option sval) : bool :=
  match o with
  | Some v => validIn h v
  | None => true
  end.

(** A store as the heap has it: every address an object holds is the
    address of an object. *)
Definition wellFormed (h : store) : bool :=
  forallb (fun o => forallb (validIn h) (heldValues o)) h.

(** [okM m Q h]: run in the well-formed store [h], the computation [m]
    ends in a well-formed store with the objects of [h] and maybe more, and
    a value it returns satisfies [Q] there. *)
Definition okM {A : Type} (m : M A) (Q : A -> store -> Prop) (h : store) : Prop :=
  wellFormed h = true ->
  wellFormed (snd (m h)) = true /\
  List.length h <= List.length (snd (m h)) /\
  forall a, fst (m h) = Ok a -> Q a (snd (m h)).

(** A store with the directory [a] holding the file [f] with one brick:
    addresses 0 and 1 are the header's metadata and items, 2 and 3 those of
    [a], 4 is [a], 5 to 8 the brick, the array, the metadata and the node
    of [f], 9 the header. *)
Definition exampleStore : store :=
  [ OObject [("createdAt", SStr "t0")];
    OObject [("a", SRef 4)];
    OObject [("createdAt", SStr "t1")];
    OObject [("f", SRef 8)];
    OObject [("metadata", SRef 2); ("items", SRef 3)];
    OObject [("checkSum", SStr "c1"); ("hashLink", SStr "h1")];
    OArray [SRef 5];
    OObject [("createdAt", SStr "t1")];
    OObject [("hashLinks", SRef 6); ("metadata", SRef 7)];
    OObject [("items", SRef 1); ("metadata", SRef 0)] ].

Definition exampleHeader : sval := SRef 9.

End Store.

(** ** Concrete maps used in the closed examples *)

Definition brickC1 : BrickDescriptor := mkBrickDescriptor "c1" "h1" None None.

(** A fresh map with time stamps, and one created with [preventTimestamp]. *)
Definition freshMap : BrickMap := initialize None false "t0".
Definition untimedMap : BrickMap := initialize None true "t0".

(** The map after [add("a/b/file.txt", {checkSum: "c1", hashLink: "h1"})]. *)
Definition mapWithFile : BrickMap :=
  fst (add pskNormalize "t1" "a/b/file.txt" brickC1 freshMap).
Definition untimedMapWithFile : BrickMap :=
  fst (add pskNormalize "t1" "a/b/file.txt" brickC1 untimedMap).

(** The map with a file [f] that holds one brick, and the map with a
    folder [d/e]. *)
Definition mapWithTopFile : BrickMap :=
  fst (add pskNormalize "t1" "f" brickC1 freshMap).
Definition mapWithFolder : BrickMap :=
  fst (createFolder pskNormalize "t1" "d/e" freshMap).

(** A brick descriptor whose key is an object of the buffer-encoding
    shape with a [data] entry that is no byte value, and the map that holds
    a file with that brick. *)
Definition brickWithOddKey : BrickDescriptor :=
  mkBrickDescriptor "c1" "h1" None
    (Some (VObj [("type", VStr bufferTag); ("data", VArr [VNum 300])])).
Definition mapWithOddKey : BrickMap :=
  fst (add pskNormalize "t1" "f" brickWithOddKey freshMap).

(** The map whose file [f] has the metadata entry [key: null]. *)
Definition mapWithNullKey : BrickMap :=
  fst (updateMetadata pskNormalize "f" "key" VNull mapWithTopFile).

(** A brick descriptor with a key of three bytes, and its map. *)
Definition brickWithKey : BrickDescriptor :=
  mkBrickDescriptor "c1" "h1" (Some 3%Z)
    (Some (VBuf [Byte.x01; Byte.xff; Byte.x00])).
Definition mapWithKey : BrickMap :=
  fst (add pskNormalize "t1" "f" brickWithKey freshMap).

(** ** Further operations of the mixin *)

(** [hasItems()]: [Object.keys] throws when the header has no [items]. *)
Definition hasItems (bm : BrickMap) : outcome bool :=
  match items (header bm) with
  | Some its => Ok (negb (isEmptyList its))
  | None => Throw TypeError
  end.

(** The [bricks] argument of [addFileEntry] and [appendBricksToFile]: an
    array, or one brick that is not an array. *)
Inductive bricksArgument : Type :=
| OneBrick (b : BrickDescriptor)
| BrickArray (l : list BrickDescriptor).

Definition bricksOf (bricks : bricksArgument) : list BrickDescriptor :=
  match bricks with
  | OneBrick b => [b]
  | BrickArray l => l
  end.

Inductive nodeType : Type := DirectoryType | FileType.

Section MoreOperations.

Variable normalize : string -> string.

(** The loop of [appendBricksToFile]: the first [add] that throws ends
    it, with the bricks added so far in place. *)
Fixpoint addAll (now : string) (path : string) (bricks : list BrickDescriptor)
    (bm : BrickMap) : BrickMap * outcome unit :=
  match bricks with
  | [] => (bm, Ok tt)
  | b :: rest =>
      match add normalize now path b bm with
      | (bm1, Throw e) => (bm1, Throw e)
      | (bm1, Ok _) => addAll now path rest bm1
      end
  end.

(** [appendBricksToFile(path, bricks)]. *)
Definition appendBricksToFile (now : string) (path : string)
    (bricks : bricksArgument) (bm : BrickMap) : BrickMap * outcome unit :=
  addAll now path (bricksOf bricks) bm.

(** [addFileEntry(path, bricks)]. *)
Definition addFileEntry (now : string) (path : string) (bricks : bricksArgument)
    (bm : BrickMap) : BrickMap * outcome unit :=
  match isEmpty normalize path bm with
  | Throw e => (bm, Throw e)
  | Ok true => appendBricksToFile now path bricks bm
  | Ok false =>
      match emptyList normalize now path bm with
      | (bm1, Throw e) => (bm1, Throw e)
      | (bm1, Ok _) => appendBricksToFile now path bricks bm1
      end
  end.

(** [stat(path)]: for a missing path [nodeIsDirectory] reads [items] of
    [undefined] and throws. *)
Definition stat (path : string) (bm : BrickMap) : outcome nodeType :=
  match getDeepestNode normalize path bm with
  | Throw e => Throw e
  | Ok None => Throw TypeError
  | Ok (Some (_, n)) => Ok (if nodeIsDirectory n then DirectoryType else FileType)
  end.

(** [pskPath.join(currentPath, itemName)], of [swarmutils]. *)
Variable pathJoin : string -> string -> string.

(** The body of the loop of [findFiles] for one item: a directory is
    walked when [recursive] holds and contributes nothing otherwise, a file
    is listed unless it is tombstoned.  The inner function is the call
    [findFiles(item.items, itemPath)]. *)
Fixpoint findFilesAt (recursive : bool) (item : node) (itemPath : string)
    : list string :=
  match item with
  | Node _ (Some l) _ =>
      if recursive then
        (fix findFiles (nodes : list (string * node)) : list string :=
           match nodes with
           | [] => []
           | (itemName, c) :: nodes' =>
               findFilesAt recursive c (pathJoin itemPath itemName) ++ findFiles nodes'
           end) l
      else []
  | Node _ None _ => if nodeIsDeleted item then [] else [itemPath]
  end.

(** [findFiles(nodes, currentPath)]. *)
Definition findFiles (recursive : bool) (nodes : list (string * node))
    (currentPath : string) : list string :=
  flat_map (fun kv => findFilesAt recursive (snd kv) (pathJoin currentPath (fst kv))) nodes.

(** [getFileList(folderBarPath, recursive)]; [recursive] is [None] when
    the argument is left out, which means [true]; a node without [items]
    has nothing to enumerate. *)
Definition getFileList (folderBarPath : string) (recursive : option bool)
    (bm : BrickMap) : outcome (list string) :=
  let recursive := match recursive with Some b => b | None => true end in
  match getDeepestNode normalize folderBarPath bm with
  | Throw e => Throw e
  | Ok None => Ok []
  | Ok (Some (_, n)) =>
      match items n with
      | Some its => Ok (findFiles recursive its EmptyString)
      | None => Ok []
      end
  end.

(** The body of the loop of [findFolders] for one item. *)
Fixpoint findFoldersAt (recursive : bool) (item : node) (itemPath : string)
    : list string :=
  match item with
  | Node _ (Some l) _ =>
      if nodeIsDeleted item then []
      else
        itemPath ::
        (if recursive then
           (fix findFolders (nodes : list (string * node)) : list string :=
              match nodes with
              | [] => []
              | (itemName, c) :: nodes' =>
                  findFoldersAt recursive c (pathJoin itemPath itemName)
                  ++ findFolders nodes'
              end) l
         else [])
  | Node _ None _ => []
  end.

(** [findFolders(nodes, currentPath)]. *)
Definition findFolders (recursive : bool) (nodes : list (string * node))
    (currentPath : string) : list string :=
  flat_map (fun kv => findFoldersAt recursive (snd kv) (pathJoin currentPath (fst kv)))
    nodes.

(** [getFolderList(barPath, recursive)]; a left out [recursive] is
    [undefined], which is falsy. *)
Definition getFolderList (barPath : string) (recursive : option bool)
    (bm : BrickMap) : outcome (list string) :=
  let recursive := match recursive with Some b => b | None => false end in
  match getDeepestNode normalize barPath bm with
  | Throw e => Throw e
  | Ok None => Ok []
  | Ok (Some (_, n)) =>
      match items n with
      | Some its => Ok (findFolders recursive its EmptyString)
      | None => Ok []
      end
  end.

End MoreOperations.

(** ** Notions used in the statements *)

(** The names every object inherits from [Object.prototype].  An object
    is kept here as the list of its own entries; for one of these names the
    code differs from that: a read where the object has no entry of its own
    finds the inherited function instead of [undefined], and an assignment
    to [__proto__] sets the prototype instead of an entry.  [inheritedName]
    marks them. *)
Definition objectPrototypeNames : list string :=
  ["constructor"; "__defineGetter__"; "__defineSetter__"; "hasOwnProperty";
   "__lookupGetter__"; "__lookupSetter__"; "isPrototypeOf";
   "propertyIsEnumerable"; "toString"; "valueOf"; "__proto__"; "toLocaleString"].

Definition inheritedName (name : string) : bool :=
  existsb (String.eqb name) objectPrototypeNames.

(** The string has no slash in it. *)
Fixpoint hasNoSlash (s : string) : bool :=
  match s with
  | EmptyString => true
  | String c s' => negb (Ascii.eqb c slash) && hasNoSlash s'
  end.

(** A path without an empty segment, relative ([a/b]) or with a leading
    slash ([/a/b]): the paths for which [createNodesFromPath] and
    [getDeepestNode] can name the same node. *)
Definition isNonEmptyString (s : string) : bool := negb (String.eqb s EmptyString).

Definition pathIsPlain (path : string) : bool :=
  match split slash path with
  | s :: rest =>
      if String.eqb s EmptyString
      then negb (isEmptyList rest) && forallb isNonEmptyString rest
      else forallb isNonEmptyString rest
  | [] => false
  end.

(** The node names of a path: its segments without the empty ones. *)
Definition pathNames (path : string) : list string :=
  filter isNonEmptyString (split slash path).

(** [refsDiverge r r']: the references part at some name, so neither
    leads to the node of the other or to a node above it. *)
Fixpoint refsDiverge (r r' : ref) : bool :=
  match r, r' with
  | k :: t, k' :: t' => if String.eqb k k' then refsDiverge t t' else true
  | _, _ => false
  end.

(** [isPrefix s t]: the reference [s] leads to the node at [t] or to one
    above it. *)
Fixpoint isPrefix (s t : ref) : bool :=
  match s, t with
  | [], _ => true
  | k :: s', k' :: t' => String.eqb k k' && isPrefix s' t'
  | _ :: _, [] => false
  end.

(** The lookup [getDeepestNode] makes for a path with the segments
    [segs] that is not the root: [navigate] along all but the last one,
    then a read of the last one in the items of the node reached. *)
Definition resolveFrom (segs : list string) (r0 : ref) (p : node)
    : outcome (option (ref * node)) :=
  match navigateFrom (removelast segs) r0 p with
  | Throw e => Throw e
  | Ok None => Ok None
  | Ok (Some (r, parentNode)) =>
      match items parentNode with
      | None => Throw TypeError
      | Some its =>
          match getProp (last segs EmptyString) its with
          | None => Ok None
          | Some c => Ok (Some (r ++ [last segs EmptyString], c))
          end
      end
  end.

(** The node [createFileNode] or [createDirectoryNode] puts in place. *)
Definition freshNode (hdr : node) (now : string) (ty : trailingNodeType) : node :=
  updateTimeMetadata hdr now "createdAt"
    (match ty with
     | Child => Node [] None (Some [])
     | Parent => Node [] (Some []) None
     end).

(** [revived c c']: [c'] is the node [c] after a walk of
    [createNodesFromPath] went past it: the same kind of node with the same
    bricks, its metadata as before or without the [deletedAt] entry. *)
Definition revived (c c' : node) : Prop :=
  hashLinks c' = hashLinks c /\
  nodeIsDirectory c' = nodeIsDirectory c /\
  (metadata c' = metadata c \/ metadata c' = deleteProp "deletedAt" (metadata c)).

(** The bricks and the items of the node a reference leads to, when
    there is such a node and it has them. *)
Definition bricksAt (r : ref) (bm : BrickMap) : list BrickRef :=
  match nodeAt r bm with
  | Some n => match hashLinks n with Some hl => hl | None => [] end
  | None => []
  end.

Definition itemsAt (r : ref) (bm : BrickMap) : option (list (string * node)) :=
  match nodeAt r bm with
  | Some n => items n
  | None => None
  end.

(** The creation time stamp of the map, [header.metadata.createdAt]. *)
Definition createdAtOf (bm : BrickMap) : option value :=
  getProp "createdAt" (metadata (header bm)).

(** [walkable names n]: on the walk from [n] along [names] every node
    that is reached before the last name, [n] included, is a directory; a
    name that is missing ends the walk. *)
Fixpoint walkable (names : list string) (n : node) : bool :=
  match names with
  | [] => true
  | s :: rest =>
      match items n with
      | None => false
      | Some its =>
          match rest with
          | [] => true
          | _ :: _ =>
              match getProp s its with
              | Some c => walkable rest c
              | None => true
              end
          end
      end
  end.

(** The entries a listing walks through: [descends its r c] when [c] is
    reached from the items [its] by the names [r], each step through the
    items of a directory.  [joinAll] joins the names to a path. *)
Inductive descends : list (string * node) -> list string -> node -> Prop :=
| descends_child its k c : In (k, c) its -> descends its [k] c
| descends_deeper its k c its' r d :
    In (k, c) its -> items c = Some its' -> descends its' r d ->
    descends its (k :: r) d.

(** The same, through directories that are not tombstoned only. *)
Inductive descendsLive : list (string * node) -> list string -> node -> Prop :=
| descendsLive_child its k c : In (k, c) its -> descendsLive its [k] c
| descendsLive_deeper its k c its' r d :
    In (k, c) its -> items c = Some its' -> nodeIsDeleted c = false ->
    descendsLive its' r d -> descendsLive its (k :: r) d.

Definition joinAll (pathJoin : string -> string -> string) (currentPath : string)
    (names : list string) : string :=
  fold_left pathJoin names currentPath.

(* ================================================================= *)
(** * Theorems *)

(** ** Objects and references *)

Section PropFacts.
Context {A : Type}.
Implicit Types (o : list (string * A)) (k : string) (v : A).

Lemma getProp_setProp_same k v o : getProp k (setProp k v o) = Some v.
Proof.
  induction o as [|[k' v'] o IH]; simpl.
  - now rewrite String.eqb_refl.
  - destruct (String.eqb k k') eqn:E; simpl; rewrite E; auto.
Qed.

Lemma getProp_setProp_other k k' v o :
  k <> k' -> getProp k' (setProp k v o) = getProp k' o.
Proof.
  intros Hne. induction o as [|[k0 v0] o IH]; simpl.
  - destruct (String.eqb k' k) eqn:E; auto.
    apply String.eqb_eq in E. congruence.
  - destruct (String.eqb k k0) eqn:E; simpl.
    + apply String.eqb_eq in E. subst k0.
      destruct (String.eqb k' k) eqn:E'; auto.
      apply String.eqb_eq in E'. congruence.
    + now rewrite IH.
Qed.

Lemma objectKeys_setProp k v o :
  getProp k o <> None -> objectKeys (setProp k v o) = objectKeys o.
Proof.
  unfold objectKeys. induction o as [|[k' v'] o IH]; simpl; intros H.
  - congruence.
  - destruct (String.eqb k k') eqn:E; simpl; auto.
    now rewrite IH.
Qed.

Lemma getProp_deleteProp_same k o : getProp k (deleteProp k o) = None.
Proof.
  induction o as [|[k' v'] o IH]; simpl; auto.
  destruct (String.eqb k k') eqn:E; simpl; auto. now rewrite E.
Qed.

Lemma getProp_deleteProp_other k k' o :
  k <> k' -> getProp k' (deleteProp k o) = getProp k' o.
Proof.
  intros Hne. induction o as [|[k0 v0] o IH]; simpl; auto.
  destruct (String.eqb k k0) eqn:E; simpl.
  - apply String.eqb_eq in E. subst k0.
    destruct (String.eqb k' k) eqn:E'; auto.
    apply String.eqb_eq in E'. congruence.
  - now rewrite IH.
Qed.

End PropFacts.

Lemma lookupRef_app r k n :
  lookupRef (r ++ [k]) n =
  match lookupRef r n with
  | Some p =>
      match items p with
      | Some its => getProp k its
      | None => None
      end
  | None => None
  end.
Proof.
  revert n. induction r as [|k0 r IH]; intros n; simpl.
  - destruct (items n) as [its|]; auto. destruct (getProp k its); auto.
  - destruct (items n) as [its|]; auto. destruct (getProp k0 its); auto.
Qed.

Lemma lookupRef_updateRef r f n c :
  lookupRef r n = Some c -> lookupRef r (updateRef r f n) = Some (f c).
Proof.
  revert n. induction r as [|k r IH]; intros n; simpl.
  - congruence.
  - destruct (items n) as [its|] eqn:Ei; try discriminate.
    destruct (getProp k its) as [c0|] eqn:Ec; try discriminate.
    intros H. simpl. rewrite getProp_setProp_same. auto.
Qed.

(** [navigate] and [getDeepestNode] return a node together with a
    reference that leads to it. *)
Lemma navigateFrom_sound h segments :
  forall r p r' n,
    lookupRef r h = Some p ->
    navigateFrom segments r p = Ok (Some (r', n)) ->
    lookupRef r' h = Some n.
Proof.
  induction segments as [|s rest IH]; intros r p r' n Hr; simpl.
  - intros H. inversion H. subst. exact Hr.
  - destruct (String.eqb s EmptyString); [now apply IH|].
    destruct (items p) as [its|] eqn:Ei; try discriminate.
    destruct (getProp s its) as [c|] eqn:Ec; try discriminate.
    destruct (nodeIsDirectory c).
    + apply IH. rewrite lookupRef_app, Hr, Ei. exact Ec.
    + now apply IH.
Qed.

Lemma getDeepestNode_sound normalize path bm r n :
  getDeepestNode normalize path bm = Ok (Some (r, n)) ->
  nodeAt r bm = Some n.
Proof.
  unfold getDeepestNode, nodeAt.
  destruct (String.eqb (normalize path) "/").
  - intros H. inversion H. reflexivity.
  - unfold navigate.
    destruct (navigateFrom _ _ _) as [[[r0 p]|]|] eqn:En; try discriminate.
    destruct (items p) as [its|] eqn:Ei; try discriminate.
    destruct (getProp _ its) as [c|] eqn:Ec; try discriminate.
    intros H. inversion H. subst.
    rewrite lookupRef_app.
    rewrite (navigateFrom_sound (header bm) _ [] (header bm) r0 p eq_refl En), Ei.
    exact Ec.
Qed.

Lemma nodeAt_mutateAt r f bm n :
  nodeAt r bm = Some n -> nodeAt r (mutateAt r f bm) = Some (f n).
Proof. unfold nodeAt, mutateAt. simpl. apply lookupRef_updateRef. Qed.

(** ** Deleting *)

Lemma deleteNode_directory hdr now n :
  nodeIsDirectory n = true ->
  items (deleteNode hdr now n) = Some [] /\
  hashLinks (deleteNode hdr now n) = hashLinks n.
Proof.
  unfold deleteNode, updateTimeMetadata, nodeIsDirectory.
  destruct n as [m its hl]; simpl.
  destruct (timestampsEnabled hdr); simpl; destruct its; simpl; intros H;
    try discriminate; auto.
Qed.

Lemma deleteNode_file hdr now n :
  nodeIsDirectory n = false ->
  hashLinks (deleteNode hdr now n) = Some [] /\
  items (deleteNode hdr now n) = None.
Proof.
  unfold deleteNode, updateTimeMetadata, nodeIsDirectory.
  destruct n as [m its hl]; simpl.
  destruct (timestampsEnabled hdr); simpl; destruct its; simpl; intros H;
    try discriminate; auto.
Qed.

Lemma deleteNode_metadata hdr now n :
  metadata (deleteNode hdr now n) =
  if timestampsEnabled hdr
  then setProp "deletedAt" (VStr now) (metadata n)
  else metadata n.
Proof.
  unfold deleteNode, updateTimeMetadata.
  destruct n as [m its hl]; simpl.
  destruct (timestampsEnabled hdr); simpl; destruct its; reflexivity.
Qed.

Lemma deleteNode_stamped hdr now n :
  timestampsEnabled hdr = true -> nodeIsDeleted (deleteNode hdr now n) = true.
Proof.
  intros H. unfold nodeIsDeleted. rewrite deleteNode_metadata, H.
  now rewrite getProp_setProp_same.
Qed.

Lemma getDeepestNode_root normalize path bm :
  normalize path = "/" ->
  getDeepestNode normalize path bm = Ok (Some ([], header bm)).
Proof. unfold getDeepestNode. intros ->. reflexivity. Qed.

(** For a path that normalises to the empty string the lookup reads the
    header's property with the empty name. *)
Lemma getDeepestNode_empty normalize path bm :
  normalize path = EmptyString ->
  getDeepestNode normalize path bm =
  match items (header bm) with
  | None => Throw TypeError
  | Some its =>
      match getProp EmptyString its with
      | None => Ok None
      | Some c => Ok (Some ([EmptyString], c))
      end
  end.
Proof. unfold getDeepestNode. intros ->. reflexivity. Qed.

(** C1, as the code has it.  [delete] has no guard for the root: a path
    that normalises to ["/"] resolves to the header, and unless the header
    is tombstoned already its items are cleared and, with time stamps
    enabled, [deletedAt] is set on it.  Only a path that normalises to the
    empty string leaves the header alone: its metadata is unchanged and no
    property leaves its items (at most the child with the empty name is
    tombstoned). *)
Theorem delete_root_path (normalize : string -> string) now p bm :
  (normalize (normalize p) = "/" ->
   nodeIsDeleted (header bm) = false ->
   nodeIsDirectory (header bm) = true ->
   let bm' := fst (delete normalize now p bm) in
   items (header bm') = Some [] /\
   (timestampsEnabled (header bm) = true -> nodeIsDeleted (header bm') = true)) /\
  (normalize (normalize p) = EmptyString ->
   let bm' := fst (delete normalize now p bm) in
   metadata (header bm') = metadata (header bm) /\
   option_map objectKeys (items (header bm')) =
   option_map objectKeys (items (header bm))).
Proof.
  split.
  - intros Hroot Hlive Hdir. unfold delete.
    rewrite (getDeepestNode_root _ _ _ Hroot), Hlive. simpl.
    split.
    + now apply deleteNode_directory.
    + apply deleteNode_stamped.
  - intros Hempty. unfold delete.
    rewrite (getDeepestNode_empty _ _ _ Hempty).
    destruct (items (header bm)) as [its|] eqn:Ei; simpl; [|now rewrite Ei].
    destruct (getProp EmptyString its) as [c|] eqn:Ec; simpl; [|now rewrite Ei].
    destruct (nodeIsDeleted c); simpl; [now rewrite Ei|].
    rewrite Ei, Ec. simpl. split; [reflexivity|].
    f_equal. apply objectKeys_setProp. congruence.
Qed.

Lemma delete_root_path_witness :
  (items (header (fst (delete pskNormalize "t2" "/" mapWithFile))) = Some [] /\
   nodeIsDeleted (header (fst (delete pskNormalize "t2" "/" mapWithFile))) = true) /\
  metadata (header (fst (delete pskNormalize "t2" EmptyString mapWithFile))) =
  metadata (header mapWithFile).
Proof.
  split.
  - destruct (proj1 (delete_root_path pskNormalize "t2" "/" mapWithFile)
                eq_refl eq_refl eq_refl) as [Hitems Hdel].
    split; [exact Hitems | exact (Hdel eq_refl)].
  - exact (proj1 (proj2 (delete_root_path pskNormalize "t2" EmptyString mapWithFile)
                    eq_refl)).
Defined.

(** C1 as stated fails: [delete("/")] on the map that holds
    [a/b/file.txt] tombstones the header and empties its items. *)
Lemma delete_root_counterexample :
  pskNormalize (pskNormalize "/") = "/" /\
  objectKeys (match items (header mapWithFile) with Some i => i | None => [] end) = ["a"] /\
  items (header (fst (delete pskNormalize "t2" "/" mapWithFile))) = Some [] /\
  nodeIsDeleted (header mapWithFile) = false /\
  nodeIsDeleted (header (fst (delete pskNormalize "t2" "/" mapWithFile))) = true.
Proof. repeat split; reflexivity. Qed.

(** C2: what the code does at the claim's input.  After [add] and
    [delete] of [a/b/file.txt] the tombstoned node is still found, and
    [getHashList] returns the empty list where [getBricksMeta] throws
    the not-found error. *)
Theorem getHashList_after_delete :
  let bm := fst (delete pskNormalize "t2" "a/b/file.txt" mapWithFile) in
  getHashList pskNormalize "a/b/file.txt" mapWithFile = Ok ["h1"] /\
  fileDeleted pskNormalize "a/b/file.txt" bm = Ok (Some true) /\
  getHashList pskNormalize "a/b/file.txt" bm = Ok [] /\
  getBricksMeta pskNormalize "a/b/file.txt" bm = Throw (PathNotFound "a/b/file.txt").
Proof. repeat split; reflexivity. Qed.

(** [getHashList] never looks at the tombstone: on a node that is not a
    directory it returns the hash links of whatever bricks are left. *)
Lemma getHashList_ignores_tombstone normalize path bm r n hl :
  path <> EmptyString ->
  getDeepestNode normalize path bm = Ok (Some (r, n)) ->
  nodeIsDirectory n = false ->
  hashLinks n = Some hl ->
  getHashList normalize path bm = Ok (map hashLink hl).
Proof.
  intros Hne Hg Hd Hl. unfold getHashList.
  destruct (String.eqb path EmptyString) eqn:E.
  - apply String.eqb_eq in E. contradiction.
  - now rewrite Hg, Hd, Hl.
Qed.

(** C3, as the code has it.  [delete] does nothing when the path
    resolves to no node or to a tombstoned one.  Otherwise the node's
    content is cleared ([items] becomes empty for a directory, [hashLinks]
    for a file) and [deletedAt] is set to the time stamp, the latter only
    when the header carries [createdAt]: in a map created with
    [preventTimestamp] the metadata stays as it was. *)
Theorem delete_spec (normalize : string -> string) now p bm :
  (getDeepestNode normalize (normalize p) bm = Ok None ->
   delete normalize now p bm = (bm, Ok tt)) /\
  (forall r n,
     getDeepestNode normalize (normalize p) bm = Ok (Some (r, n)) ->
     nodeIsDeleted n = true ->
     delete normalize now p bm = (bm, Ok tt)) /\
  (forall r n,
     getDeepestNode normalize (normalize p) bm = Ok (Some (r, n)) ->
     nodeIsDeleted n = false ->
     snd (delete normalize now p bm) = Ok tt /\
     exists n',
       nodeAt r (fst (delete normalize now p bm)) = Some n' /\
       metadata n' =
         (if timestampsEnabled (header bm)
          then setProp "deletedAt" (VStr now) (metadata n)
          else metadata n) /\
       (nodeIsDirectory n = true ->
        items n' = Some [] /\ hashLinks n' = hashLinks n) /\
       (nodeIsDirectory n = false ->
        hashLinks n' = Some [] /\ items n' = None)).
Proof.
  unfold delete. repeat split.
  - now intros ->.
  - intros r n -> ->. reflexivity.
  - rewrite H, H0. reflexivity.
  - rename H into Hg, H0 into Hlive. rewrite Hg, Hlive. simpl.
    exists (deleteNode (header bm) now n). repeat split.
    + apply nodeAt_mutateAt. eapply getDeepestNode_sound; eauto.
    + apply deleteNode_metadata.
    + now apply deleteNode_directory.
    + now apply deleteNode_directory.
    + now apply deleteNode_file.
    + now apply deleteNode_file.
Qed.

Lemma delete_spec_witness :
  delete pskNormalize "t2" "missing" mapWithFile = (mapWithFile, Ok tt) /\
  delete pskNormalize "t3" "a/b/file.txt"
    (fst (delete pskNormalize "t2" "a/b/file.txt" mapWithFile)) =
    (fst (delete pskNormalize "t2" "a/b/file.txt" mapWithFile), Ok tt) /\
  exists n',
    nodeAt ["a"; "b"; "file.txt"]
      (fst (delete pskNormalize "t2" "a/b/file.txt" mapWithFile)) = Some n' /\
    hashLinks n' = Some [].
Proof.
  split; [|split].
  - exact (proj1 (delete_spec pskNormalize "t2" "missing" mapWithFile) eq_refl).
  - exact (proj1 (proj2 (delete_spec pskNormalize "t3" "a/b/file.txt"
                           (fst (delete pskNormalize "t2" "a/b/file.txt" mapWithFile))))
             ["a"; "b"; "file.txt"]
             (Node [("createdAt", VStr "t1"); ("updatedAt", VStr "t1");
                    ("deletedAt", VStr "t2")] None (Some []))
             eq_refl eq_refl).
  - destruct (proj2 (proj2 (delete_spec pskNormalize "t2" "a/b/file.txt" mapWithFile))
                ["a"; "b"; "file.txt"]
                (Node [("createdAt", VStr "t1"); ("updatedAt", VStr "t1")] None
                      (Some [mkBrickRef "c1" "h1" None None]))
                eq_refl eq_refl) as [_ [n' [Hat [_ [_ Hfile]]]]].
    exists n'. split; [exact Hat | exact (proj1 (Hfile eq_refl))].
Defined.

(** C3 as stated fails in a map created with [preventTimestamp]: the
    file exists and is not tombstoned, [delete] empties it and leaves
    [deletedAt] unset. *)
Lemma delete_marks_counterexample :
  nodeAt ["a"; "b"; "file.txt"] untimedMapWithFile =
    Some (Node [] None (Some [mkBrickRef "c1" "h1" None None])) /\
  nodeAt ["a"; "b"; "file.txt"]
    (fst (delete pskNormalize "t2" "a/b/file.txt" untimedMapWithFile)) =
    Some (Node [] None (Some [])).
Proof. split; reflexivity. Qed.

(** ** Emptiness *)

(** The parts of C7 the code agrees with: a missing node counts as
    empty, and a file is empty exactly when it has no brick. *)
Lemma isEmpty_missing normalize path bm :
  getDeepestNode normalize path bm = Ok None ->
  isEmpty normalize path bm = Ok true.
Proof. unfold isEmpty. now intros ->. Qed.

Lemma isEmpty_file normalize path bm r n hl :
  getDeepestNode normalize path bm = Ok (Some (r, n)) ->
  nodeIsDirectory n = false ->
  hashLinks n = Some hl ->
  isEmpty normalize path bm = Ok (match hl with [] => true | _ => false end).
Proof.
  unfold isEmpty, nodeIsDirectory. intros -> Hd Hl.
  destruct (items n); try discriminate. rewrite Hl. now destruct hl.
Qed.

(** On a directory [isEmpty] answers [false] whatever the items are:
    [!Object.keys(node.items)] negates an array, not its length. *)
Lemma isEmpty_directory normalize path bm r n :
  getDeepestNode normalize path bm = Ok (Some (r, n)) ->
  nodeIsDirectory n = true ->
  isEmpty normalize path bm = Ok false.
Proof.
  unfold isEmpty, nodeIsDirectory. intros -> Hd.
  destruct (items n); [reflexivity | discriminate].
Qed.

(** C7: what the code does at the failing input.  A folder that was
    just created has no items, and [isEmpty] returns [false] for it. *)
Theorem isEmpty_empty_directory :
  let bm := fst (createFolder pskNormalize "t1" "d" freshMap) in
  nodeAt ["d"] bm = Some (Node [("createdAt", VStr "t1")] (Some []) None) /\
  isEmpty pskNormalize "d" bm = Ok false.
Proof. split; reflexivity. Qed.

(** ** Key identities *)

(** C9, as the code has it.  Without a brick reference the identifier of
    the template key is returned; with one, its [key] property is
    returned as it is, be it present or not. *)
Theorem getBrickEncryptionKeySSI_spec :
  (forall identifier bm,
     getBrickEncryptionKeySSI None (setKeySSI identifier bm) =
     Ok (Some (VStr identifier))) /\
  (forall b bm, getBrickEncryptionKeySSI (Some b) bm = Ok (key b)).
Proof. split; reflexivity. Qed.

(** C9 as stated fails: for a brick reference without a key the result
    is [undefined], not the template key identity. *)
Lemma getBrickEncryptionKeySSI_counterexample :
  let bm := setKeySSI "template" freshMap in
  let b := mkBrickRef "c1" "h1" None None in
  key b = None /\
  getBrickEncryptionKeySSI None bm = Ok (Some (VStr "template")) /\
  getBrickEncryptionKeySSI (Some b) bm = Ok None.
Proof. repeat split; reflexivity. Qed.

(** ** Creating folders *)




(** ** Induction on nodes and values *)

Lemma node_ind' (Q : node -> Prop) :
  (forall m l hl, Forall (fun kv => Q (snd kv)) l -> Q (Node m (Some l) hl)) ->
  (forall m hl, Q (Node m None hl)) ->
  forall n, Q n.
Proof.
  intros Hdir Hfile. fix IH 1. intros [m [l|] hl].
  - apply Hdir. induction l as [|[k c] l IHl]; constructor.
    + simpl. apply IH.
    + exact IHl.
  - apply Hfile.
Qed.

(** ** Facts about the helpers *)

Lemma split_nonempty sep s : split sep s <> [].
Proof.
  destruct s as [|c s]; simpl; [discriminate|].
  destruct (Ascii.eqb c sep); [discriminate|].
  destruct (split sep s); discriminate.
Qed.

Lemma nodeIsDeleted_clear n : nodeIsDeleted (clearDeletedAt n) = false.
Proof.
  unfold nodeIsDeleted, clearDeletedAt. simpl.
  now rewrite getProp_deleteProp_same.
Qed.

Lemma nodeIsDeleted_clearIfTruthy n :
  nodeIsDeleted n = false -> clearDeletedAtIfTruthy n = n.
Proof.
  unfold nodeIsDeleted, clearDeletedAtIfTruthy.
  destruct (getProp "deletedAt" (metadata n)); [discriminate | reflexivity].
Qed.

Lemma nodeIsDeleted_setItems its n :
  nodeIsDeleted (setItemsProp its n) = nodeIsDeleted n.
Proof. reflexivity. Qed.

Lemma nodeIsDeleted_setHashLinks hl n :
  nodeIsDeleted (setHashLinksProp hl n) = nodeIsDeleted n.
Proof. reflexivity. Qed.

Lemma nodeIsDeleted_stamp hdr now prop n :
  prop <> "deletedAt" ->
  nodeIsDeleted (updateTimeMetadata hdr now prop n) = nodeIsDeleted n.
Proof.
  intros Hp. unfold updateTimeMetadata, nodeIsDeleted.
  destruct (timestampsEnabled hdr); simpl; auto.
  now rewrite getProp_setProp_other.
Qed.

Lemma clearDeletedAt_setItems its n :
  clearDeletedAt (setItemsProp its n) = setItemsProp its (clearDeletedAt n).
Proof. reflexivity. Qed.

Lemma items_stamp hdr now prop n :
  items (updateTimeMetadata hdr now prop n) = items n.
Proof. unfold updateTimeMetadata. now destruct (timestampsEnabled hdr). Qed.

Lemma hashLinks_stamp hdr now prop n :
  hashLinks (updateTimeMetadata hdr now prop n) = hashLinks n.
Proof. unfold updateTimeMetadata. now destruct (timestampsEnabled hdr). Qed.

Lemma createdAt_is_not_deletedAt : "createdAt" <> "deletedAt".
Proof. discriminate. Qed.

Lemma updatedAt_is_not_deletedAt : "updatedAt" <> "deletedAt".
Proof. discriminate. Qed.

(** *** The node returned by [createNodesFromPath] is not tombstoned *)

Lemma createTrailingNode_live hdr now ty name n :
  liveAt name n -> refIsLive (createTrailingNode hdr now ty name n).
Proof.
  intros Hlive r. unfold createTrailingNode.
  destruct (items n) as [its|] eqn:Ei; simpl; [|discriminate].
  destruct (getProp name its) as [c|] eqn:Ec; simpl; intros Hr; inversion Hr; subst.
  - exists c. split.
    + simpl. now rewrite Ei, Ec.
    + eapply Hlive; eauto.
  - destruct ty; unfold createFileNode, createDirectoryNode; rewrite Ei; simpl;
      rewrite getProp_setProp_same; eexists; (split; [reflexivity|]);
      now rewrite nodeIsDeleted_stamp by discriminate.
Qed.

Lemma loopIteration_live hdr now ty name isLast continue n :
  (isLast = false -> forall c, refIsLive (continue c)) ->
  refIsLive (loopIteration hdr now ty name isLast continue n).
Proof.
  intros Hcont. unfold loopIteration.
  destruct (items n) as [its|] eqn:Ei; [|intros r; discriminate].
  set (its1 := match getProp name its with
               | Some c => setProp name (clearDeletedAt c) its
               | None => its
               end).
  assert (Hlive1 : forall c, getProp name its1 = Some c -> nodeIsDeleted c = false).
  { intros c. unfold its1. destruct (getProp name its) as [c0|] eqn:Ec.
    - rewrite getProp_setProp_same. intros H. inversion H. apply nodeIsDeleted_clear.
    - congruence. }
  destruct isLast.
  - apply createTrailingNode_live. intros its' c Hi Hc. simpl in Hi.
    inversion Hi. subst its'. now apply Hlive1.
  - set (parent1 := clearDeletedAt (setItemsProp its1 n)).
    set (parent2 := match getProp name its1 with
                    | Some _ => parent1
                    | None => createDirectoryNode hdr now parent1 name
                    end).
    destruct (items parent2) as [its2|] eqn:Ei2; [|intros r; discriminate].
    destruct (getProp name its2) as [c|] eqn:Ec2; [|intros r; discriminate].
    specialize (Hcont eq_refl c). destruct (continue c) as [c' res]. simpl in *.
    intros r Hr. destruct res as [r'|e]; [|discriminate].
    inversion Hr. subst r.
    destruct (Hcont r' eq_refl) as [d [Hd1 Hd2]].
    exists d. split; [|exact Hd2].
    simpl. now rewrite getProp_setProp_same.
Qed.

(** The loop consumes one or two segments per turn; the facts about it
    go by induction on the number of segments left. *)
Lemma createNodesLoop_ind (Q : list string -> (node -> node * outcome ref) -> Prop)
    hdr now ty :
  (forall name isLast continue,
     (isLast = false ->
      exists rest : list string,
        (rest <> []) /\
        (continue = createNodesLoop hdr now ty rest) /\
        Q rest continue) ->
     forall segs, Q segs (loopIteration hdr now ty name isLast continue)) ->
  forall segs, segs <> [] -> Q segs (createNodesLoop hdr now ty segs).
Proof.
  intros step segs.
  remember (List.length segs) as len eqn:Hlen. revert segs Hlen.
  induction len as [len IH] using lt_wf_ind.
  intros [|s rest] Hlen Hne; [congruence|]. simpl.
  assert (Hrec : forall rest', List.length rest' < len ->
            isEmptyList rest' = false ->
            exists rest0 : list string,
              (rest0 <> []) /\
              (createNodesLoop hdr now ty rest' = createNodesLoop hdr now ty rest0) /\
              Q rest0 (createNodesLoop hdr now ty rest')).
  { intros rest' Hlt Hemp. exists rest'.
    assert (rest' <> []) by (destruct rest'; [discriminate | discriminate]).
    split; [assumption|]. split; [reflexivity|].
    eapply IH; eauto. }
  destruct (String.eqb s EmptyString).
  - destruct rest as [|s' rest'].
    + apply step. discriminate.
    + apply step. apply Hrec. subst len. simpl. lia.
  - apply step. apply Hrec. subst len. simpl. lia.
Qed.

Lemma createNodesLoop_live hdr now ty segs :
  segs <> [] -> forall n, refIsLive (createNodesLoop hdr now ty segs n).
Proof.
  apply (createNodesLoop_ind (fun _ f => forall n, refIsLive (f n))).
  intros name isLast continue Hc _ n.
  apply loopIteration_live. intros E c.
  destruct (Hc E) as [rest [_ [_ H]]]. apply H.
Qed.

Lemma createNodesFromPath_live now ty path bm r :
  snd (createNodesFromPath now ty path bm) = Ok r ->
  exists c, nodeAt r (fst (createNodesFromPath now ty path bm)) = Some c /\
            nodeIsDeleted c = false.
Proof.
  unfold createNodesFromPath, nodeAt.
  pose proof (createNodesLoop_live (header bm) now ty (split slash path)
                (split_nonempty _ _) (header bm)) as H.
  destruct (createNodesLoop _ _ _ _ _) as [h res]. simpl. intros Hr.
  apply (H r Hr).
Qed.

(** ** Preservation of a node-wise invariant

    [P] is a property of single nodes, [G] what it asks of the header an
    operation reads [createdAt] from.  Under the closure conditions below
    every operation that takes its metadata from the clock keeps [allNodes
    P] on the header.  The two instances are [tombstoneIsEmpty] (C4) and
    [metadataIsEmpty] (C10). *)

Section Preservation.

Variable P : node -> bool.
Variable G : node -> Prop.

Hypothesis P_clear : forall n, P n = true -> P (clearDeletedAt n) = true.
Hypothesis P_items :
  forall n its, nodeIsDeleted n = false -> P n = true -> P (setItemsProp its n) = true.
Hypothesis P_links :
  forall n hl, nodeIsDeleted n = false -> P n = true -> P (setHashLinksProp hl n) = true.
Hypothesis P_child :
  forall n its k c its',
    items n = Some its -> getProp k its = Some c -> P n = true ->
    P (setItemsProp its' n) = true.
Hypothesis P_stamp :
  forall hdr now prop n,
    G hdr -> prop <> "deletedAt" -> P n = true ->
    P (updateTimeMetadata hdr now prop n) = true.
Hypothesis P_file : P (Node [] None (Some [])) = true.
Hypothesis P_dir : P (Node [] (Some []) None) = true.
Hypothesis P_delete :
  forall hdr now n,
    G hdr -> nodeIsDeleted n = false -> P n = true -> P (deleteNode hdr now n) = true.
Hypothesis P_clone : forall n, P n = true -> P (cloneNode n) = true.

Lemma allNodes_unfold n :
  allNodes P n =
  P n && match items n with Some l => allItems P l | None => true end.
Proof.
  destruct n as [m [l|] hl]; simpl; [|reflexivity].
  f_equal. induction l as [|[k c] l IH]; simpl; [reflexivity|].
  now rewrite IH.
Qed.

Lemma allNodes_intro n :
  P n = true ->
  (forall l, items n = Some l -> allItems P l = true) ->
  allNodes P n = true.
Proof.
  intros HP Hi. rewrite allNodes_unfold, HP. simpl.
  destruct (items n); auto.
Qed.

Lemma allNodes_P n : allNodes P n = true -> P n = true.
Proof. rewrite allNodes_unfold. intros H. now apply andb_prop in H. Qed.

Lemma allNodes_items n l :
  allNodes P n = true -> items n = Some l -> allItems P l = true.
Proof.
  rewrite allNodes_unfold. intros H Hi. rewrite Hi in H.
  now apply andb_prop in H.
Qed.

Lemma allItems_getProp l k c :
  allItems P l = true -> getProp k l = Some c -> allNodes P c = true.
Proof.
  induction l as [|[k' c'] l IH]; simpl; [discriminate|].
  intros H. apply andb_prop in H. destruct H as [H1 H2].
  destruct (String.eqb k k'); [|now apply IH].
  intros E. inversion E. now subst.
Qed.

Lemma allItems_setProp l k c :
  allItems P l = true -> allNodes P c = true -> allItems P (setProp k c l) = true.
Proof.
  intros Hl Hc. induction l as [|[k' c'] l IH]; simpl.
  - now rewrite Hc.
  - simpl in Hl. apply andb_prop in Hl. destruct Hl as [H1 H2].
    destruct (String.eqb k k'); simpl.
    + now rewrite Hc, H2.
    + now rewrite H1, IH.
Qed.

Lemma allNodes_lookupRef r n c :
  allNodes P n = true -> lookupRef r n = Some c -> allNodes P c = true.
Proof.
  revert n. induction r as [|k r IH]; intros n Hn; simpl.
  - intros H. inversion H. now subst.
  - destruct (items n) as [its|] eqn:Ei; [|discriminate].
    destruct (getProp k its) as [c0|] eqn:Ec; [|discriminate].
    apply IH. eapply allItems_getProp; eauto. eapply allNodes_items; eauto.
Qed.

(** Mutating the node at a reference keeps the invariant when the
    mutated node satisfies it. *)
Lemma allNodes_updateRef r f n :
  allNodes P n = true ->
  (forall c, lookupRef r n = Some c -> allNodes P (f c) = true) ->
  allNodes P (updateRef r f n) = true.
Proof.
  revert n. induction r as [|k r IH]; intros n Hn Hf; simpl.
  - now apply Hf.
  - destruct (items n) as [its|] eqn:Ei; [|exact Hn].
    destruct (getProp k its) as [c0|] eqn:Ec; [|exact Hn].
    pose proof (allNodes_items _ _ Hn Ei) as Hits.
    apply allNodes_intro.
    + eapply P_child; eauto. now apply allNodes_P.
    + simpl. intros l E. inversion E. subst l.
      apply allItems_setProp; [exact Hits|].
      apply IH.
      * eapply allItems_getProp; eauto.
      * intros c Hc. apply Hf. simpl. now rewrite Ei, Ec.
Qed.

Lemma allNodes_clear n :
  allNodes P n = true -> allNodes P (clearDeletedAt n) = true.
Proof.
  intros H. apply allNodes_intro.
  - apply P_clear. now apply allNodes_P.
  - simpl. intros l Hl. eapply allNodes_items; eauto.
Qed.

Lemma allNodes_clearIfTruthy n :
  allNodes P n = true -> allNodes P (clearDeletedAtIfTruthy n) = true.
Proof.
  intros H. unfold clearDeletedAtIfTruthy.
  destruct (getProp "deletedAt" (metadata n)) as [v|]; [|exact H].
  destruct (truthy v); [now apply allNodes_clear | exact H].
Qed.

Lemma allNodes_stamp hdr now prop n :
  G hdr -> prop <> "deletedAt" ->
  allNodes P n = true -> allNodes P (updateTimeMetadata hdr now prop n) = true.
Proof.
  intros HG Hp H. apply allNodes_intro.
  - apply P_stamp; auto. now apply allNodes_P.
  - rewrite items_stamp. intros l Hl. eapply allNodes_items; eauto.
Qed.

Lemma allNodes_setItems its n :
  nodeIsDeleted n = false -> allNodes P n = true -> allItems P its = true ->
  allNodes P (setItemsProp its n) = true.
Proof.
  intros Hd H Hits. apply allNodes_intro.
  - apply P_items; auto. now apply allNodes_P.
  - simpl. intros l E. inversion E. now subst.
Qed.

Lemma allNodes_setHashLinks hl n :
  nodeIsDeleted n = false -> allNodes P n = true ->
  allNodes P (setHashLinksProp hl n) = true.
Proof.
  intros Hd H. apply allNodes_intro.
  - apply P_links; auto. now apply allNodes_P.
  - simpl. intros l E. eapply allNodes_items; eauto.
Qed.

Lemma allNodes_freshFile hdr now :
  G hdr ->
  allNodes P (updateTimeMetadata hdr now "createdAt" (Node [] None (Some []))) = true.
Proof.
  intros HG. apply allNodes_stamp; auto using createdAt_is_not_deletedAt.
  simpl. now rewrite P_file.
Qed.

Lemma allNodes_freshDirectory hdr now :
  G hdr ->
  allNodes P (updateTimeMetadata hdr now "createdAt" (Node [] (Some []) None)) = true.
Proof.
  intros HG. apply allNodes_stamp; auto using createdAt_is_not_deletedAt.
  simpl. now rewrite P_dir.
Qed.

Lemma allNodes_createFileNode hdr now n name :
  G hdr -> nodeIsDeleted n = false -> allNodes P n = true ->
  allNodes P (createFileNode hdr now n name) = true.
Proof.
  intros HG Hd H. unfold createFileNode.
  destruct (items n) as [its|] eqn:Ei; [|exact H].
  apply allNodes_setItems; auto.
  apply allItems_setProp; [eapply allNodes_items; eauto|].
  now apply allNodes_freshFile.
Qed.

Lemma allNodes_createDirectoryNode hdr now n name :
  G hdr -> nodeIsDeleted n = false -> allNodes P n = true ->
  allNodes P (createDirectoryNode hdr now n name) = true.
Proof.
  intros HG Hd H. unfold createDirectoryNode.
  destruct (items n) as [its|] eqn:Ei; [|exact H].
  apply allNodes_setItems; auto.
  apply allItems_setProp; [eapply allNodes_items; eauto|].
  now apply allNodes_freshDirectory.
Qed.

Lemma allNodes_createTrailingNode hdr now ty name n :
  G hdr -> nodeIsDeleted n = false -> allNodes P n = true ->
  allNodes P (fst (createTrailingNode hdr now ty name n)) = true.
Proof.
  intros HG Hd H. unfold createTrailingNode.
  destruct (items n) as [its|]; [|exact H].
  destruct (getProp name its); [exact H|]. simpl.
  destruct ty; [now apply allNodes_createFileNode
               | now apply allNodes_createDirectoryNode].
Qed.

Lemma allNodes_loopIteration hdr now ty name isLast continue n :
  G hdr ->
  (isLast = false ->
   forall c, allNodes P c = true -> allNodes P (fst (continue c)) = true) ->
  allNodes P n = true ->
  allNodes P (fst (loopIteration hdr now ty name isLast continue n)) = true.
Proof.
  intros HG Hcont H. unfold loopIteration.
  destruct (items n) as [its|] eqn:Ei; [|exact H].
  pose proof (allNodes_items _ _ H Ei) as Hits.
  set (its1 := match getProp name its with
               | Some c => setProp name (clearDeletedAt c) its
               | None => its
               end).
  assert (Hits1 : allItems P its1 = true).
  { unfold its1. destruct (getProp name its) as [c|] eqn:Ec; [|exact Hits].
    apply allItems_setProp; [exact Hits|].
    apply allNodes_clear. eapply allItems_getProp; eauto. }
  set (parent1 := clearDeletedAt (setItemsProp its1 n)).
  assert (Hlive1 : nodeIsDeleted parent1 = false) by apply nodeIsDeleted_clear.
  assert (H1 : allNodes P parent1 = true).
  { unfold parent1. rewrite clearDeletedAt_setItems.
    apply allNodes_setItems; auto using nodeIsDeleted_clear, allNodes_clear. }
  destruct isLast; [now apply allNodes_createTrailingNode|].
  set (parent2 := match getProp name its1 with
                  | Some _ => parent1
                  | None => createDirectoryNode hdr now parent1 name
                  end).
  assert (Hlive2 : nodeIsDeleted parent2 = false).
  { unfold parent2. destruct (getProp name its1); [exact Hlive1|].
    unfold createDirectoryNode. now destruct (items parent1). }
  assert (H2 : allNodes P parent2 = true).
  { unfold parent2. destruct (getProp name its1); [exact H1|].
    now apply allNodes_createDirectoryNode. }
  destruct (items parent2) as [its2|] eqn:Ei2; [|exact H2].
  destruct (getProp name its2) as [c|] eqn:Ec2; [|exact H2].
  pose proof (allNodes_items _ _ H2 Ei2) as Hits2.
  specialize (Hcont eq_refl c (allItems_getProp _ _ _ Hits2 Ec2)).
  destruct (continue c) as [c' res]. simpl in *.
  apply allNodes_setItems; auto.
  now apply allItems_setProp.
Qed.

Lemma allNodes_createNodesLoop hdr now ty segs :
  G hdr -> segs <> [] ->
  forall n, allNodes P n = true ->
            allNodes P (fst (createNodesLoop hdr now ty segs n)) = true.
Proof.
  intros HG.
  apply (createNodesLoop_ind
           (fun _ f => forall n, allNodes P n = true -> allNodes P (fst (f n)) = true)).
  intros name isLast continue Hc _ n Hn.
  apply allNodes_loopIteration; auto.
  intros E. destruct (Hc E) as [rest [_ [_ H]]]. exact H.
Qed.

Lemma allNodes_createNodesFromPath now ty path bm :
  G (header bm) -> allNodes P (header bm) = true ->
  allNodes P (header (fst (createNodesFromPath now ty path bm))) = true.
Proof.
  intros HG H. unfold createNodesFromPath.
  pose proof (allNodes_createNodesLoop (header bm) now ty (split slash path) HG
                (split_nonempty _ _) (header bm) H) as H'.
  destruct (createNodesLoop _ _ _ _ _) as [h res]. exact H'.
Qed.

Lemma allNodes_mutateAt r f bm :
  allNodes P (header bm) = true ->
  (forall c, nodeAt r bm = Some c -> allNodes P (f c) = true) ->
  allNodes P (header (mutateAt r f bm)) = true.
Proof. intros H Hf. simpl. now apply allNodes_updateRef. Qed.

Lemma allNodes_cloneNode n :
  allNodes P n = true -> allNodes P (cloneNode n) = true.
Proof.
  induction n as [m l hl IH | m hl] using node_ind'; intros H.
  - apply allNodes_intro; [apply P_clone; now apply allNodes_P|].
    simpl. intros l' E. inversion E. subst l'. clear E.
    pose proof (allNodes_items _ _ H eq_refl) as Hl. clear H.
    induction l as [|[k c] l IHl]; simpl in *; [reflexivity|].
    apply andb_prop in Hl. destruct Hl as [Hc Hl].
    inversion IH as [|? ? IHc IHr]; subst. simpl in IHc.
    rewrite (IHc Hc). simpl. now apply IHl.
  - apply allNodes_intro; [apply P_clone; now apply allNodes_P|].
    simpl. discriminate.
Qed.

Lemma allItems_clone l :
  allItems P l = true -> allItems P (mapValues cloneNode l) = true.
Proof.
  induction l as [|[k c] l IH]; simpl; [reflexivity|].
  intros H. apply andb_prop in H. destruct H as [Hc Hl].
  now rewrite (allNodes_cloneNode _ Hc), IH.
Qed.

(** *** The operations *)

Lemma allNodes_appendBrick hdr now brick n :
  G hdr -> nodeIsDeleted n = false -> allNodes P n = true ->
  allNodes P (fst (appendBrick hdr now brick n)) = true.
Proof.
  intros HG Hd H. unfold appendBrick.
  pose proof (allNodes_stamp hdr now "updatedAt" n HG updatedAt_is_not_deletedAt H) as H1.
  destruct (hashLinks (updateTimeMetadata hdr now "updatedAt" n)); simpl; [|exact H1].
  apply allNodes_setHashLinks; [|exact H1].
  now rewrite nodeIsDeleted_stamp by discriminate.
Qed.

Lemma allNodes_deleteNode hdr now n :
  G hdr -> nodeIsDeleted n = false -> allNodes P n = true ->
  allNodes P (deleteNode hdr now n) = true.
Proof.
  intros HG Hd H. apply allNodes_intro.
  - apply P_delete; auto. now apply allNodes_P.
  - intros l Hl. destruct (nodeIsDirectory n) eqn:E.
    + destruct (deleteNode_directory hdr now n E) as [Hi _].
      rewrite Hi in Hl. inversion Hl. reflexivity.
    + destruct (deleteNode_file hdr now n E) as [_ Hi].
      rewrite Hi in Hl. discriminate.
Qed.

Lemma allNodes_truncateNode hdr now n :
  G hdr -> allNodes P n = true -> allNodes P (truncateNode hdr now n) = true.
Proof.
  intros HG H. unfold truncateNode.
  set (n2 := updateTimeMetadata hdr now "updatedAt" (clearDeletedAt n)).
  assert (Hd2 : nodeIsDeleted n2 = false).
  { unfold n2. rewrite nodeIsDeleted_stamp by discriminate.
    apply nodeIsDeleted_clear. }
  assert (H2 : allNodes P n2 = true).
  { apply allNodes_stamp; auto using updatedAt_is_not_deletedAt, allNodes_clear. }
  apply allNodes_setHashLinks.
  - now destruct (nodeIsDirectory n2).
  - destruct (nodeIsDirectory n2); [|exact H2].
    now apply allNodes_setItems.
Qed.

Variable normalize : string -> string.

Lemma allNodes_getNodeFromPath now path bm :
  G (header bm) -> allNodes P (header bm) = true ->
  allNodes P (header (fst (getNodeFromPath normalize now path bm))) = true /\
  forall r, snd (getNodeFromPath normalize now path bm) = Ok r ->
            exists c, nodeAt r (fst (getNodeFromPath normalize now path bm)) = Some c /\
                      nodeIsDeleted c = false.
Proof.
  intros HG H. unfold getNodeFromPath.
  destruct (String.eqb (normalize path) EmptyString);
    [split; [exact H | intros r; discriminate]|].
  pose proof (allNodes_createNodesFromPath now Child (normalize path) bm HG H) as H1.
  pose proof (createNodesFromPath_live now Child (normalize path) bm) as Hlive.
  destruct (createNodesFromPath now Child (normalize path) bm) as [bm1 [r|e]];
    simpl in *; [|split; [exact H1 | intros r; discriminate]].
  destruct (Hlive r eq_refl) as [c [Hc Hd]].
  split.
  - apply allNodes_updateRef; [exact H1|].
    intros c' Hc'. apply allNodes_clearIfTruthy. eapply allNodes_lookupRef; eauto.
  - intros r' E. inversion E. subst r'. exists c. split; [|exact Hd].
    fold (mutateAt r clearDeletedAtIfTruthy bm1).
    rewrite (nodeAt_mutateAt _ _ _ _ Hc). now rewrite nodeIsDeleted_clearIfTruthy.
Qed.

Lemma allNodes_add now path brick bm :
  G (header bm) -> allNodes P (header bm) = true ->
  allNodes P (header (fst (add normalize now path brick bm))) = true.
Proof.
  intros HG H. unfold add.
  destruct (String.eqb (normalize path) EmptyString); [exact H|].
  pose proof (allNodes_createNodesFromPath now Child (normalize path) bm HG H) as H1.
  pose proof (createNodesFromPath_live now Child (normalize path) bm) as Hlive.
  destruct (createNodesFromPath now Child (normalize path) bm) as [bm1 [r|e]];
    simpl in *; [|exact H1].
  destruct (Hlive r eq_refl) as [c [Hc Hd]].
  set (bm2 := mutateAt r clearDeletedAtIfTruthy bm1).
  assert (H2 : allNodes P (header bm2) = true).
  { apply allNodes_mutateAt; [exact H1|].
    intros c' Hc'. apply allNodes_clearIfTruthy. eapply allNodes_lookupRef; eauto. }
  assert (Hn : nodeAt r bm2 = Some c).
  { unfold bm2. rewrite (nodeAt_mutateAt _ _ _ _ Hc).
    now rewrite nodeIsDeleted_clearIfTruthy. }
  rewrite Hn.
  pose proof (allNodes_appendBrick (header bm) now (brickObj brick) c HG Hd
                (allNodes_lookupRef _ _ _ H2 Hn)) as Ha.
  destruct (appendBrick (header bm) now (brickObj brick) c) as [n' res]. simpl in *.
  apply allNodes_updateRef; [exact H2|]. intros; exact Ha.
Qed.

Lemma allNodes_delete now path bm :
  G (header bm) -> allNodes P (header bm) = true ->
  allNodes P (header (fst (delete normalize now path bm))) = true.
Proof.
  intros HG H. unfold delete.
  destruct (getDeepestNode normalize (normalize path) bm) as [[[r c]|]|e] eqn:Eg;
    try exact H.
  destruct (nodeIsDeleted c) eqn:Ed; [exact H|]. simpl.
  apply allNodes_updateRef; [exact H|].
  intros c' Hc'. pose proof (getDeepestNode_sound _ _ _ _ _ Eg) as Hs.
  pose proof (eq_trans (eq_sym Hc') Hs) as E. inversion E. subst c'.
  apply allNodes_deleteNode; auto. eapply allNodes_lookupRef; eauto.
Qed.

Lemma allNodes_emptyList now path bm :
  G (header bm) -> allNodes P (header bm) = true ->
  allNodes P (header (fst (emptyList normalize now path bm))) = true.
Proof.
  intros HG H. unfold emptyList.
  destruct (getDeepestNode normalize path bm) as [[[r c]|]|e] eqn:Eg; try exact H.
  simpl. apply allNodes_updateRef; [exact H|].
  intros c' Hc'. apply allNodes_truncateNode; auto.
  eapply allNodes_lookupRef; eauto.
Qed.

Lemma allNodes_createNode now path ty bm :
  G (header bm) -> allNodes P (header bm) = true ->
  allNodes P (header (fst (createNode normalize now path ty bm))) = true.
Proof.
  intros HG H. unfold createNode.
  destruct (String.eqb (normalize path) "/"); [exact H|].
  destruct (getDeepestNode normalize (dirname (normalize path)) bm) as [o|e];
    [|exact H].
  destruct (String.eqb (basename (normalize path)) EmptyString); [exact H|].
  pose proof (allNodes_createNodesFromPath now ty (normalize path) bm HG H) as H1.
  assert (Hc : allNodes P (header (fst
            match createNodesFromPath now ty (normalize path) bm with
            | (bm1, Throw e) => (bm1, Throw e)
            | (bm1, Ok _) => (bm1, Ok tt)
            end)) = true).
  { destruct (createNodesFromPath now ty (normalize path) bm) as [bm1 [r|e]];
      exact H1. }
  destruct o as [[r parentNode]|]; [|exact Hc].
  destruct (String.eqb (dirname (normalize path)) EmptyString); [exact Hc|].
  destruct (items parentNode) as [its|]; [|exact H].
  destruct (getProp (basename (normalize path)) its); destruct ty;
    first [exact Hc | exact H].
Qed.

Lemma allNodes_replaceBrickWith repl now path bm :
  G (header bm) -> allNodes P (header bm) = true ->
  allNodes P (header (fst (replaceBrickWith normalize repl now path bm))) = true.
Proof.
  intros HG H. unfold replaceBrickWith.
  destruct (allNodes_getNodeFromPath now path bm HG H) as [H1 Hlive].
  destruct (getNodeFromPath normalize now path bm) as [bm1 [r|e]]; simpl in *;
    [|exact H1].
  destruct (Hlive r eq_refl) as [c [Hc Hd]].
  set (bm2 := mutateAt r (updateTimeMetadata (header bm) now "updatedAt") bm1).
  assert (H2 : allNodes P (header bm2) = true).
  { apply allNodes_mutateAt; [exact H1|].
    intros c' Hc'. apply allNodes_stamp; auto using updatedAt_is_not_deletedAt.
    eapply allNodes_lookupRef; eauto. }
  assert (Hn : nodeAt r bm2 =
               Some (updateTimeMetadata (header bm) now "updatedAt" c)).
  { unfold bm2. now rewrite (nodeAt_mutateAt _ _ _ _ Hc). }
  rewrite Hn.
  destruct (hashLinks (updateTimeMetadata (header bm) now "updatedAt" c));
    simpl; [|exact H2].
  apply allNodes_updateRef; [exact H2|].
  intros c' Hc'. pose proof (eq_trans (eq_sym Hc') Hn) as E.
  inversion E. subst c'.
  apply allNodes_setHashLinks.
  - now rewrite nodeIsDeleted_stamp by discriminate.
  - eapply allNodes_lookupRef; eauto.
Qed.

Lemma allNodes_copy now srcPath dstPath bm :
  G (header bm) -> allNodes P (header bm) = true ->
  allNodes P (header (fst (copy normalize now srcPath dstPath bm))) = true.
Proof.
  intros HG H. unfold copy.
  destruct (getDeepestNode normalize srcPath bm) as [[[rs srcNode]|]|e];
    try exact H.
  set (ty := if nodeIsDirectory srcNode then Parent else Child).
  pose proof (allNodes_createNodesFromPath now ty dstPath bm HG H) as H1.
  pose proof (createNodesFromPath_live now ty dstPath bm) as Hlive.
  destruct (createNodesFromPath now ty dstPath bm) as [bm1 [rd|e]];
    simpl in *; [|exact H1].
  destruct (Hlive rd eq_refl) as [d [Hd Hdl]].
  destruct (nodeAt rs bm1) as [srcNode1|] eqn:Es; [|exact H1].
  pose proof (allNodes_lookupRef _ _ _ H1 Es) as Hsrc.
  destruct (items srcNode1) as [its|] eqn:Ei.
  - simpl. apply allNodes_updateRef; [exact H1|].
    intros c Hc. pose proof (eq_trans (eq_sym Hc) Hd) as E.
    inversion E. subst c.
    apply allNodes_setItems; [exact Hdl| |].
    + exact (allNodes_lookupRef _ _ _ H1 Hd).
    + apply allItems_clone. eapply allNodes_items; eauto.
  - destruct (hashLinks srcNode1) as [hl|]; [|exact H1].
    simpl. apply allNodes_updateRef; [exact H1|].
    intros c Hc. pose proof (eq_trans (eq_sym Hc) Hd) as E.
    inversion E. subst c.
    apply allNodes_setHashLinks; [exact Hdl|].
    exact (allNodes_lookupRef _ _ _ H1 Hd).
Qed.

(** Every call that takes its metadata from the clock keeps the
    invariant. *)
Lemma allNodes_perform now o bm :
  writesNoCallerMetadata o = true ->
  G (header bm) -> allNodes P (header bm) = true ->
  allNodes P (header (perform normalize now o bm)) = true.
Proof.
  intros Ho HG H. destruct o; simpl in *; try discriminate.
  - now apply allNodes_add.
  - now apply allNodes_delete.
  - now apply allNodes_emptyList.
  - now apply allNodes_copy.
  - now apply allNodes_createNode.
  - now apply allNodes_createNode.
  - now apply allNodes_replaceBrickWith.
  - now apply allNodes_replaceBrickWith.
Qed.

End Preservation.

(** ** Tombstones have no content (C4) *)

Lemma getProp_mapValues {A B : Type} (f : A -> B) k (o : list (string * A)) :
  getProp k (mapValues f o) = option_map f (getProp k o).
Proof.
  induction o as [|[k' v] o IH]; simpl; [reflexivity|].
  destruct (String.eqb k k'); [reflexivity | exact IH].
Qed.

Lemma nodeIsDeleted_cloneNode n : nodeIsDeleted (cloneNode n) = nodeIsDeleted n.
Proof.
  destruct n as [m its hl]. unfold nodeIsDeleted. simpl.
  unfold cloneMetadata. rewrite getProp_mapValues.
  now destruct (getProp "deletedAt" m).
Qed.

Lemma contentIsEmpty_cloneNode n : contentIsEmpty (cloneNode n) = contentIsEmpty n.
Proof.
  destruct n as [m [l|] [hl|]]; unfold contentIsEmpty; simpl;
    try (now destruct l); try (now destruct hl); reflexivity.
Qed.

Lemma contentIsEmpty_deleteNode hdr now n : contentIsEmpty (deleteNode hdr now n) = true.
Proof.
  unfold contentIsEmpty. destruct (nodeIsDirectory n) eqn:E.
  - destruct (deleteNode_directory hdr now n E) as [-> _]. reflexivity.
  - destruct (deleteNode_file hdr now n E) as [-> ->]. reflexivity.
Qed.

Lemma tombstoneIsEmpty_live n : nodeIsDeleted n = false -> tombstoneIsEmpty n = true.
Proof. unfold tombstoneIsEmpty. now intros ->. Qed.

Section TombstoneInvariant.

Variable normalize : string -> string.

Lemma tombstone_clear n :
  tombstoneIsEmpty n = true -> tombstoneIsEmpty (clearDeletedAt n) = true.
Proof. intros _. apply tombstoneIsEmpty_live, nodeIsDeleted_clear. Qed.

Lemma tombstone_items n its :
  nodeIsDeleted n = false -> tombstoneIsEmpty n = true ->
  tombstoneIsEmpty (setItemsProp its n) = true.
Proof. intros H _. now apply tombstoneIsEmpty_live. Qed.

Lemma tombstone_links n hl :
  nodeIsDeleted n = false -> tombstoneIsEmpty n = true ->
  tombstoneIsEmpty (setHashLinksProp hl n) = true.
Proof. intros H _. now apply tombstoneIsEmpty_live. Qed.

Lemma tombstone_child n its k c its' :
  items n = Some its -> getProp k its = Some c -> tombstoneIsEmpty n = true ->
  tombstoneIsEmpty (setItemsProp its' n) = true.
Proof.
  intros Hi Hc. unfold tombstoneIsEmpty, contentIsEmpty.
  rewrite nodeIsDeleted_setItems, Hi.
  destruct (nodeIsDeleted n); [|reflexivity].
  destruct its; [discriminate | discriminate].
Qed.

Lemma tombstone_stamp hdr now prop n :
  noGuard hdr -> prop <> "deletedAt" -> tombstoneIsEmpty n = true ->
  tombstoneIsEmpty (updateTimeMetadata hdr now prop n) = true.
Proof.
  intros _ Hp. unfold tombstoneIsEmpty, contentIsEmpty.
  now rewrite nodeIsDeleted_stamp, items_stamp, hashLinks_stamp.
Qed.

Lemma tombstone_delete hdr now n :
  noGuard hdr -> nodeIsDeleted n = false -> tombstoneIsEmpty n = true ->
  tombstoneIsEmpty (deleteNode hdr now n) = true.
Proof.
  intros _ _ _. unfold tombstoneIsEmpty.
  rewrite contentIsEmpty_deleteNode. now destruct (nodeIsDeleted _).
Qed.

Lemma tombstone_clone n :
  tombstoneIsEmpty n = true -> tombstoneIsEmpty (cloneNode n) = true.
Proof.
  unfold tombstoneIsEmpty.
  now rewrite nodeIsDeleted_cloneNode, contentIsEmpty_cloneNode.
Qed.

Lemma tombstone_mutateAt r f bm :
  allNodes tombstoneIsEmpty (header bm) = true ->
  (forall c, nodeAt r bm = Some c -> allNodes tombstoneIsEmpty (f c) = true) ->
  allNodes tombstoneIsEmpty (header (mutateAt r f bm)) = true.
Proof. apply allNodes_mutateAt. exact tombstone_child. Qed.

Lemma tombstone_setMetadata path m bm :
  getProp "deletedAt" m = None ->
  allNodes tombstoneIsEmpty (header bm) = true ->
  allNodes tombstoneIsEmpty (header (fst (setMetadata normalize path m bm))) = true.
Proof.
  intros Hm H. unfold setMetadata.
  destruct (getDeepestNode normalize path bm) as [[[r c]|]|e]; try exact H.
  apply tombstone_mutateAt; [exact H|]. intros c' Hc'.
  pose proof (allNodes_lookupRef _ _ _ _ H Hc') as Hall.
  apply allNodes_intro.
  - apply tombstoneIsEmpty_live. unfold nodeIsDeleted. simpl.
    unfold cloneMetadata. now rewrite getProp_mapValues, Hm.
  - simpl. intros l Hl. eapply allNodes_items; eauto.
Qed.

Lemma tombstone_updateMetadata path k v bm :
  k <> "deletedAt" ->
  allNodes tombstoneIsEmpty (header bm) = true ->
  allNodes tombstoneIsEmpty (header (fst (updateMetadata normalize path k v bm))) = true.
Proof.
  intros Hk H. unfold updateMetadata.
  destruct (getDeepestNode normalize path bm) as [[[r c]|]|e]; try exact H.
  apply tombstone_mutateAt; [exact H|]. intros c' Hc'.
  pose proof (allNodes_lookupRef _ _ _ _ H Hc') as Hall.
  apply allNodes_intro.
  - pose proof (allNodes_P _ _ Hall) as HP. revert HP.
    unfold tombstoneIsEmpty, nodeIsDeleted, contentIsEmpty. simpl.
    now rewrite getProp_setProp_other.
  - simpl. intros l Hl. eapply allNodes_items; eauto.
Qed.

Lemma tombstone_perform now o bm :
  writesNoDeletedAt o = true ->
  allNodes tombstoneIsEmpty (header bm) = true ->
  allNodes tombstoneIsEmpty (header (perform normalize now o bm)) = true.
Proof.
  intros Ho H.
  destruct (writesNoCallerMetadata o) eqn:Ew.
  - apply (allNodes_perform tombstoneIsEmpty noGuard); auto;
      first [ exact tombstone_clear | exact tombstone_items | exact tombstone_links
            | exact tombstone_child | exact tombstone_stamp | exact tombstone_delete
            | exact tombstone_clone | reflexivity | exact I ].
  - destruct o; try discriminate; simpl in *.
    + apply tombstone_setMetadata; [|exact H].
      now destruct (getProp "deletedAt" m).
    + apply tombstone_updateMetadata; [|exact H].
      apply String.eqb_neq. now destruct (String.eqb k "deletedAt").
Qed.

Lemma tombstone_run calls :
  forallb (fun c => writesNoDeletedAt (snd c)) calls = true ->
  forall bm,
    allNodes tombstoneIsEmpty (header bm) = true ->
    allNodes tombstoneIsEmpty (header (run normalize calls bm)) = true.
Proof.
  induction calls as [|[now o] calls IH]; simpl; intros Hc bm H; [exact H|].
  apply andb_prop in Hc. destruct Hc as [Ho Hc].
  apply IH; [exact Hc|]. now apply tombstone_perform.
Qed.

End TombstoneInvariant.




(** ** Lookups after a mutation that keeps the kinds *)

Lemma nodeIsDirectory_updateRef f s p :
  (forall t, lookupRef s p = Some t -> nodeIsDirectory (f t) = nodeIsDirectory t) ->
  nodeIsDirectory (updateRef s f p) = nodeIsDirectory p.
Proof.
  destruct s as [|k s]; simpl; intros Hf.
  - now apply Hf.
  - destruct (items p) as [its|] eqn:Ei; [|reflexivity].
    destruct (getProp k its); [|reflexivity].
    unfold nodeIsDirectory. simpl. now rewrite Ei.
Qed.

(** [navigate] follows the same references when the mutated node keeps
    its kind: the walk only looks at names and at which children are
    directories. *)
Lemma navigateFrom_updateRef f segments :
  forall r0 p s,
    (forall t, lookupRef s p = Some t ->
               nodeIsDirectory t = false /\ nodeIsDirectory (f t) = false) ->
    match navigateFrom segments r0 p, navigateFrom segments r0 (updateRef s f p) with
    | Ok (Some (r1, _)), Ok (Some (r2, _)) => r1 = r2
    | Ok None, Ok None => True
    | Throw e1, Throw e2 => e1 = e2
    | _, _ => False
    end.
Proof.
  induction segments as [|seg rest IH]; intros r0 p s Hs; simpl; [reflexivity|].
  destruct (String.eqb seg EmptyString); [now apply IH|].
  destruct s as [|k s].
  - simpl. destruct (Hs p eq_refl) as [Hp Hfp].
    unfold nodeIsDirectory in Hp, Hfp.
    destruct (items p); [discriminate|]. destruct (items (f p)); [discriminate|].
    reflexivity.
  - simpl. destruct (items p) as [its|] eqn:Ei; [|rewrite Ei; reflexivity].
    destruct (getProp k its) as [c0|] eqn:Ec.
    + simpl.
      assert (Hsub : forall t, lookupRef s c0 = Some t ->
                nodeIsDirectory t = false /\ nodeIsDirectory (f t) = false).
      { intros t Ht. apply Hs. simpl. now rewrite Ei, Ec. }
      assert (Hkind : nodeIsDirectory (updateRef s f c0) = nodeIsDirectory c0).
      { apply nodeIsDirectory_updateRef. intros t Ht.
        destruct (Hsub t Ht) as [-> ->]. reflexivity. }
      assert (Hsame : setItemsProp (setProp k (updateRef s f c0) its) p =
                      updateRef (k :: s) f p).
      { simpl. now rewrite Ei, Ec. }
      destruct (String.eqb k seg) eqn:Ek.
      * apply String.eqb_eq in Ek. subst seg.
        rewrite getProp_setProp_same, Ec, Hkind.
        destruct (nodeIsDirectory c0).
        -- now apply IH.
        -- rewrite Hsame. now apply IH.
      * apply String.eqb_neq in Ek.
        rewrite getProp_setProp_other by exact Ek.
        destruct (getProp seg its) as [c|]; [|exact I].
        destruct (nodeIsDirectory c).
        -- specialize (IH (r0 ++ [seg]) c [] ).
           destruct (navigateFrom rest (r0 ++ [seg]) c) as [[[r1 q]|]|e]; auto.
        -- rewrite Hsame. now apply IH.
    + rewrite Ei.
      destruct (getProp seg its) as [c|]; [|exact I].
      destruct (nodeIsDirectory c).
      * destruct (navigateFrom rest (r0 ++ [seg]) c) as [[[r1 q]|]|e]; auto.
      * specialize (IH r0 p (k :: s) Hs). simpl in IH. now rewrite Ei, Ec in IH.
Qed.

(** A mutation of a file that leaves it a file does not change what a
    path resolves to. *)
Lemma getDeepestNode_mutateAt normalize path bm r n f :
  getDeepestNode normalize path bm = Ok (Some (r, n)) ->
  nodeIsDirectory n = false ->
  nodeIsDirectory (f n) = false ->
  getDeepestNode normalize path (mutateAt r f bm) = Ok (Some (r, f n)).
Proof.
  intros Hg Hn Hfn.
  pose proof (getDeepestNode_sound _ _ _ _ _ Hg) as Hat.
  pose proof (nodeAt_mutateAt r f bm n Hat) as Hat'.
  revert Hg. unfold getDeepestNode.
  destruct (String.eqb (normalize path) "/").
  - intros H. inversion H. subst. reflexivity.
  - unfold navigate.
    assert (Hs : forall t, lookupRef r (header bm) = Some t ->
              nodeIsDirectory t = false /\ nodeIsDirectory (f t) = false).
    { intros t Ht. unfold nodeAt in Hat. rewrite Hat in Ht. inversion Ht.
      subst t. now split. }
    pose proof (navigateFrom_updateRef f
                  (split slash (dirname (normalize path))) [] (header bm) r Hs) as Hnav.
    destruct (navigateFrom (split slash (dirname (normalize path))) [] (header bm))
      as [[[r1 q]|]|e] eqn:E1; try discriminate.
    destruct (items q) as [its|] eqn:Ei; try discriminate.
    destruct (getProp (basename (normalize path)) its) as [c|] eqn:Ec;
      try discriminate.
    intros H. inversion H. subst r c. clear H.
    simpl.
    destruct (navigateFrom (split slash (dirname (normalize path))) []
                (updateRef (r1 ++ [basename (normalize path)]) f (header bm)))
      as [[[r2 q']|]|e] eqn:E2; try contradiction.
    subst r2.
    pose proof (navigateFrom_sound _ _ [] _ _ _ eq_refl E2) as Hq'.
    unfold nodeAt in Hat'. simpl in Hat'.
    rewrite lookupRef_app, Hq' in Hat'.
    destruct (items q') as [its'|]; [|discriminate].
    now rewrite Hat'.
Qed.

(** ** Maps without time stamps (C10) *)

Lemma metadataIsEmpty_spec n : metadataIsEmpty n = true <-> metadata n = [].
Proof.
  unfold metadataIsEmpty. destruct (metadata n); simpl; split; congruence.
Qed.

Lemma updateTimeMetadata_disabled hdr now prop n :
  timestampsEnabled hdr = false -> updateTimeMetadata hdr now prop n = n.
Proof. unfold updateTimeMetadata. now intros ->. Qed.

Lemma timestampsEnabled_empty hdr :
  metadataIsEmpty hdr = true -> timestampsEnabled hdr = false.
Proof.
  intros H. apply metadataIsEmpty_spec in H. unfold timestampsEnabled.
  now rewrite H.
Qed.

(** *** Without [createdAt] on the header the clock is not read *)

Section ClockIndependence.

Variable hdr : node.
Hypothesis clock_off : timestampsEnabled hdr = false.
Variables now now' : string.

Lemma createFileNode_clock p name :
  createFileNode hdr now p name = createFileNode hdr now' p name.
Proof. unfold createFileNode. now rewrite !updateTimeMetadata_disabled. Qed.

Lemma createDirectoryNode_clock p name :
  createDirectoryNode hdr now p name = createDirectoryNode hdr now' p name.
Proof. unfold createDirectoryNode. now rewrite !updateTimeMetadata_disabled. Qed.

Lemma createTrailingNode_clock ty name p :
  createTrailingNode hdr now ty name p = createTrailingNode hdr now' ty name p.
Proof.
  unfold createTrailingNode.
  now rewrite createFileNode_clock, createDirectoryNode_clock.
Qed.

Lemma loopIteration_clock ty name isLast continue continue' p :
  (forall c, continue c = continue' c) ->
  loopIteration hdr now ty name isLast continue p =
  loopIteration hdr now' ty name isLast continue' p.
Proof.
  intros Hc. unfold loopIteration.
  destruct (items p) as [its|]; [|reflexivity].
  rewrite createTrailingNode_clock, createDirectoryNode_clock.
  destruct isLast; [reflexivity|].
  match goal with
  | |- match items ?q with _ => _ end = _ => destruct (items q) as [its2|]
  end; [|reflexivity].
  destruct (getProp name its2) as [c|]; [|reflexivity].
  now rewrite Hc.
Qed.

Lemma createNodesLoop_clock ty segs :
  forall p, createNodesLoop hdr now ty segs p = createNodesLoop hdr now' ty segs p.
Proof.
  remember (List.length segs) as len eqn:Hlen. revert segs Hlen.
  induction len as [len IH] using lt_wf_ind.
  intros [|s rest] Hlen p; simpl.
  - apply createTrailingNode_clock.
  - destruct (String.eqb s EmptyString).
    + destruct rest as [|s' rest'].
      * now apply loopIteration_clock.
      * apply loopIteration_clock. intros c.
        eapply IH; [|reflexivity]. subst len. simpl. lia.
    + apply loopIteration_clock. intros c.
      eapply IH; [|reflexivity]. subst len. simpl. lia.
Qed.

Lemma appendBrick_clock brick n :
  appendBrick hdr now brick n = appendBrick hdr now' brick n.
Proof. unfold appendBrick. now rewrite !updateTimeMetadata_disabled. Qed.

Lemma deleteNode_clock n : deleteNode hdr now n = deleteNode hdr now' n.
Proof. unfold deleteNode. now rewrite !updateTimeMetadata_disabled. Qed.

Lemma truncateNode_clock n : truncateNode hdr now n = truncateNode hdr now' n.
Proof. unfold truncateNode. now rewrite !updateTimeMetadata_disabled. Qed.

End ClockIndependence.

Lemma createNodesFromPath_clock now now' ty path bm :
  timestampsEnabled (header bm) = false ->
  createNodesFromPath now ty path bm = createNodesFromPath now' ty path bm.
Proof.
  intros Hoff. unfold createNodesFromPath.
  now rewrite (createNodesLoop_clock (header bm) Hoff now now').
Qed.

Lemma updateRef_ext r f g :
  (forall x, f x = g x) -> forall n, updateRef r f n = updateRef r g n.
Proof.
  intros Hfg. induction r as [|k r IH]; intros n; simpl; [apply Hfg|].
  destruct (items n) as [its|]; [|reflexivity].
  destruct (getProp k its); [|reflexivity]. now rewrite IH.
Qed.

Lemma mutateAt_ext r f g bm :
  (forall x, f x = g x) -> mutateAt r f bm = mutateAt r g bm.
Proof. intros Hfg. unfold mutateAt. now rewrite (updateRef_ext r f g Hfg). Qed.

(** Every operation of a map whose header has no [createdAt] gives the
    same map whatever the clock reads. *)
Lemma perform_clock normalize now now' o bm :
  timestampsEnabled (header bm) = false ->
  perform normalize now o bm = perform normalize now' o bm.
Proof.
  intros Hoff.
  assert (Hstamp : forall r bm1,
            mutateAt r (updateTimeMetadata (header bm) now "updatedAt") bm1 =
            mutateAt r (updateTimeMetadata (header bm) now' "updatedAt") bm1).
  { intros r bm1. apply mutateAt_ext. intros x.
    now rewrite !updateTimeMetadata_disabled. }
  destruct o; simpl; try reflexivity.
  - unfold add.
    rewrite (createNodesFromPath_clock now now' _ _ _ Hoff).
    destruct (String.eqb (normalize path) EmptyString); [reflexivity|].
    destruct (createNodesFromPath now' Child (normalize path) bm) as [bm1 [r|e]];
      [|reflexivity].
    destruct (nodeAt r (mutateAt r clearDeletedAtIfTruthy bm1)); [|reflexivity].
    now rewrite (appendBrick_clock (header bm) Hoff now now').
  - unfold delete.
    destruct (getDeepestNode normalize (normalize path) bm) as [[[r c]|]|e];
      try reflexivity.
    destruct (nodeIsDeleted c); [reflexivity|]. simpl.
    apply mutateAt_ext. apply (deleteNode_clock (header bm) Hoff).
  - unfold emptyList.
    destruct (getDeepestNode normalize path bm) as [[[r c]|]|e]; try reflexivity.
    simpl.
    apply mutateAt_ext. apply (truncateNode_clock (header bm) Hoff).
  - unfold copy.
    destruct (getDeepestNode normalize srcPath bm) as [[[rs srcNode]|]|e];
      try reflexivity.
    now rewrite (createNodesFromPath_clock now now' _ _ _ Hoff).
  - unfold createFolder, createNode.
    now rewrite (createNodesFromPath_clock now now' _ _ _ Hoff).
  - unfold createFile, createNode.
    now rewrite (createNodesFromPath_clock now now' _ _ _ Hoff).
  - unfold replaceFirstBrick, replaceBrickWith, getNodeFromPath.
    rewrite (createNodesFromPath_clock now now' _ _ _ Hoff).
    destruct (String.eqb (normalize path) EmptyString); [reflexivity|].
    destruct (createNodesFromPath now' Child (normalize path) bm) as [bm1 [r|e]];
      [|reflexivity].
    now rewrite Hstamp.
  - unfold replaceLastBrick, replaceBrickWith, getNodeFromPath.
    rewrite (createNodesFromPath_clock now now' _ _ _ Hoff).
    destruct (String.eqb (normalize path) EmptyString); [reflexivity|].
    destruct (createNodesFromPath now' Child (normalize path) bm) as [bm1 [r|e]];
      [|reflexivity].
    now rewrite Hstamp.
Qed.

Section UntimedInvariant.

Variable normalize : string -> string.

Lemma untimed_clear n :
  metadataIsEmpty n = true -> metadataIsEmpty (clearDeletedAt n) = true.
Proof.
  intros H. apply metadataIsEmpty_spec in H. apply metadataIsEmpty_spec.
  simpl. now rewrite H.
Qed.

Lemma untimed_items n its :
  nodeIsDeleted n = false -> metadataIsEmpty n = true ->
  metadataIsEmpty (setItemsProp its n) = true.
Proof. intros _ H. exact H. Qed.

Lemma untimed_links n hl :
  nodeIsDeleted n = false -> metadataIsEmpty n = true ->
  metadataIsEmpty (setHashLinksProp hl n) = true.
Proof. intros _ H. exact H. Qed.

Lemma untimed_child n (its : list (string * node)) (k : string) (c : node) its' :
  items n = Some its -> getProp k its = Some c -> metadataIsEmpty n = true ->
  metadataIsEmpty (setItemsProp its' n) = true.
Proof. intros _ _ H. exact H. Qed.

Lemma untimed_stamp hdr now prop n :
  untimed hdr -> prop <> "deletedAt" -> metadataIsEmpty n = true ->
  metadataIsEmpty (updateTimeMetadata hdr now prop n) = true.
Proof. intros Hu _ H. now rewrite updateTimeMetadata_disabled. Qed.

Lemma untimed_delete hdr now n :
  untimed hdr -> nodeIsDeleted n = false -> metadataIsEmpty n = true ->
  metadataIsEmpty (deleteNode hdr now n) = true.
Proof.
  intros Hu _ H. unfold metadataIsEmpty.
  rewrite deleteNode_metadata, Hu. exact H.
Qed.

Lemma untimed_clone n :
  metadataIsEmpty n = true -> metadataIsEmpty (cloneNode n) = true.
Proof.
  intros H. apply metadataIsEmpty_spec in H. apply metadataIsEmpty_spec.
  destruct n as [m its hl]. simpl in *. now subst m.
Qed.

Lemma untimed_run calls :
  forallb (fun c => writesNoCallerMetadata (snd c)) calls = true ->
  forall bm,
    allNodes metadataIsEmpty (header bm) = true ->
    allNodes metadataIsEmpty (header (run normalize calls bm)) = true.
Proof.
  induction calls as [|[now o] calls IH]; simpl; intros Hc bm H; [exact H|].
  apply andb_prop in Hc. destruct Hc as [Ho Hc].
  apply IH; [exact Hc|].
  apply (allNodes_perform metadataIsEmpty untimed); auto;
    first [ exact untimed_clear | exact untimed_items | exact untimed_links
          | exact untimed_child | exact untimed_stamp | exact untimed_delete
          | exact untimed_clone | reflexivity | idtac ].
  apply timestampsEnabled_empty. revert H. apply allNodes_P.
Qed.

End UntimedInvariant.

(** C10, as the code has it.  In a map created with [preventTimestamp]
    the header has no [createdAt].  While that is so, no operation reads the
    clock: whatever the time stamp would be, the resulting map is the same.
    After any sequence of calls of the operations that stamp ([add],
    [delete], [emptyList], [copy], [createFolder], [createFile],
    [replaceFirstBrick], [replaceLastBrick]) the metadata of every node is
    still empty; [setMetadata] and [updateMetadata] are left out of the
    sequence, for they store what the caller hands them, a [createdAt] on
    the header included.  In
    particular [delete] of a path that resolves to a file empties its
    [hashLinks] and sets no [deletedAt], so that afterwards [fileDeleted]
    answers [false] and [fileExists] answers [true]. *)
Theorem preventTimestamp_writes_no_timestamp (normalize : string -> string)
    (now0 : string) (calls : list (string * operation)) :
  forallb (fun c => writesNoCallerMetadata (snd c)) calls = true ->
  let bm := run normalize calls (initialize None true now0) in
  getProp "createdAt" (metadata (header (initialize None true now0))) = None /\
  (forall (m : BrickMap) (o : operation) (now now' : string),
     timestampsEnabled (header m) = false ->
     perform normalize now o m = perform normalize now' o m) /\
  allNodes metadataIsEmpty (header bm) = true /\
  (forall now path r n,
     normalize (normalize path) = normalize path ->
     getDeepestNode normalize path bm = Ok (Some (r, n)) ->
     nodeIsDirectory n = false ->
     let bm' := fst (delete normalize now path bm) in
     nodeAt r bm' = Some (Node [] None (Some [])) /\
     fileDeleted normalize path bm' = Ok (Some false) /\
     fileExists normalize path bm' = Ok (Some true)).
Proof.
  intros Hc bm.
  assert (Hall : allNodes metadataIsEmpty (header bm) = true).
  { apply untimed_run; [exact Hc | reflexivity]. }
  split; [reflexivity|].
  split; [intros m o now now' Hoff; now apply perform_clock|].
  split; [exact Hall|].
  intros now path r n Hidem Hg Hfile bm'.
  pose proof (getDeepestNode_sound _ _ _ _ _ Hg) as Hat.
  pose proof (allNodes_P _ _ (allNodes_lookupRef _ _ _ _ Hall Hat)) as Hn.
  apply metadataIsEmpty_spec in Hn.
  pose proof (timestampsEnabled_empty _ (allNodes_P _ _ Hall)) as Hoff.
  assert (Hg' : getDeepestNode normalize (normalize path) bm = Ok (Some (r, n))).
  { revert Hg. unfold getDeepestNode. now rewrite Hidem. }
  assert (Hdel : deleteNode (header bm) now n = Node [] None (Some [])).
  { destruct n as [m its hl]. simpl in Hn. subst m.
    unfold nodeIsDirectory in Hfile. simpl in Hfile.
    destruct its; [discriminate|].
    unfold deleteNode. rewrite updateTimeMetadata_disabled by exact Hoff.
    reflexivity. }
  assert (Hbm' : bm' = mutateAt r (deleteNode (header bm) now) bm).
  { unfold bm', delete. rewrite Hg'.
    unfold nodeIsDeleted. now rewrite Hn. }
  assert (Hg2 : getDeepestNode normalize path bm' = Ok (Some (r, Node [] None (Some [])))).
  { rewrite Hbm', <- Hdel. apply getDeepestNode_mutateAt; auto.
    now rewrite Hdel. }
  split; [|split].
  - eapply getDeepestNode_sound; eauto.
  - unfold fileDeleted. now rewrite Hg2.
  - unfold fileExists. now rewrite Hg2.
Qed.

Lemma preventTimestamp_writes_no_timestamp_witness :
  let bm := run pskNormalize
              [("t1", OpAdd "a/b/file.txt" brickC1); ("t2", OpCreateFolder "d")]
              (initialize None true "t0") in
  perform pskNormalize "t3" (OpAdd "g" brickC1) bm =
    perform pskNormalize "t4" (OpAdd "g" brickC1) bm /\
  allNodes metadataIsEmpty (header bm) = true /\
  fileDeleted pskNormalize "a/b/file.txt"
    (fst (delete pskNormalize "t3" "a/b/file.txt" bm)) = Ok (Some false) /\
  fileExists pskNormalize "a/b/file.txt"
    (fst (delete pskNormalize "t3" "a/b/file.txt" bm)) = Ok (Some true).
Proof.
  destruct (preventTimestamp_writes_no_timestamp pskNormalize "t0"
              [("t1", OpAdd "a/b/file.txt" brickC1); ("t2", OpCreateFolder "d")]
              eq_refl) as [_ [Hclock [Hall Hdel]]].
  split; [apply Hclock; reflexivity|].
  split; [exact Hall|].
  destruct (Hdel "t3" "a/b/file.txt" ["a"; "b"; "file.txt"]
              (Node [] None (Some [mkBrickRef "c1" "h1" None None]))
              eq_refl eq_refl eq_refl) as [_ [Hd He]].
  split; [exact Hd | exact He].
Defined.

(** C10 as the specification words it, for every operation, does not
    hold.  [updateMetadata("/", "createdAt", "x")] returns on a map made
    with [preventTimestamp] and gives its header a [createdAt]; the [add]
    that follows stamps the new file with [updatedAt], and [delete] then
    sets [deletedAt], so that [fileDeleted] answers [true] and [fileExists]
    answers [false]. *)
Lemma preventTimestamp_counterexample :
  getProp "createdAt" (metadata (header untimedMap)) = None /\
  snd (updateMetadata pskNormalize "/" "createdAt" (VStr "x") untimedMap) = Ok tt /\
  getProp "createdAt"
    (metadata (header (fst (updateMetadata pskNormalize "/" "createdAt" (VStr "x")
                              untimedMap)))) = Some (VStr "x") /\
  (exists n,
     nodeAt ["f"]
       (run pskNormalize
          [("t1", OpUpdateMetadata "/" "createdAt" (VStr "x"));
           ("t2", OpAdd "f" brickC1)]
          untimedMap) = Some n /\
     getProp "updatedAt" (metadata n) = Some (VStr "t2")) /\
  (exists n,
     nodeAt ["f"]
       (run pskNormalize
          [("t1", OpUpdateMetadata "/" "createdAt" (VStr "x"));
           ("t2", OpAdd "f" brickC1);
           ("t3", OpDelete "f")]
          untimedMap) = Some n /\
     getProp "deletedAt" (metadata n) = Some (VStr "t3")) /\
  fileDeleted pskNormalize "f"
    (run pskNormalize
       [("t1", OpUpdateMetadata "/" "createdAt" (VStr "x"));
        ("t2", OpAdd "f" brickC1);
        ("t3", OpDelete "f")]
       untimedMap) = Ok (Some true) /\
  fileExists pskNormalize "f"
    (run pskNormalize
       [("t1", OpUpdateMetadata "/" "createdAt" (VStr "x"));
        ("t2", OpAdd "f" brickC1);
        ("t3", OpDelete "f")]
       untimedMap) = Ok (Some false).
Proof.
  split; [reflexivity|]. split; [reflexivity|]. split; [reflexivity|].
  split; [eexists; split; reflexivity|].
  split; [eexists; split; reflexivity|].
  split; reflexivity.
Qed.

(** ** Serialising and loading (C5) *)

Lemma value_ind' (Q : value -> Prop) :
  Q VNull -> (forall b, Q (VBool b)) -> (forall z, Q (VNum z)) ->
  (forall s, Q (VStr s)) ->
  (forall l, Forall Q l -> Q (VArr l)) ->
  (forall fields, Forall (fun kv => Q (snd kv)) fields -> Q (VObj fields)) ->
  (forall bytes, Q (VBuf bytes)) ->
  forall v, Q v.
Proof.
  intros Hnull Hbool Hnum Hstr Harr Hobj Hbuf. fix IH 1. intros [| | | |l|fields|bytes].
  - exact Hnull.
  - apply Hbool.
  - apply Hnum.
  - apply Hstr.
  - apply Harr. induction l as [|x l IHl]; constructor; [apply IH | exact IHl].
  - apply Hobj. induction fields as [|[k x] fields IHl]; constructor;
      [simpl; apply IH | exact IHl].
  - apply Hbuf.
Qed.

Lemma numToByte_byteToNum b : numToByte (Z.of_N (Byte.to_N b)) = b.
Proof.
  unfold numToByte.
  pose proof (Byte.to_N_bounded b) as Hb.
  rewrite Z.mod_small by lia.
  now rewrite N2Z.id, Byte.of_to_N.
Qed.

Lemma byteToNum_numToByte z :
  isByteNum (VNum z) = true -> byteToNum (numToByte z) = VNum z.
Proof.
  simpl. intros H. apply andb_prop in H. destruct H as [H0 H1].
  apply Z.leb_le in H0. apply Z.ltb_lt in H1.
  unfold byteToNum, numToByte. rewrite Z.mod_small by lia.
  destruct (Byte.of_N (Z.to_N z)) as [b|] eqn:E.
  - apply Byte.to_of_N in E. rewrite E. f_equal. lia.
  - apply Byte.of_N_None_iff in E. lia.
Qed.

Lemma stringify_bufferToJSON bytes :
  stringify (bufferToJSON bytes) = bufferToJSON bytes.
Proof.
  unfold bufferToJSON. simpl.
  assert (H : map stringify (map byteToNum bytes) = map byteToNum bytes).
  { induction bytes as [|b bytes IH]; simpl; [reflexivity | now rewrite IH]. }
  now rewrite H.
Qed.

Section LoadFacts.

Variable elementToByte : value -> Byte.byte.

Lemma bufferFrom_bytes bytes :
  bufferFrom elementToByte (map byteToNum bytes) = bytes.
Proof.
  induction bytes as [|b bytes IH]; simpl; [reflexivity|].
  now rewrite numToByte_byteToNum, IH.
Qed.

Lemma bytes_bufferFrom data :
  forallb isByteNum data = true ->
  map byteToNum (bufferFrom elementToByte data) = data.
Proof.
  induction data as [|x data IH]; simpl; [reflexivity|].
  intros H. apply andb_prop in H. destruct H as [Hx Hd].
  destruct x; try discriminate.
  now rewrite byteToNum_numToByte, IH.
Qed.

Lemma reviver_other k v :
  isKeyProperty k = false -> reviver elementToByte k v = Ok v.
Proof. unfold reviver. now intros ->. Qed.

Lemma reviver_array k l : reviver elementToByte k (VArr l) = Ok (VArr l).
Proof. unfold reviver. now destruct (isKeyProperty k). Qed.

Lemma reviver_object k fields :
  reviver elementToByte k (VObj fields) =
  Ok (if isKeyProperty k && encodesBuffer fields
      then VBuf (bufferFrom elementToByte (dataOf fields))
      else VObj fields).
Proof.
  unfold reviver, encodesBuffer, dataOf.
  destruct (isKeyProperty k); simpl; [|reflexivity].
  destruct (Nat.eqb (List.length fields) 2); simpl; [|reflexivity].
  destruct (getProp "type" fields) as [[]|]; try reflexivity.
  destruct (getProp "data" fields) as [[]|]; try reflexivity.
  now destruct (String.eqb s bufferTag).
Qed.

Lemma restore_key_irrelevant k k' v :
  isKeyProperty k = isKeyProperty k' -> restore elementToByte k v = restore elementToByte k' v.
Proof. intros H. destruct v; simpl; try reflexivity; now rewrite H. Qed.

Lemma revivable_key_irrelevant k k' v :
  isKeyProperty k = isKeyProperty k' -> revivable k v = revivable k' v.
Proof. intros H. destruct v; simpl; try reflexivity; now rewrite H. Qed.

(** The encoding of bytes is restored to the bytes it encodes, and
    nothing changes below it. *)
Lemma restore_fields_encoding fields :
  isBufferEncoding fields = true ->
  map (fun kv => (fst kv, restore elementToByte (Name (fst kv)) (snd kv))) fields = fields /\
  encodesBuffer fields = true /\
  bufferToJSON (bufferFrom elementToByte (dataOf fields)) = VObj fields.
Proof.
  unfold isBufferEncoding.
  destruct fields as [|[t [| | |tag| | |]] [|[d [| | | |data| |]] [|]]]; try discriminate.
  intros H. repeat (apply andb_prop in H; destruct H as [H ?]).
  apply String.eqb_eq in H. apply String.eqb_eq in H2. apply String.eqb_eq in H1.
  subst t d tag.
  assert (Hdata : map (restore elementToByte (Index 0)) data = data).
  { clear - H0. induction data as [|x data IH]; simpl; [reflexivity|].
    simpl in H0. apply andb_prop in H0. destruct H0 as [Hx Hd].
    destruct x; try discriminate. simpl. now rewrite IH. }
  split; [|split].
  - simpl. now rewrite Hdata.
  - reflexivity.
  - unfold bufferToJSON, dataOf. simpl. now rewrite bytes_bufferFrom.
Qed.

(** The reviver's test gives the same answer before and after the
    properties of the object have been restored. *)
Lemma encodesBuffer_restore fields :
  encodesBuffer
    (map (fun kv => (fst kv, restore elementToByte (Name (fst kv)) (snd kv))) fields) =
  encodesBuffer fields.
Proof.
  unfold encodesBuffer. rewrite length_map. f_equal.
  assert (Hget : forall name,
            getProp name
              (map (fun kv => (fst kv, restore elementToByte (Name (fst kv)) (snd kv))) fields) =
            option_map (restore elementToByte (Name name)) (getProp name fields)).
  { intros name. induction fields as [|[k x] fields IH]; simpl; [reflexivity|].
    destruct (String.eqb name k) eqn:E; [|exact IH].
    apply String.eqb_eq in E. now subst k. }
  rewrite !Hget.
  destruct (getProp "type" fields) as [[]|]; simpl; try reflexivity.
  destruct (getProp "data" fields) as [[]|]; simpl; reflexivity.
Qed.

(** Parsing the text of a revivable value with the reviver succeeds and
    gives the restored value. *)
Lemma internalize_stringify v :
  forall k, revivable k v = true ->
            internalize elementToByte k (stringify v) = Ok (restore elementToByte k v).
Proof.
  induction v as [ | b | z | s | l IH | fields IH | bytes ] using value_ind';
    intros k Hr.
  - simpl in *. unfold reviver. now destruct (isKeyProperty k).
  - simpl. unfold reviver. now destruct (isKeyProperty k).
  - simpl. unfold reviver. now destruct (isKeyProperty k).
  - simpl. unfold reviver. now destruct (isKeyProperty k).
  - simpl in Hr.
    change (stringify (VArr l)) with (VArr (map stringify l)).
    cbn [internalize].
    match goal with
    | |- match ?e 0 (map stringify l) with _ => _ end = _ =>
        assert (Hel : forall i, e i (map stringify l) =
                                Ok (map (restore elementToByte (Index 0)) l))
    end.
    { induction l as [|x l IHl]; intros i; [reflexivity|].
      simpl in Hr. apply andb_prop in Hr. destruct Hr as [Hx Hl].
      inversion IH as [|? ? IHx IHr]; subst.
      cbn [map].
      rewrite (IHx (Index i)), (IHl IHr Hl (S i)).
      - f_equal. f_equal. apply restore_key_irrelevant. reflexivity.
      - rewrite <- Hx. apply revivable_key_irrelevant. reflexivity. }
    rewrite Hel. apply reviver_array.
  - simpl in Hr. apply andb_prop in Hr. destruct Hr as [Hfs Hshape].
    change (stringify (VObj fields)) with (VObj (mapValues stringify fields)).
    cbn [internalize].
    match goal with
    | |- match ?e (mapValues stringify fields) with _ => _ end = _ =>
        assert (Hprops : e (mapValues stringify fields) =
                  Ok (map (fun kv => (fst kv,
                                      restore elementToByte (Name (fst kv)) (snd kv)))
                          fields))
    end.
    { clear Hshape. induction fields as [|[name x] fields IHl]; [reflexivity|].
      simpl in Hfs. apply andb_prop in Hfs. destruct Hfs as [Hx Hl].
      inversion IH as [|? ? IHx IHr]; subst. simpl in IHx.
      unfold mapValues. cbn [map fst snd].
      rewrite (IHx (Name name) Hx).
      unfold mapValues in IHl. now rewrite (IHl IHr Hl). }
    rewrite Hprops, reviver_object. reflexivity.
  - simpl.
    assert (Hel : forall i,
              (fix elements (i : nat) (l : list value) {struct l} : outcome (list value) :=
                 match l with
                 | [] => Ok []
                 | x :: l' =>
                     match internalize elementToByte (Index i) x with
                     | Ok x' =>
                         match elements (S i) l' with
                         | Ok r => Ok (x' :: r)
                         | Throw e => Throw e
                         end
                     | Throw e => Throw e
                     end
                 end) i (map byteToNum bytes) = Ok (map byteToNum bytes)).
    { clear Hr. induction bytes as [|b bytes IHb]; intros i; [reflexivity|].
      cbn [map]. rewrite (IHb (S i)). reflexivity. }
    rewrite Hel, reviver_array, reviver_object.
    destruct (isKeyProperty k); simpl; [|reflexivity].
    unfold dataOf. simpl. now rewrite bufferFrom_bytes.
Qed.

(** The restored value prints as the original one. *)
Lemma stringify_restore v :
  forall k, revivable k v = true ->
            stringify (restore elementToByte k v) = stringify v.
Proof.
  induction v as [ | b | z | s | l IH | fields IH | bytes ] using value_ind';
    intros k Hr; try reflexivity.
  - simpl in *. f_equal.
    induction l as [|x l IHl]; [reflexivity|].
    simpl in Hr. apply andb_prop in Hr. destruct Hr as [Hx Hl].
    inversion IH as [|? ? IHx IHr]; subst. simpl.
    now rewrite (IHx (Index 0) Hx), (IHl IHr Hl).
  - simpl in Hr. apply andb_prop in Hr. destruct Hr as [Hfs Hshape].
    assert (Hfields :
              mapValues stringify
                (map (fun kv => (fst kv, restore elementToByte (Name (fst kv)) (snd kv)))
                     fields) =
              mapValues stringify fields).
    { clear Hshape. induction fields as [|[name x] fields IHl]; [reflexivity|].
      simpl in Hfs. apply andb_prop in Hfs. destruct Hfs as [Hx Hl].
      inversion IH as [|? ? IHx IHr]; subst. simpl in IHx.
      unfold mapValues in *. simpl. now rewrite (IHx (Name name) Hx), (IHl IHr Hl). }
    cbn [restore]. rewrite encodesBuffer_restore.
    destruct (isKeyProperty k) eqn:Ek; simpl; [|now rewrite Hfields].
    destruct (encodesBuffer fields) eqn:Ee; simpl; [|now rewrite Hfields].
    simpl in Hshape.
    destruct (restore_fields_encoding fields Hshape) as [Hsame [_ Hjson]].
    rewrite Hsame, Hjson.
    change (VObj (mapValues stringify fields)) with (stringify (VObj fields)).
    rewrite <- Hjson. symmetry. apply stringify_bufferToJSON.
  - simpl. destruct (isKeyProperty k); [reflexivity|].
    apply stringify_bufferToJSON.
Qed.

End LoadFacts.

Section RoundTrip.

Variable elementToByte : value -> Byte.byte.

Lemma restore_brickToValue k b :
  restore elementToByte k (brickToValue b) =
  brickToValue (restoreBrick elementToByte b).
Proof.
  destruct b as [c h [z|] [kv|]]; unfold brickToValue, restoreBrick; simpl;
    now rewrite andb_false_r.
Qed.

Lemma restore_nodeToValue n :
  forall k, restore elementToByte k (nodeToValue n) =
            nodeToValue (restoreNode elementToByte n).
Proof.
  induction n as [m l hl IH | m hl] using node_ind'; intros k.
  - assert (Hl : map (fun kv => (fst kv, restore elementToByte (Name (fst kv)) (snd kv)))
                   (mapValues nodeToValue l) =
                 mapValues nodeToValue (mapValues (restoreNode elementToByte) l)).
    { induction l as [|[name c] l IHl]; [reflexivity|].
      inversion IH as [|? ? IHc IHr]; subst. simpl in IHc.
      unfold mapValues in *. simpl. now rewrite IHc, (IHl IHr). }
    destruct hl as [bricks|]; simpl; rewrite ?andb_false_r, ?Hl, ?map_map;
      [|reflexivity].
    do 6 f_equal. apply map_ext. intros b. apply restore_brickToValue.
  - destruct hl as [bricks|]; simpl; rewrite ?andb_false_r, ?map_map;
      [|reflexivity].
    do 5 f_equal. apply map_ext. intros b. apply restore_brickToValue.
Qed.

Lemma valueToBrick_brickToValue b : valueToBrick (brickToValue b) = Some b.
Proof. destruct b as [c h [z|] [kv|]]; reflexivity. Qed.

Lemma valuesToBricks_brickToValue l : valuesToBricks (map brickToValue l) = Some l.
Proof.
  induction l as [|b l IH]; [reflexivity|].
  cbn [map valuesToBricks]. now rewrite valueToBrick_brickToValue, IH.
Qed.

Lemma valueToNode_nodeToValue n : valueToNode (nodeToValue n) = Some n.
Proof.
  induction n as [m l hl IH | m hl] using node_ind'.
  - assert (Hl : (fix nodes (cs : list (string * value)) : option (list (string * node)) :=
                    match cs with
                    | [] => Some []
                    | (cname, c) :: cs' =>
                        match valueToNode c, nodes cs' with
                        | Some c', Some r => Some ((cname, c') :: r)
                        | _, _ => None
                        end
                    end) (mapValues nodeToValue l) = Some l).
    { induction l as [|[name c] l IHl]; [reflexivity|].
      inversion IH as [|? ? IHc IHr]; subst. simpl in IHc.
      unfold mapValues in *. cbn [map fst snd]. now rewrite IHc, (IHl IHr). }
    destruct hl as [bricks|]; cbn -[valuesToBricks]; rewrite Hl;
      [now rewrite valuesToBricks_brickToValue | reflexivity].
  - destruct hl as [bricks|]; cbn -[valuesToBricks];
      [now rewrite valuesToBricks_brickToValue | reflexivity].
Qed.

Lemma lookupRef_restoreNode r :
  forall n c, lookupRef r n = Some c ->
              lookupRef r (restoreNode elementToByte n) =
              Some (restoreNode elementToByte c).
Proof.
  induction r as [|k r IH]; intros n c; simpl.
  - intros H. inversion H. reflexivity.
  - destruct n as [m [l|] hl]; simpl; [|discriminate].
    rewrite getProp_mapValues.
    destruct (getProp k l) as [c0|]; simpl; [apply IH | discriminate].
Qed.

Lemma restoreBrick_keeps_bytes b bytes :
  key b = Some (VBuf bytes) ->
  key (restoreBrick elementToByte b) = Some (VBuf bytes).
Proof. unfold restoreBrick. simpl. now intros ->. Qed.

(** C5, as the code has it.  For a map whose values are revivable (under
    a property named [key] there is no [null], and no object of the
    buffer-encoding shape other than the encoding of byte values) loading
    the text [toBrick] produces succeeds, the loaded map has the same
    [getState()] snapshot, and every brick key that was a byte buffer is
    the same byte buffer again. *)
Theorem toBrick_load_roundtrip (templateKey : option string) (bm : BrickMap) :
  revivable (Name EmptyString) (nodeToValue (header bm)) = true ->
  exists text bm',
    rawData (toBrick bm) = Ok text /\
    load elementToByte templateKey (SourceBuffer text) = Ok (Some bm') /\
    getState bm' = getState bm /\
    (forall r n hl,
       nodeAt r bm = Some n -> hashLinks n = Some hl ->
       exists n', nodeAt r bm' = Some n' /\
                  hashLinks n' = Some (map (restoreBrick elementToByte) hl)) /\
    (forall b bytes, key b = Some (VBuf bytes) ->
                     key (restoreBrick elementToByte b) = Some (VBuf bytes)).
Proof.
  intros Hr.
  exists (stringify (nodeToValue (header bm))).
  exists (mkBrickMap (restoreNode elementToByte (header bm)) templateKey).
  split; [reflexivity|]. split; [|split; [|split]].
  - unfold load, parseHeader, parseWithReviver.
    rewrite (internalize_stringify elementToByte _ _ Hr).
    now rewrite restore_nodeToValue, valueToNode_nodeToValue.
  - unfold getState. simpl. rewrite <- (restore_nodeToValue _ (Name EmptyString)).
    now apply stringify_restore.
  - intros r n hl Hat Hhl. exists (restoreNode elementToByte n). split.
    + unfold nodeAt. simpl. now apply lookupRef_restoreNode.
    + destruct n as [m its hl']. simpl in *. now subst hl'.
  - apply restoreBrick_keeps_bytes.
Qed.

End RoundTrip.

Lemma toBrick_load_roundtrip_witness :
  exists text bm',
    rawData (toBrick mapWithKey) = Ok text /\
    load (fun _ => Byte.x00) None (SourceBuffer text) = Ok (Some bm') /\
    getState bm' = getState mapWithKey.
Proof.
  destruct (toBrick_load_roundtrip (fun _ => Byte.x00) None mapWithKey eq_refl)
    as [text [bm' [Htext [Hload [Hstate _]]]]].
  exists text, bm'. split; [exact Htext|]. split; [exact Hload | exact Hstate].
Defined.

(** C5 as stated fails: a brick key that is an object of the encoding
    shape with the entry 300 is read back as the byte 44, and the snapshot
    of the loaded map differs from the one of the original map; and with a
    metadata entry [key: null] the text cannot be loaded at all, the reviver
    throws on [Object.keys(null)]. *)
Lemma toBrick_load_counterexample :
  (exists text bm',
     rawData (toBrick mapWithOddKey) = Ok text /\
     load (fun _ => Byte.x00) None (SourceBuffer text) = Ok (Some bm') /\
     nodeAt ["f"] mapWithOddKey =
       Some (Node [("createdAt", VStr "t1"); ("updatedAt", VStr "t1")] None
               (Some [mkBrickRef "c1" "h1" None
                        (Some (VObj [("type", VStr bufferTag);
                                     ("data", VArr [VNum 300])]))])) /\
     nodeAt ["f"] bm' =
       Some (Node [("createdAt", VStr "t1"); ("updatedAt", VStr "t1")] None
               (Some [mkBrickRef "c1" "h1" None (Some (VBuf [Byte.x2c]))])) /\
     getState bm' <> getState mapWithOddKey) /\
  (exists text,
     rawData (toBrick mapWithNullKey) = Ok text /\
     load (fun _ => Byte.x00) None (SourceBuffer text) = Throw TypeError).
Proof.
  split.
  - eexists. eexists. split; [reflexivity|]. split; [reflexivity|].
    split; [reflexivity|]. split; [reflexivity|].
    vm_compute. discriminate.
  - eexists. split; reflexivity.
Qed.

(** ** [copy] makes objects of its own (C6) *)

Section StoreFacts.

Import Store.

Lemma isNewFrom_le base base' v :
  base' <= base -> isNewFrom base v -> isNewFrom base' v.
Proof. destruct v; simpl; auto. intros. lia. Qed.

Lemma length_writeObj l o h : List.length (writeObj l o h) = List.length h.
Proof.
  revert l. induction h as [|o' h IH]; intros [|l]; simpl; auto.
Qed.

Lemma nth_error_writeObj_other l o h m :
  m <> l -> nth_error (writeObj l o h) m = nth_error h m.
Proof.
  revert l m. induction h as [|o' h IH]; intros [|l] [|m] Hne; simpl; auto;
    congruence.
Qed.

Lemma nth_error_writeObj_same l o h :
  l < List.length h -> nth_error (writeObj l o h) l = Some o.
Proof.
  revert l. induction h as [|o' h IH]; intros [|l] Hl; simpl in *; try lia; auto.
  apply IH. lia.
Qed.

(** Every object [JSON.parse] makes is new, and so is every address it
    puts into one. *)
Lemma parsedInto_primitive h v :
  isNewFrom (List.length h) v -> parsedInto h (v, h).
Proof.
  intros Hv. exists []. simpl. rewrite app_nil_r. repeat split; auto.
Qed.

Lemma Forall_isNewFrom_le base base' (ext : list object) :
  base' <= base ->
  Forall (fun o => Forall (isNewFrom base) (heldValues o)) ext ->
  Forall (fun o => Forall (isNewFrom base') (heldValues o)) ext.
Proof.
  intros Hle H. eapply Forall_impl; [|exact H].
  intros o Ho. eapply Forall_impl; [|exact Ho].
  intros v. now apply isNewFrom_le.
Qed.

Lemma parseS_new j : forall h, parsedInto h (parseS j h).
Proof.
  induction j as [ | b | z | s | l IH | fields IH | bytes ] using value_ind';
    intros h; try (apply parsedInto_primitive; exact I).
  - cbn [parseS].
    match goal with
    | |- parsedInto h (let '(vs, h') := ?e l h in _) =>
        assert (Hel : forall h0,
                  exists ext,
                    snd (e l h0) = h0 ++ ext /\
                    Forall (isNewFrom (List.length h0)) (fst (e l h0)) /\
                    Forall (fun o => Forall (isNewFrom (List.length h0)) (heldValues o)) ext)
    end.
    { induction l as [|x l IHl]; intros h0.
      - exists []. simpl. rewrite app_nil_r. auto.
      - inversion IH as [|? ? IHx IHr]; subst.
        destruct (IHx h0) as [ext1 [E1 [Hv1 Hext1]]].
        destruct (parseS x h0) as [v h1] eqn:Ex. simpl in E1. subst h1.
        destruct (IHl IHr (h0 ++ ext1)) as [ext2 [E2 [Hv2 Hext2]]].
        cbn.
        match goal with
        | |- context [let '(vs, h2) := ?t in _] => destruct t as [vs h2] eqn:Et
        end.
        simpl in *. subst h2.
        exists (ext1 ++ ext2). rewrite app_assoc. split; [reflexivity|]. split.
        + constructor; [exact Hv1|].
          eapply Forall_impl; [|exact Hv2].
          intros v0. apply isNewFrom_le. rewrite length_app. lia.
        + apply Forall_app. split; [exact Hext1|].
          eapply Forall_isNewFrom_le; [|exact Hext2]. rewrite length_app. lia. }
    destruct (Hel h) as [ext [E [Hvs Hext]]].
    match goal with
    | |- parsedInto h (let '(vs, h') := ?t in _) => destruct t as [vs h'] eqn:Et
    end.
    simpl in *. subst h'.
    exists (ext ++ [OArray vs]). simpl. rewrite app_assoc. split; [reflexivity|]. split.
    + rewrite length_app. lia.
    + apply Forall_app. split; [exact Hext|]. constructor; [exact Hvs | constructor].
  - cbn [parseS].
    match goal with
    | |- parsedInto h (let '(ps, h') := ?e fields h in _) =>
        assert (Hel : forall h0,
                  exists ext,
                    snd (e fields h0) = h0 ++ ext /\
                    Forall (isNewFrom (List.length h0)) (map snd (fst (e fields h0))) /\
                    Forall (fun o => Forall (isNewFrom (List.length h0)) (heldValues o)) ext)
    end.
    { induction fields as [|[k x] fields IHl]; intros h0.
      - exists []. simpl. rewrite app_nil_r. auto.
      - inversion IH as [|? ? IHx IHr]; subst. simpl in IHx.
        destruct (IHx h0) as [ext1 [E1 [Hv1 Hext1]]].
        destruct (parseS x h0) as [v h1] eqn:Ex. simpl in E1. subst h1.
        destruct (IHl IHr (h0 ++ ext1)) as [ext2 [E2 [Hv2 Hext2]]].
        cbn.
        match goal with
        | |- context [let '(ps, h2) := ?t in _] => destruct t as [ps h2] eqn:Et
        end.
        simpl in *. subst h2.
        exists (ext1 ++ ext2). rewrite app_assoc. split; [reflexivity|]. split.
        + constructor; [exact Hv1|].
          eapply Forall_impl; [|exact Hv2].
          intros v0. apply isNewFrom_le. rewrite length_app. lia.
        + apply Forall_app. split; [exact Hext1|].
          eapply Forall_isNewFrom_le; [|exact Hext2]. rewrite length_app. lia. }
    destruct (Hel h) as [ext [E [Hvs Hext]]].
    match goal with
    | |- parsedInto h (let '(ps, h') := ?t in _) => destruct t as [ps h'] eqn:Et
    end.
    simpl in *. subst h'.
    exists (ext ++ [OObject ps]). simpl. rewrite app_assoc. split; [reflexivity|]. split.
    + rewrite length_app. lia.
    + apply Forall_app. split; [exact Hext|]. constructor; [exact Hvs | constructor].
  - simpl. exists [OBuffer bytes]. simpl. repeat split; auto.
Qed.

Lemma readProp_store o name h : snd (readProp o name h) = h.
Proof.
  unfold readProp. destruct o as [[| | | |l]|]; simpl; auto.
  destruct (nth_error h l) as [[]|]; reflexivity.
Qed.

Lemma Forall_isNewFrom_setProp base name v props :
  isNewFrom base v ->
  Forall (isNewFrom base) (map snd props) ->
  Forall (isNewFrom base) (map snd (setProp name v props)).
Proof.
  intros Hv. induction props as [|[k x] props IH]; simpl; intros H.
  - constructor; auto.
  - inversion H; subst. destruct (String.eqb name k); simpl; constructor; auto.
Qed.

(** When every object from [base] on holds no address below [base],
    nothing below [base] can be reached from a value that is new. *)
Lemma reach_new base h v l :
  (forall m o, base <= m -> nth_error h m = Some o ->
               Forall (isNewFrom base) (heldValues o)) ->
  reach h v l -> isNewFrom base v -> base <= l.
Proof.
  intros Hh Hr. induction Hr as [l | l props k v l' Hl Hin Hr IH | l elems v l' Hl Hin Hr IH];
    simpl; intros Hv.
  - exact Hv.
  - apply IH. pose proof (Hh l _ Hv Hl) as Hall. simpl in Hall.
    rewrite Forall_forall in Hall. apply Hall.
    apply in_map_iff. exists (k, v). auto.
  - apply IH. pose proof (Hh l _ Hv Hl) as Hall. simpl in Hall.
    rewrite Forall_forall in Hall. now apply Hall.
Qed.

(** What [JSON.stringify] returns is JSON data. *)
Lemma stringifyS_isJSON fuel h :
  forall v j, stringifyS fuel h v = Some j -> isJSON j = true.
Proof.
  induction fuel as [|fuel IH]; intros v j.
  - destruct v; simpl; intros H; inversion H; reflexivity.
  - destruct v as [| | | |l]; simpl; try (intros H; inversion H; reflexivity).
    destruct (nth_error h l) as [[props|elems|bytes]|]; try discriminate.
    + match goal with
      | |- option_map VObj (?e props) = _ -> _ =>
          assert (Hf : forall r, e props = Some r ->
                                 forallb (fun kv => isJSON (snd kv)) r = true)
      end.
      { induction props as [|[k x] props IHp]; intros r Hr.
        - inversion Hr. reflexivity.
        - destruct (stringifyS fuel h x) as [jx|] eqn:Ex; [|discriminate].
          match type of Hr with
          | match ?t with _ => _ end = _ => destruct t as [r'|] eqn:Er
          end; [|discriminate].
          inversion Hr. subst r. simpl.
          now rewrite (IH _ _ Ex), (IHp r' eq_refl). }
      match goal with
      | |- option_map VObj ?t = _ -> _ => destruct t as [r|]
      end; [|discriminate].
      intros H. inversion H. simpl. now apply Hf.
    + match goal with
      | |- option_map VArr (?e elems) = _ -> _ =>
          assert (Hf : forall r, e elems = Some r -> forallb isJSON r = true)
      end.
      { induction elems as [|x elems IHp]; intros r Hr.
        - inversion Hr. reflexivity.
        - destruct (stringifyS fuel h x) as [jx|] eqn:Ex; [|discriminate].
          match type of Hr with
          | match ?t with _ => _ end = _ => destruct t as [r'|] eqn:Er
          end; [|discriminate].
          inversion Hr. subst r. simpl.
          now rewrite (IH _ _ Ex), (IHp r' eq_refl). }
      match goal with
      | |- option_map VArr ?t = _ -> _ => destruct t as [r|]
      end; [|discriminate].
      intros H. inversion H. simpl. now apply Hf.
    + intros H. inversion H. simpl.
      assert (Hb : forallb isJSON (map byteToNum bytes) = true).
      { clear. induction bytes as [|b bytes IHb]; simpl; auto. }
      now rewrite Hb.
Qed.

Lemma parseS_extends j h : exists ext, snd (parseS j h) = h ++ ext.
Proof. destruct (parseS_new j h) as [ext [E _]]. eauto. Qed.

(** The value [JSON.parse] returns prints as the text it was parsed
    from. *)
Lemma parseS_stringifyS j :
  isJSON j = true -> forall h, printsBack j h.
Proof.
  induction j as [ | b | z | s | l IH | fields IH | bytes ] using value_ind';
    intros Hj h hx fuel Hfuel Hx; try discriminate;
    try (destruct fuel; reflexivity).
  - (* arrays *)
    simpl in Hj. revert Hfuel Hx. cbn [parseS].
    match goal with
    | |- context [let '(vs, h') := ?e l h in _] =>
        assert (Hel : forall h0,
                  exists ext,
                    snd (e l h0) = h0 ++ ext /\
                    forall hx fuel,
                      List.length ext <= fuel ->
                      (forall a, List.length h0 <= a < List.length (h0 ++ ext) ->
                                 nth_error hx a = nth_error (h0 ++ ext) a) ->
                      (fix elements (es : list sval) : option (list value) :=
                         match es with
                         | [] => Some []
                         | x :: es' =>
                             match stringifyS fuel hx x, elements es' with
                             | Some j, Some r => Some (j :: r)
                             | _, _ => None
                             end
                         end) (fst (e l h0)) = Some l)
    end.
    { clear h hx fuel. induction l as [|x l IHl]; intros h0.
      - exists []. simpl. rewrite app_nil_r. auto.
      - simpl in Hj. apply andb_prop in Hj. destruct Hj as [Hjx Hjl].
        inversion IH as [|? ? IHx IHr]; subst.
        specialize (IHx Hjx h0).
        destruct (parseS_extends x h0) as [ext1 E1].
        destruct (IHl IHr Hjl (h0 ++ ext1)) as [ext2 [E2 Hrest]].
        cbn. destruct (parseS x h0) as [v h1] eqn:Ex. simpl in E1. subst h1.
        match goal with
        | |- context [let '(vs, h2) := ?t in _] => destruct t as [vs h2] eqn:Et
        end.
        simpl in E2, Hrest. subst h2.
        exists (ext1 ++ ext2). simpl. rewrite app_assoc. split; [reflexivity|].
        intros hx fuel Hfuel Hx. rewrite length_app in Hfuel.
        unfold printsBack in IHx. rewrite Ex in IHx. simpl in IHx.
        rewrite (IHx hx fuel).
        + rewrite (Hrest hx fuel); [reflexivity | lia |].
          intros a Ha. apply Hx.
          rewrite !length_app in *. lia.
        + rewrite length_app. lia.
        + intros a Ha. rewrite Hx by (rewrite !length_app in *; lia).
          apply nth_error_app1. lia. }
    destruct (Hel h) as [ext [E Hprint]].
    match goal with
    | |- context [let '(vs, h') := ?t in _] => destruct t as [vs h'] eqn:Et
    end.
    simpl in E, Hprint. subst h'. simpl.
    intros Hfuel Hx. rewrite !length_app in Hfuel. simpl in Hfuel.
    destruct fuel as [|fuel]; [lia|]. simpl.
    rewrite Hx by (rewrite !length_app; simpl; lia).
    rewrite nth_error_app2 by lia. rewrite Nat.sub_diag. simpl.
    rewrite (Hprint hx fuel); [reflexivity | lia |].
    intros a Ha. rewrite Hx by (rewrite !length_app in *; simpl; lia).
    apply nth_error_app1. lia.
  - (* objects *)
    simpl in Hj. revert Hfuel Hx. cbn [parseS].
    match goal with
    | |- context [let '(ps, h') := ?e fields h in _] =>
        assert (Hel : forall h0,
                  exists ext,
                    snd (e fields h0) = h0 ++ ext /\
                    forall hx fuel,
                      List.length ext <= fuel ->
                      (forall a, List.length h0 <= a < List.length (h0 ++ ext) ->
                                 nth_error hx a = nth_error (h0 ++ ext) a) ->
                      (fix fields (ps : list (string * sval))
                         : option (list (string * value)) :=
                         match ps with
                         | [] => Some []
                         | (k, x) :: ps' =>
                             match stringifyS fuel hx x, fields ps' with
                             | Some j, Some r => Some ((k, j) :: r)
                             | _, _ => None
                             end
                         end) (fst (e fields h0)) = Some fields)
    end.
    { clear h hx fuel. induction fields as [|[k x] fields IHl]; intros h0.
      - exists []. simpl. rewrite app_nil_r. auto.
      - simpl in Hj. apply andb_prop in Hj. destruct Hj as [Hjx Hjl].
        inversion IH as [|? ? IHx IHr]; subst. simpl in IHx.
        specialize (IHx Hjx h0).
        destruct (parseS_extends x h0) as [ext1 E1].
        destruct (IHl IHr Hjl (h0 ++ ext1)) as [ext2 [E2 Hrest]].
        cbn. destruct (parseS x h0) as [v h1] eqn:Ex. simpl in E1. subst h1.
        match goal with
        | |- context [let '(ps, h2) := ?t in _] => destruct t as [ps h2] eqn:Et
        end.
        simpl in E2, Hrest. subst h2.
        exists (ext1 ++ ext2). simpl. rewrite app_assoc. split; [reflexivity|].
        intros hx fuel Hfuel Hx. rewrite length_app in Hfuel.
        unfold printsBack in IHx. rewrite Ex in IHx. simpl in IHx.
        rewrite (IHx hx fuel).
        + rewrite (Hrest hx fuel); [reflexivity | lia |].
          intros a Ha. apply Hx.
          rewrite !length_app in *. lia.
        + rewrite length_app. lia.
        + intros a Ha. rewrite Hx by (rewrite !length_app in *; lia).
          apply nth_error_app1. lia. }
    destruct (Hel h) as [ext [E Hprint]].
    match goal with
    | |- context [let '(ps, h') := ?t in _] => destruct t as [ps h'] eqn:Et
    end.
    simpl in E, Hprint. subst h'. simpl.
    intros Hfuel Hx. rewrite !length_app in Hfuel. simpl in Hfuel.
    destruct fuel as [|fuel]; [lia|]. simpl.
    rewrite Hx by (rewrite !length_app; simpl; lia).
    rewrite nth_error_app2 by lia. rewrite Nat.sub_diag. simpl.
    rewrite (Hprint hx fuel); [reflexivity | lia |].
    intros a Ha. rewrite Hx by (rewrite !length_app in *; simpl; lia).
    apply nth_error_app1. lia.
Qed.

(** The assignment of a clone: the target's property holds a value that
    prints as the source's property did, from which only objects made by the
    clone can be reached; and no object that existed before, the target
    apart, has changed. *)
Lemma assignClone_new source target prop h1 h2 :
  assignClone source target prop h1 = (Ok tt, h2) ->
  exists dstLoc srcContent content text,
    target = Some (SRef dstLoc) /\
    readProp source prop h1 = (Ok (Some srcContent), h1) /\
    stringifyS (S (List.length h1)) h1 srcContent = Some text /\
    readProp target prop h2 = (Ok (Some content), h2) /\
    (dstLoc < List.length h1 ->
     stringifyS (S (List.length h2)) h2 content = Some text) /\
    (forall l, reach h2 content l -> List.length h1 <= l) /\
    (forall m o, nth_error h1 m = Some o -> m <> dstLoc -> nth_error h2 m = Some o).
Proof.
  unfold assignClone, bind.
  pose proof (readProp_store source prop h1) as Hs.
  destruct (readProp source prop h1) as [[[v|]|e] ha] eqn:Eread; simpl in Hs;
    subst ha; try (unfold throw; discriminate).
  destruct (stringifyS (S (List.length h1)) h1 v) as [text|] eqn:Etext;
    [|discriminate].
  pose proof (parseS_new text h1) as Hp.
  pose proof (parseS_stringifyS text (stringifyS_isJSON _ _ _ _ Etext) h1) as Hback.
  unfold printsBack in Hback.
  destruct (parseS text h1) as [copied h'].
  destruct Hp as [ext [Eh [Hnew Hext]]]. simpl in Eh, Hnew, Hback. subst h'.
  unfold writeProp.
  destruct target as [[| | | |d]|]; try discriminate.
  destruct (nth_error (h1 ++ ext) d) as [[props| |]|] eqn:Ed; try discriminate.
  intros H. inversion H. subst h2. clear H.
  assert (Hd : d < List.length (h1 ++ ext)).
  { apply nth_error_Some. congruence. }
  exists d, v, copied, text.
  split; [reflexivity|]. split; [reflexivity|]. split; [exact Etext|].
  split; [|split; [|split]].
  - unfold readProp. rewrite nth_error_writeObj_same by exact Hd.
    now rewrite getProp_setProp_same.
  - intros Hold. apply Hback.
    + rewrite length_writeObj. lia.
    + intros l Hl. apply nth_error_writeObj_other. lia.
  - intros l Hr. eapply reach_new; [|exact Hr|exact Hnew].
    intros m o Hm Ho.
    destruct (Nat.eq_dec m d) as [->|Hne].
    + rewrite nth_error_writeObj_same in Ho by exact Hd.
      inversion Ho. subst o. simpl.
      apply Forall_isNewFrom_setProp; [exact Hnew|].
      rewrite nth_error_app2 in Ed by exact Hm.
      apply nth_error_In in Ed. rewrite Forall_forall in Hext.
      apply (Hext _ Ed).
    + rewrite nth_error_writeObj_other in Ho by exact Hne.
      rewrite nth_error_app2 in Ho by exact Hm.
      apply nth_error_In in Ho. rewrite Forall_forall in Hext.
      apply (Hext _ Ho).
  - intros m o Ho Hne.
    rewrite nth_error_writeObj_other by exact Hne.
    rewrite nth_error_app1; [exact Ho|].
    apply nth_error_Some. congruence.
Qed.

(** Well-formed stores: the operations keep every address they store
    that of an object, and hand back such addresses only. *)
Lemma validIn_mono h h' v :
  validIn h v = true -> List.length h <= List.length h' -> validIn h' v = true.
Proof.
  destruct v; simpl; auto. intros H Hle.
  apply Nat.ltb_lt in H. apply Nat.ltb_lt. lia.
Qed.

Lemma validOpt_mono h h' o :
  validOpt h o = true -> List.length h <= List.length h' -> validOpt h' o = true.
Proof. destruct o; simpl; auto. apply validIn_mono. Qed.

Lemma validIn_length h h' v :
  List.length h = List.length h' -> validIn h v = validIn h' v.
Proof. intros E. destruct v; simpl; try reflexivity. now rewrite E. Qed.

Lemma forallb_validIn_length h h' vs :
  List.length h = List.length h' -> forallb (validIn h) vs = forallb (validIn h') vs.
Proof.
  intros E. induction vs as [|v vs IH]; simpl; auto.
  now rewrite IH, (validIn_length h h' v E).
Qed.

Lemma wellFormed_nth h m o :
  wellFormed h = true -> nth_error h m = Some o ->
  forallb (validIn h) (heldValues o) = true.
Proof.
  unfold wellFormed. rewrite forallb_forall. intros Hwf Ho.
  apply Hwf. eapply nth_error_In; eauto.
Qed.

Lemma wellFormed_getProp h l props name v :
  wellFormed h = true -> nth_error h l = Some (OObject props) ->
  getProp name props = Some v -> validIn h v = true.
Proof.
  intros Hwf Hl Hg. pose proof (wellFormed_nth _ _ _ Hwf Hl) as Hall.
  simpl in Hall. rewrite forallb_forall in Hall. apply Hall.
  clear - Hg. induction props as [|[k x] props IH]; simpl in *; [discriminate|].
  destruct (String.eqb name k); [inversion Hg; auto | auto].
Qed.

Lemma In_writeObj l o h x :
  In x (writeObj l o h) -> x = o \/ In x h.
Proof.
  revert l. induction h as [|o' h IH]; intros [|l]; simpl; auto.
  - intros [H|H]; auto.
  - intros [H|H]; auto. destruct (IH _ H); auto.
Qed.

Lemma wellFormed_writeObj l o h :
  wellFormed h = true -> forallb (validIn h) (heldValues o) = true ->
  wellFormed (writeObj l o h) = true.
Proof.
  unfold wellFormed. intros Hwf Ho. apply forallb_forall. intros x Hx.
  rewrite forallb_forall in Hwf.
  rewrite (forallb_validIn_length _ h) by apply length_writeObj.
  destruct (In_writeObj _ _ _ _ Hx) as [->|Hin]; auto.
Qed.

Lemma forallb_validIn_setProp h name v props :
  validIn h v = true ->
  forallb (validIn h) (map snd props) = true ->
  forallb (validIn h) (map snd (setProp name v props)) = true.
Proof.
  intros Hv. induction props as [|[k x] props IH]; simpl; intros H.
  - now rewrite Hv.
  - apply andb_prop in H. destruct H as [Hx Hr].
    destruct (String.eqb name k); simpl.
    + now rewrite Hv, Hr.
    + now rewrite Hx, IH.
Qed.

Lemma forallb_validIn_deleteProp h name props :
  forallb (validIn h) (map snd props) = true ->
  forallb (validIn h) (map snd (deleteProp name props)) = true.
Proof.
  induction props as [|[k x] props IH]; simpl; intros H; auto.
  apply andb_prop in H. destruct H as [Hx Hr].
  destruct (String.eqb name k); simpl; auto.
  now rewrite Hx, IH.
Qed.

Lemma forallb_validIn_mono h h' vs :
  List.length h <= List.length h' ->
  forallb (validIn h) vs = true -> forallb (validIn h') vs = true.
Proof.
  intros Hle. rewrite !forallb_forall. intros H x Hx.
  eapply validIn_mono; eauto.
Qed.

Lemma wellFormed_app h ext :
  wellFormed h = true ->
  forallb (fun o => forallb (validIn (h ++ ext)) (heldValues o)) ext = true ->
  wellFormed (h ++ ext) = true.
Proof.
  unfold wellFormed. intros Hwf Hext. rewrite forallb_app, Hext, andb_true_r.
  rewrite forallb_forall in *. intros o Ho.
  eapply forallb_validIn_mono; [|apply Hwf; exact Ho].
  rewrite length_app. lia.
Qed.

Lemma ok_ret {A : Type} (a : A) (Q : A -> store -> Prop) h :
  Q a h -> okM (ret a) Q h.
Proof.
  intros HQ Hwf. unfold ret. simpl. split; [exact Hwf|]. split; [lia|].
  intros a' H. injection H as <-. exact HQ.
Qed.

Lemma ok_throw {A : Type} e (Q : A -> store -> Prop) h :
  okM (throw e) Q h.
Proof.
  intros Hwf. unfold throw. simpl. split; [exact Hwf|]. split; [lia|].
  intros a' H. discriminate.
Qed.

Lemma ok_bind {A B : Type} (m : M A) (f : A -> M B)
    (Q : A -> store -> Prop) (R : B -> store -> Prop) h :
  okM m Q h ->
  (forall a h', wellFormed h' = true -> List.length h <= List.length h' ->
                Q a h' -> okM (f a) R h') ->
  okM (bind m f) R h.
Proof.
  intros Hm Hf Hwf. destruct (Hm Hwf) as [Hwf' [Hle HQ]].
  unfold bind. destruct (m h) as [[a|e] h'] eqn:Em; simpl in *.
  - destruct (Hf a h' Hwf' Hle (HQ a eq_refl) Hwf') as [Hwf2 [Hle2 HR]].
    split; [exact Hwf2|]. split; [lia | exact HR].
  - split; [exact Hwf'|]. split; [exact Hle|]. intros a H. discriminate.
Qed.

Lemma ok_weaken {A : Type} (m : M A) (Q Q' : A -> store -> Prop) h :
  okM m Q h ->
  (forall a h', List.length h <= List.length h' -> Q a h' -> Q' a h') ->
  okM m Q' h.
Proof.
  intros Hm Himp Hwf. destruct (Hm Hwf) as [Hwf' [Hle HQ]].
  split; [exact Hwf'|]. split; [exact Hle|].
  intros a Ha. apply Himp; auto.
Qed.

Lemma ok_readProp o name h :
  okM (readProp o name) (fun r h' => h' = h /\ validOpt h' r = true) h.
Proof.
  intros Hwf. pose proof (readProp_store o name h) as Hs.
  rewrite Hs. split; [exact Hwf|]. split; [lia|].
  intros r Hr. split; [reflexivity|].
  unfold readProp in Hr. destruct o as [[| | | |l]|]; simpl in Hr;
    try discriminate; try (inversion Hr; reflexivity).
  destruct (nth_error h l) as [[props| |]|] eqn:El; simpl in Hr;
    try discriminate; try (inversion Hr; reflexivity).
  inversion Hr. destruct (getProp name props) as [v|] eqn:Eg; [|reflexivity].
  simpl. eapply wellFormed_getProp; eauto.
Qed.

Lemma ok_writeProp o name v h :
  validIn h v = true ->
  okM (writeProp o name v) (fun _ h' => List.length h' = List.length h) h.
Proof.
  intros Hv Hwf. unfold writeProp.
  destruct o as [[| | | |l]|]; simpl; try (split; [exact Hwf|]; split; [lia|]; discriminate).
  destruct (nth_error h l) as [[props| |]|] eqn:El; simpl;
    try (split; [exact Hwf|]; split; [lia|]; discriminate).
  split; [|split].
  - apply wellFormed_writeObj; [exact Hwf|]. simpl.
    apply forallb_validIn_setProp; [exact Hv|].
    exact (wellFormed_nth _ _ _ Hwf El).
  - rewrite length_writeObj. lia.
  - intros _ _. apply length_writeObj.
Qed.

Lemma ok_removeProp o name h :
  okM (removeProp o name) (fun _ h' => List.length h' = List.length h) h.
Proof.
  intros Hwf. unfold removeProp.
  destruct o as [[| | | |l]|]; simpl;
    try (split; [exact Hwf|]; split; [lia|]; intros; reflexivity).
  destruct (nth_error h l) as [[props| |]|] eqn:El; simpl;
    try (split; [exact Hwf|]; split; [lia|]; intros; reflexivity).
  split; [|split].
  - apply wellFormed_writeObj; [exact Hwf|]. simpl.
    apply forallb_validIn_deleteProp.
    exact (wellFormed_nth _ _ _ Hwf El).
  - rewrite length_writeObj. lia.
  - intros _ _. apply length_writeObj.
Qed.

Lemma ok_alloc o h :
  forallb (validIn (h ++ [o])) (heldValues o) = true ->
  okM (alloc o) (fun l h' => l < List.length h' /\ List.length h' = S (List.length h)) h.
Proof.
  intros Ho Hwf. unfold alloc. simpl. split; [|split].
  - apply wellFormed_app; [exact Hwf|]. simpl. now rewrite Ho.
  - rewrite length_app. lia.
  - intros a Ha. inversion Ha. rewrite length_app. simpl. lia.
Qed.

Lemma validIn_SRef h l : l < List.length h -> validIn h (SRef l) = true.
Proof. intros H. simpl. now apply Nat.ltb_lt. Qed.

Lemma ok_updateTimeMetadata hdr now prop target h :
  okM (updateTimeMetadata hdr now prop target) (fun _ _ => True) h.
Proof.
  unfold updateTimeMetadata.
  eapply ok_bind; [apply ok_readProp|]. intros hm h1 _ _ _.
  eapply ok_bind; [apply ok_readProp|]. intros createdAt h2 _ _ _.
  destruct (truthyS createdAt); [|now apply ok_ret].
  eapply ok_bind; [apply ok_readProp|]. intros tm h3 _ _ _.
  eapply ok_weaken; [apply ok_writeProp; reflexivity|]. auto.
Qed.

Lemma ok_createFileNode hdr now parent name h :
  okM (createFileNode hdr now parent name) (fun _ _ => True) h.
Proof.
  unfold createFileNode.
  eapply ok_bind; [apply ok_alloc; reflexivity|]. intros l1 h1 _ _ [Hl1 E1].
  eapply ok_bind; [apply ok_alloc; reflexivity|]. intros l2 h2 _ _ [Hl2 E2].
  eapply ok_bind.
  { apply ok_alloc. simpl. rewrite length_app. simpl.
    replace (Nat.ltb l1 _) with true by (symmetry; apply Nat.ltb_lt; lia).
    replace (Nat.ltb l2 _) with true by (symmetry; apply Nat.ltb_lt; lia).
    reflexivity. }
  intros n h3 _ _ [Hn E3].
  eapply ok_bind; [apply ok_readProp|]. intros its h4 _ _ [-> _].
  eapply ok_bind; [apply ok_writeProp; now apply validIn_SRef|].
  intros _ h5 _ _ _.
  apply ok_updateTimeMetadata.
Qed.

Lemma ok_createDirectoryNode hdr now root name h :
  okM (createDirectoryNode hdr now root name) (fun _ _ => True) h.
Proof.
  unfold createDirectoryNode.
  eapply ok_bind; [apply ok_alloc; reflexivity|]. intros l1 h1 _ _ [Hl1 E1].
  eapply ok_bind; [apply ok_alloc; reflexivity|]. intros l2 h2 _ _ [Hl2 E2].
  eapply ok_bind.
  { apply ok_alloc. simpl. rewrite length_app. simpl.
    replace (Nat.ltb l1 _) with true by (symmetry; apply Nat.ltb_lt; lia).
    replace (Nat.ltb l2 _) with true by (symmetry; apply Nat.ltb_lt; lia).
    reflexivity. }
  intros n h3 _ _ [Hn E3].
  eapply ok_bind; [apply ok_readProp|]. intros its h4 _ _ [-> _].
  eapply ok_bind; [apply ok_writeProp; now apply validIn_SRef|].
  intros _ h5 _ _ _.
  apply ok_updateTimeMetadata.
Qed.

Lemma ok_createTrailingNode hdr now ty nodeName parentNode h :
  okM (createTrailingNode hdr now ty nodeName parentNode)
    (fun r h' => validOpt h' r = true) h.
Proof.
  unfold createTrailingNode.
  eapply ok_bind; [apply ok_readProp|]. intros its h1 _ _ _.
  eapply ok_bind; [apply ok_readProp|]. intros c h2 _ _ _.
  eapply ok_bind.
  { instantiate (1 := fun _ _ => True).
    destruct (truthyS c); [now apply ok_ret|].
    destruct ty; [apply ok_createFileNode | apply ok_createDirectoryNode]. }
  intros _ h3 _ _ _.
  eapply ok_bind; [apply ok_readProp|]. intros its' h4 _ _ _.
  eapply ok_weaken; [apply ok_readProp|]. intros r h5 _ [_ H]. exact H.
Qed.

Lemma ok_loopIteration hdr now ty nodeName isLast continue parentNode h :
  (forall p h', okM (continue p) (fun r h'' => validOpt h'' r = true) h') ->
  okM (loopIteration hdr now ty nodeName isLast continue parentNode)
    (fun r h' => validOpt h' r = true) h.
Proof.
  intros Hc. unfold loopIteration.
  eapply ok_bind; [apply ok_readProp|]. intros its h1 _ _ _.
  eapply ok_bind; [apply ok_readProp|]. intros c h2 _ _ _.
  eapply ok_bind.
  { instantiate (1 := fun _ _ => True).
    destruct (truthyS c); [|now apply ok_ret].
    eapply ok_bind; [apply ok_readProp|]. intros cm h3 _ _ _.
    eapply ok_weaken; [apply ok_removeProp|]. auto. }
  intros _ h3 _ _ _.
  eapply ok_bind; [apply ok_readProp|]. intros pm h4 _ _ _.
  eapply ok_bind.
  { instantiate (1 := fun _ _ => True).
    destruct (typeofObject pm); [|now apply ok_ret].
    eapply ok_weaken; [apply ok_removeProp|]. auto. }
  intros _ h5 _ _ _.
  destruct isLast; [apply ok_createTrailingNode|].
  eapply ok_bind; [apply ok_readProp|]. intros its1 h6 _ _ _.
  eapply ok_bind; [apply ok_readProp|]. intros c1 h7 _ _ _.
  eapply ok_bind.
  { instantiate (1 := fun _ _ => True).
    destruct (truthyS c1); [now apply ok_ret|]. apply ok_createDirectoryNode. }
  intros _ h8 _ _ _.
  eapply ok_bind; [apply ok_readProp|]. intros its2 h9 _ _ _.
  eapply ok_bind; [apply ok_readProp|]. intros next h10 _ _ _.
  apply Hc.
Qed.

Lemma ok_createNodesLoop hdr now ty segs :
  forall p h, okM (createNodesLoop hdr now ty segs p) (fun r h' => validOpt h' r = true) h.
Proof.
  remember (List.length segs) as n eqn:En. revert segs En.
  induction n as [n IH] using lt_wf_ind. intros segs En p h.
  destruct segs as [|s rest]; [apply ok_createTrailingNode|].
  cbn [createNodesLoop].
  destruct (String.eqb s EmptyString).
  - destruct rest as [|s' rest'].
    + apply ok_loopIteration. intros p' h'. apply ok_throw.
    + apply ok_loopIteration. intros p' h'.
      eapply (IH (List.length rest')); [|reflexivity]. subst n. simpl. lia.
  - apply ok_loopIteration. intros p' h'.
    eapply (IH (List.length rest)); [|reflexivity]. subst n. simpl. lia.
Qed.

(** The materialised destination is an object of the store. *)
Lemma createNodesFromPath_valid hdr now ty path h v h' :
  wellFormed h = true ->
  createNodesFromPath hdr now ty path h = (Ok (Some v), h') ->
  wellFormed h' = true /\ List.length h <= List.length h' /\ validIn h' v = true.
Proof.
  intros Hwf E.
  destruct (ok_createNodesLoop hdr now ty (split slash path) (Some hdr) h Hwf)
    as [Hwf' [Hle HQ]].
  unfold createNodesFromPath in E. rewrite E in *. simpl in *.
  split; [exact Hwf'|]. split; [exact Hle|]. exact (HQ _ eq_refl).
Qed.

Lemma nodeIsDirectory_store n h : snd (Store.nodeIsDirectory n h) = h.
Proof.
  unfold Store.nodeIsDirectory, bind.
  pose proof (readProp_store n "items" h) as Hs.
  destruct (readProp n "items" h) as [[its|e] hd]; simpl in Hs; subst hd; reflexivity.
Qed.

Lemma navigateFrom_store segs : forall p h, snd (Store.navigateFrom segs p h) = h.
Proof.
  induction segs as [|s rest IH]; intros p h; [reflexivity|].
  cbn [Store.navigateFrom]. destruct (String.eqb s EmptyString); [apply IH|].
  unfold bind.
  pose proof (readProp_store p "items" h) as Hs.
  destruct (readProp p "items" h) as [[its|e] ha]; simpl in Hs; subst ha; [|reflexivity].
  pose proof (readProp_store its s h) as Hs.
  destruct (readProp its s h) as [[c|e] ha]; simpl in Hs; subst ha; [|reflexivity].
  destruct c as [c|]; [|reflexivity].
  pose proof (nodeIsDirectory_store (Some c) h) as Hs.
  destruct (Store.nodeIsDirectory (Some c) h) as [[isDir|e] ha]; simpl in Hs; subst ha;
    [|reflexivity].
  destruct isDir; apply IH.
Qed.

Lemma ok_navigateFrom segs :
  forall p h, validOpt h p = true ->
    okM (Store.navigateFrom segs p) (fun r h' => validOpt h' r = true) h.
Proof.
  induction segs as [|s rest IH]; intros p h Hp; [now apply ok_ret|].
  cbn [Store.navigateFrom]. destruct (String.eqb s EmptyString); [now apply IH|].
  eapply ok_bind; [apply ok_readProp|]. intros its h1 _ _ [-> _].
  eapply ok_bind; [apply ok_readProp|]. intros c h2 _ _ [-> Hc].
  destruct c as [c|]; [|now apply ok_ret].
  eapply ok_bind.
  { instantiate (1 := fun _ h' => h' = h).
    intros Hwf. rewrite nodeIsDirectory_store. split; [exact Hwf|]. split; [lia|]. auto. }
  intros isDir h3 _ _ ->.
  destruct isDir; now apply IH.
Qed.

(** A lookup leaves the store as it is, and what it returns is a
    primitive value or an object of the store. *)
Lemma getDeepestNode_reads normalize hdr path h :
  wellFormed h = true -> validIn h hdr = true ->
  snd (Store.getDeepestNode normalize hdr path h) = h /\
  forall v, fst (Store.getDeepestNode normalize hdr path h) = Ok (Some v) ->
            validIn h v = true.
Proof.
  intros Hwf Hh. unfold Store.getDeepestNode.
  destruct (String.eqb (normalize path) "/").
  - unfold ret. simpl. split; [reflexivity|]. intros v H. injection H as <-. exact Hh.
  - unfold bind.
    pose proof (navigateFrom_store (split slash (dirname (normalize path))) (Some hdr) h) as Hs.
    destruct (ok_navigateFrom (split slash (dirname (normalize path))) (Some hdr) h Hh Hwf)
      as [_ [_ HQ]].
    destruct (Store.navigateFrom _ (Some hdr) h) as [[parentNode|e] ha]; simpl in Hs;
      subst ha; [|split; [reflexivity | discriminate]].
    destruct (truthyS parentNode); [|split; [reflexivity | discriminate]].
    pose proof (readProp_store parentNode "items" h) as Hs.
    destruct (readProp parentNode "items" h) as [[its|e] ha]; simpl in Hs; subst ha;
      [|split; [reflexivity | discriminate]].
    split; [apply readProp_store|].
    intros v Hv.
    destruct (ok_readProp its (basename (normalize path)) h Hwf) as [_ [_ HR]].
    destruct (HR _ Hv) as [_ H]. rewrite readProp_store in H. exact H.
Qed.

(** In a well-formed store every object reached from an object of the
    store is an object of the store. *)
Lemma reach_valid h v l :
  wellFormed h = true -> reach h v l -> validIn h v = true -> l < List.length h.
Proof.
  intros Hwf Hr.
  induction Hr as [l | l props k v l' Hl Hin Hr IH | l elems v l' Hl Hin Hr IH];
    intros Hv.
  - now apply Nat.ltb_lt.
  - apply IH. pose proof (wellFormed_nth _ _ _ Hwf Hl) as Hall. simpl in Hall.
    rewrite forallb_forall in Hall. apply Hall.
    apply in_map_iff. exists (k, v). auto.
  - apply IH. pose proof (wellFormed_nth _ _ _ Hwf Hl) as Hall. simpl in Hall.
    rewrite forallb_forall in Hall. now apply Hall.
Qed.


End StoreFacts.


(* ================================================================= *)
(** * Further properties of the mixin *)

(** ** Paths *)

Lemma split_hasNoSlash s : Forall (fun x => hasNoSlash x = true) (split slash s).
Proof.
  induction s as [|c s IH]; simpl.
  - repeat constructor.
  - destruct (Ascii.eqb c slash) eqn:E.
    + constructor; [reflexivity | exact IH].
    + destruct (split slash s) as [|h t].
      * repeat constructor. simpl. now rewrite E.
      * inversion IH; subst.
        constructor; [|assumption]. simpl. now rewrite E.
Qed.

Lemma split_plain s : hasNoSlash s = true -> split slash s = [s].
Proof.
  induction s as [|c s IH]; simpl; [reflexivity|].
  intros H. apply andb_prop in H. destruct H as [Hc Hs].
  apply negb_true_iff in Hc. rewrite Hc, (IH Hs). reflexivity.
Qed.

Lemma split_app_slash x rest :
  hasNoSlash x = true ->
  split slash (x ++ String slash rest)%string = x :: split slash rest.
Proof.
  induction x as [|c x IH]; simpl; intros H.
  - reflexivity.
  - apply andb_prop in H. destruct H as [Hc Hx].
    apply negb_true_iff in Hc. rewrite Hc, (IH Hx). reflexivity.
Qed.

Lemma join_cons x l :
  l <> [] -> join (x :: l) = (x ++ String slash (join l))%string.
Proof. unfold join. destruct l; [congruence | reflexivity]. Qed.

Lemma split_join l :
  l <> [] -> Forall (fun x => hasNoSlash x = true) l -> split slash (join l) = l.
Proof.
  induction l as [|x l IH]; [congruence|]. intros _ H. inversion H; subst.
  destruct l as [|y l].
  - unfold join. simpl. now apply split_plain.
  - rewrite join_cons by discriminate.
    rewrite split_app_slash by assumption.
    f_equal. apply IH; [discriminate | assumption].
Qed.

Lemma join_split s : join (split slash s) = s.
Proof.
  induction s as [|c s IH]; [reflexivity|]. simpl.
  destruct (Ascii.eqb c slash) eqn:E.
  - apply Ascii.eqb_eq in E. subst c.
    rewrite join_cons by apply split_nonempty. simpl. now rewrite IH.
  - pose proof (split_nonempty slash s) as Hne.
    destruct (split slash s) as [|h t]; [congruence|].
    rewrite <- IH. unfold join. simpl. now destruct t.
Qed.

Lemma string_app_assoc (a b c : string) :
  ((a ++ b) ++ c)%string = (a ++ (b ++ c))%string.
Proof. induction a as [|ch a IH]; simpl; [reflexivity | now rewrite IH]. Qed.

Lemma join_snoc l x :
  l <> [] -> join (l ++ [x]) = (join l ++ String slash x)%string.
Proof.
  induction l as [|y l IH]; [congruence|]. intros _.
  destruct l as [|z l].
  - reflexivity.
  - change ((y :: z :: l) ++ [x]) with (y :: ((z :: l) ++ [x])).
    rewrite !join_cons by (try discriminate; destruct l; discriminate).
    rewrite IH by discriminate.
    rewrite string_app_assoc. reflexivity.
Qed.

Lemma split_two s :
  hasNoSlash s = false -> exists a b l, split slash s = a :: b :: l.
Proof.
  induction s as [|c s IH]; simpl; [discriminate|].
  destruct (Ascii.eqb c slash) eqn:E; simpl.
  - intros _. pose proof (split_nonempty slash s) as Hne.
    destruct (split slash s) as [|b l]; [congruence|]. now exists EmptyString, b, l.
  - intros H. destruct (IH H) as [a [b [l ->]]]. now exists (String c a), b, l.
Qed.

Lemma hasNoSlash_last l :
  Forall (fun x => hasNoSlash x = true) l -> hasNoSlash (last l EmptyString) = true.
Proof.
  induction l as [|x l IH]; intros H; [reflexivity|].
  inversion H; subst. destruct l; [assumption|]. now apply IH.
Qed.

Lemma Forall_removelast {A : Type} (P : A -> Prop) l :
  Forall P l -> Forall P (removelast l).
Proof.
  induction l as [|x l IH]; intros H; [constructor|].
  inversion H; subst. simpl. destruct l; [constructor|].
  constructor; [assumption | now apply IH].
Qed.

(** X1.  [dirname] and [basename] take a path apart at its last slash:
    the base name has no slash in it; a path with a slash is its directory
    name, a slash and its base name; a path without one is its own base
    name and has the empty directory name. *)
Theorem dirname_basename_decompose (path : string) :
  hasNoSlash (basename path) = true /\
  (if hasNoSlash path
   then dirname path = EmptyString /\ basename path = path
   else (dirname path ++ String slash (basename path))%string = path).
Proof.
  unfold dirname, basename. split.
  - apply hasNoSlash_last, split_hasNoSlash.
  - destruct (hasNoSlash path) eqn:E.
    + rewrite (split_plain _ E). split; reflexivity.
    + destruct (split_two _ E) as [a [b [l Hs]]].
      rewrite <- (join_split path) at 3.
      rewrite (app_removelast_last EmptyString (split_nonempty slash path)) at 3.
      rewrite join_snoc; [reflexivity|].
      rewrite Hs. simpl. discriminate.
Qed.

(** ** Materialising a path and looking it up *)

Lemma navigateFrom_dirname path r p :
  navigateFrom (split slash (dirname path)) r p =
  navigateFrom (removelast (split slash path)) r p.
Proof.
  unfold dirname.
  destruct (removelast (split slash path)) as [|x l] eqn:E; [reflexivity|].
  rewrite split_join; [reflexivity | discriminate |].
  rewrite <- E. apply Forall_removelast, split_hasNoSlash.
Qed.

Lemma getDeepestNode_resolveFrom normalize path bm :
  getDeepestNode normalize path bm =
  if String.eqb (normalize path) "/" then Ok (Some ([], header bm))
  else resolveFrom (split slash (normalize path)) [] (header bm).
Proof.
  unfold getDeepestNode, resolveFrom, navigate, basename.
  now rewrite navigateFrom_dirname.
Qed.

Lemma forallb_filter_id {A : Type} (f : A -> bool) l :
  forallb f l = true -> filter f l = l.
Proof.
  induction l as [|x l IH]; simpl; [reflexivity|].
  intros H. apply andb_prop in H. destruct H as [Hx Hl].
  now rewrite Hx, IH.
Qed.

Lemma pathIsPlain_cases path :
  pathIsPlain path = true ->
  pathNames path <> [] /\
  forallb isNonEmptyString (pathNames path) = true /\
  (split slash path = pathNames path \/
   split slash path = EmptyString :: pathNames path).
Proof.
  unfold pathIsPlain, pathNames.
  destruct (split slash path) as [|s rest]; [discriminate|].
  destruct (String.eqb s EmptyString) eqn:Es.
  - apply String.eqb_eq in Es. subst s. intros H.
    apply andb_prop in H. destruct H as [Hne H].
    change (filter isNonEmptyString (EmptyString :: rest))
      with (filter isNonEmptyString rest).
    rewrite (forallb_filter_id _ _ H).
    split; [now destruct rest|]. split; [exact H | now right].
  - intros H.
    assert (Hall : forallb isNonEmptyString (s :: rest) = true).
    { simpl. unfold isNonEmptyString at 1. now rewrite Es, H. }
    rewrite (forallb_filter_id _ _ Hall).
    split; [discriminate|]. split; [exact Hall | now left].
Qed.

Lemma pathIsPlain_not_root path : pathIsPlain path = true -> String.eqb path "/" = false.
Proof.
  intros H. destruct (String.eqb path "/") eqn:E; [|reflexivity].
  apply String.eqb_eq in E. subst path. discriminate H.
Qed.

Lemma pathIsPlain_not_empty path :
  pathIsPlain path = true -> String.eqb path EmptyString = false.
Proof.
  intros H. destruct (String.eqb path EmptyString) eqn:E; [|reflexivity].
  apply String.eqb_eq in E. subst path. discriminate H.
Qed.

Lemma resolveFrom_leading names r0 p :
  names <> [] -> resolveFrom (EmptyString :: names) r0 p = resolveFrom names r0 p.
Proof.
  destruct names as [|a l]; [congruence|]. intros _. unfold resolveFrom.
  change (removelast (EmptyString :: a :: l)) with (EmptyString :: removelast (a :: l)).
  change (last (EmptyString :: a :: l) EmptyString) with (last (a :: l) EmptyString).
  reflexivity.
Qed.

Lemma createNodesLoop_plain hdr now ty s rest :
  isNonEmptyString s = true ->
  createNodesLoop hdr now ty (s :: rest) =
  loopIteration hdr now ty s (isEmptyList rest) (createNodesLoop hdr now ty rest).
Proof.
  unfold isNonEmptyString. intros H. apply negb_true_iff in H.
  simpl. now rewrite H.
Qed.

Lemma createNodesLoop_leading hdr now ty names :
  names <> [] -> forallb isNonEmptyString names = true ->
  createNodesLoop hdr now ty (EmptyString :: names) = createNodesLoop hdr now ty names.
Proof.
  destruct names as [|s rest]; [congruence|]. intros _ H. simpl in H.
  apply andb_prop in H. destruct H as [Hs _].
  rewrite (createNodesLoop_plain _ _ _ _ _ Hs). reflexivity.
Qed.

Lemma navigateFrom_same_items segs :
  forall r p p',
    items p = items p' ->
    match navigateFrom segs r p, navigateFrom segs r p' with
    | Ok (Some (r1, q)), Ok (Some (r2, q')) => r1 = r2 /\ items q = items q'
    | Ok None, Ok None => True
    | Throw e, Throw e' => e = e'
    | _, _ => False
    end.
Proof.
  induction segs as [|seg rest IH]; intros r p p' Hi; simpl; [now split|].
  destruct (String.eqb seg EmptyString); [now apply IH|].
  rewrite <- Hi. destruct (items p) as [its|] eqn:Ei; [|reflexivity].
  destruct (getProp seg its) as [c|]; [|exact I].
  destruct (nodeIsDirectory c); [|apply IH; congruence].
  destruct (navigateFrom rest (r ++ [seg]) c) as [[[r1 q]|]|e]; auto.
Qed.

Lemma resolveFrom_same_items segs r p p' :
  items p = items p' -> resolveFrom segs r p = resolveFrom segs r p'.
Proof.
  intros Hi. unfold resolveFrom.
  pose proof (navigateFrom_same_items (removelast segs) r p p' Hi) as H.
  destruct (navigateFrom (removelast segs) r p) as [[[r1 q]|]|e];
    destruct (navigateFrom (removelast segs) r p') as [[[r2 q']|]|e'];
    try contradiction; try reflexivity.
  - destruct H as [-> ->]. reflexivity.
  - now subst.
Qed.

Lemma lookupRef_same_items r p p' :
  r <> [] -> items p = items p' -> lookupRef r p = lookupRef r p'.
Proof. destruct r as [|k r]; [congruence|]. intros _ Hi. simpl. now rewrite Hi. Qed.

Lemma resolveFrom_step s s2 rest r0 p :
  isNonEmptyString s = true ->
  resolveFrom (s :: s2 :: rest) r0 p =
  match items p with
  | None => Throw TypeError
  | Some its =>
      match getProp s its with
      | None => Ok None
      | Some c =>
          if nodeIsDirectory c then resolveFrom (s2 :: rest) (r0 ++ [s]) c
          else resolveFrom (s2 :: rest) r0 p
      end
  end.
Proof.
  unfold isNonEmptyString. intros H. apply negb_true_iff in H.
  unfold resolveFrom.
  change (removelast (s :: s2 :: rest)) with (s :: removelast (s2 :: rest)).
  change (last (s :: s2 :: rest) EmptyString) with (last (s2 :: rest) EmptyString).
  simpl navigateFrom. rewrite H.
  destruct (items p) as [its|]; [|reflexivity].
  destruct (getProp s its) as [c|]; [|reflexivity].
  destruct (nodeIsDirectory c); reflexivity.
Qed.

Lemma resolveFrom_single s r0 p :
  resolveFrom [s] r0 p =
  match items p with
  | None => Throw TypeError
  | Some its =>
      match getProp s its with
      | None => Ok None
      | Some c => Ok (Some (r0 ++ [s], c))
      end
  end.
Proof. reflexivity. Qed.

Lemma setProp_setProp_same {A : Type} k (v v' : A) o :
  setProp k v (setProp k v' o) = setProp k v o.
Proof.
  induction o as [|[k0 v0] o IH]; simpl.
  - now rewrite String.eqb_refl.
  - destruct (String.eqb k k0) eqn:E; simpl; rewrite E; [reflexivity|].
    now rewrite IH.
Qed.

(** What one turn of the loop of [createNodesFromPath] makes of the node
    it stands on: the node loses its [deletedAt], and the entry [nodeName]
    of its items becomes the child the loop went through (the old child
    without its [deletedAt], or a new node). *)
Lemma loopIteration_shape hdr now ty s isLast continue n its :
  items n = Some its ->
  exists child res,
    loopIteration hdr now ty s isLast continue n =
      (Node (deleteProp "deletedAt" (metadata n)) (Some (setProp s child its))
            (hashLinks n), res) /\
    if isLast then
      child = match getProp s its with
              | Some c0 => clearDeletedAt c0
              | None => freshNode hdr now ty
              end /\
      res = Ok [s]
    else
      exists r',
        continue (match getProp s its with
                  | Some c0 => clearDeletedAt c0
                  | None => freshNode hdr now Parent
                  end) = (child, r') /\
        res = match r' with Ok r' => Ok (s :: r') | Throw e => Throw e end.
Proof.
  intros Ei. unfold loopIteration. rewrite Ei.
  destruct isLast.
  - unfold createTrailingNode. cbn [items clearDeletedAt setItemsProp setMetadataProp].
    destruct (getProp s its) as [c0|] eqn:Ec.
    + rewrite getProp_setProp_same.
      exists (clearDeletedAt c0), (Ok [s]). split; [|now split].
      destruct n as [m i hl]. reflexivity.
    + rewrite Ec. exists (freshNode hdr now ty), (Ok [s]). split; [|now split].
      destruct n as [m i hl].
      destruct ty; unfold createFileNode, createDirectoryNode; reflexivity.
  - destruct (getProp s its) as [c0|] eqn:Ec.
    + rewrite getProp_setProp_same.
      cbn [items clearDeletedAt setItemsProp setMetadataProp].
      rewrite getProp_setProp_same.
      destruct (continue (clearDeletedAt c0)) as [c' r'] eqn:Ek.
      exists c', (match r' with Ok r' => Ok (s :: r') | Throw e => Throw e end).
      split; [|exists r'; now split].
      rewrite setProp_setProp_same. destruct n as [m i hl]. reflexivity.
    + rewrite Ec. unfold createDirectoryNode.
      cbn [items clearDeletedAt setItemsProp setMetadataProp].
      rewrite getProp_setProp_same.
      change (updateTimeMetadata hdr now "createdAt" (Node [] (Some []) None))
        with (freshNode hdr now Parent).
      destruct (continue (freshNode hdr now Parent)) as [c' r'] eqn:Ek.
      exists c', (match r' with Ok r' => Ok (s :: r') | Throw e => Throw e end).
      split; [|exists r'; now split].
      rewrite setProp_setProp_same. destruct n as [m i hl]. reflexivity.
Qed.

Lemma loopIteration_throws hdr now ty s isLast continue n :
  items n = None ->
  loopIteration hdr now ty s isLast continue n = (n, Throw TypeError).
Proof. intros Ei. unfold loopIteration. now rewrite Ei. Qed.

Lemma items_freshNode hdr now ty :
  items (freshNode hdr now ty) =
  match ty with Child => None | Parent => Some [] end.
Proof. unfold freshNode. rewrite items_stamp. now destruct ty. Qed.

Lemma hashLinks_freshNode hdr now ty :
  hashLinks (freshNode hdr now ty) =
  match ty with Child => Some [] | Parent => None end.
Proof. unfold freshNode. rewrite hashLinks_stamp. now destruct ty. Qed.

Lemma nodeIsDeleted_freshNode hdr now ty : nodeIsDeleted (freshNode hdr now ty) = false.
Proof.
  unfold freshNode. rewrite nodeIsDeleted_stamp by discriminate. now destruct ty.
Qed.

Lemma items_clearDeletedAt n : items (clearDeletedAt n) = items n.
Proof. reflexivity. Qed.

Lemma hashLinks_clearDeletedAt n : hashLinks (clearDeletedAt n) = hashLinks n.
Proof. reflexivity. Qed.

(** The loop on the names of a plain path: when it returns, the
    reference it returns is the list of the names, the node there is the
    one that was there before, without its [deletedAt], or a new one, and
    the lookup of [getDeepestNode] finds by these names what is there, after
    the loop and before it. *)
Lemma createNodesLoop_spec hdr now ty names :
  names <> [] -> forallb isNonEmptyString names = true ->
  forall n n' r,
    createNodesLoop hdr now ty names n = (n', Ok r) ->
    r = names /\
    nodeIsDirectory n = true /\
    nodeIsDirectory n' = true /\
    lookupRef names n' =
      Some (match lookupRef names n with
            | Some c => clearDeletedAt c
            | None => freshNode hdr now ty
            end) /\
    (forall r0, resolveFrom names r0 n' =
       Ok (match lookupRef names n' with
           | Some c => Some (r0 ++ names, c)
           | None => None
           end)) /\
    (forall r0, resolveFrom names r0 n =
       Ok (match lookupRef names n with
           | Some c => Some (r0 ++ names, c)
           | None => None
           end)).
Proof.
  induction names as [|s rest IH]; [congruence|].
  intros _ Hall n n' r. simpl in Hall. apply andb_prop in Hall.
  destruct Hall as [Hs Hrest].
  rewrite (createNodesLoop_plain _ _ _ _ _ Hs).
  destruct (items n) as [its|] eqn:Ei;
    [|rewrite loopIteration_throws by exact Ei; discriminate].
  destruct (loopIteration_shape hdr now ty s (isEmptyList rest)
              (createNodesLoop hdr now ty rest) n its Ei)
    as [child [res [Eloop Hres]]].
  rewrite Eloop. intros H. inversion H. subst n' res. clear H Eloop.
  assert (Hdir : nodeIsDirectory n = true) by (unfold nodeIsDirectory; now rewrite Ei).
  destruct rest as [|s2 rest].
  - simpl in Hres. destruct Hres as [Hchild Hr]. inversion Hr. subst r.
    split; [reflexivity|]. split; [exact Hdir|]. split; [reflexivity|].
    assert (Hl : lookupRef [s]
                   (Node (deleteProp "deletedAt" (metadata n))
                      (Some (setProp s child its)) (hashLinks n)) = Some child).
    { simpl. now rewrite getProp_setProp_same. }
    split; [|split].
    + rewrite Hl, Hchild. simpl. rewrite Ei. now destruct (getProp s its).
    + intros r0. rewrite Hl, resolveFrom_single. simpl.
      now rewrite getProp_setProp_same.
    + intros r0. rewrite resolveFrom_single. simpl. rewrite Ei.
      now destruct (getProp s its).
  - simpl in Hres. destruct Hres as [r' [Econt Hr]].
    destruct r' as [r'|e]; [|discriminate]. inversion Hr. subst r. clear Hr.
    destruct (IH ltac:(discriminate) Hrest _ _ _ Econt)
      as [-> [Hcdir [Hchilddir [Hlook [Hnew Hold]]]]].
    split; [reflexivity|]. split; [exact Hdir|]. split; [reflexivity|].
    assert (Hl : lookupRef (s :: s2 :: rest)
                   (Node (deleteProp "deletedAt" (metadata n))
                      (Some (setProp s child its)) (hashLinks n)) =
                 lookupRef (s2 :: rest) child).
    { cbn [lookupRef items]. now rewrite getProp_setProp_same. }
    assert (Hl0 : lookupRef (s :: s2 :: rest) n =
                  match getProp s its with
                  | Some c0 => lookupRef (s2 :: rest) c0
                  | None => None
                  end).
    { cbn [lookupRef]. now rewrite Ei. }
    split; [|split].
    + rewrite Hl, Hlook, Hl0.
      destruct (getProp s its) as [c0|].
      * rewrite (lookupRef_same_items (s2 :: rest) (clearDeletedAt c0) c0);
          [reflexivity | discriminate | reflexivity].
      * cbn [lookupRef]. rewrite items_freshNode. reflexivity.
    + intros r0. rewrite Hl, (resolveFrom_step _ _ _ _ _ Hs).
      cbn [items]. rewrite getProp_setProp_same, Hchilddir, Hnew.
      destruct (lookupRef (s2 :: rest) child); [|reflexivity].
      now rewrite <- app_assoc.
    + intros r0. rewrite Hl0, (resolveFrom_step _ _ _ _ _ Hs), Ei.
      destruct (getProp s its) as [c0|]; [|reflexivity].
      change (nodeIsDirectory (clearDeletedAt c0)) with (nodeIsDirectory c0) in Hcdir.
      rewrite Hcdir.
      rewrite <- (resolveFrom_same_items (s2 :: rest) (r0 ++ [s])
                    (clearDeletedAt c0) c0 eq_refl), Hold.
      rewrite (lookupRef_same_items (s2 :: rest) (clearDeletedAt c0) c0);
        [|discriminate | reflexivity].
      destruct (lookupRef (s2 :: rest) c0); [|reflexivity].
      now rewrite <- app_assoc.
Qed.

Lemma createNodesFromPath_spec normalize now ty p path bm bm' r :
  normalize path = p ->
  pathIsPlain p = true ->
  createNodesFromPath now ty p bm = (bm', Ok r) ->
  r = pathNames p /\
  templateKeySSI bm' = templateKeySSI bm /\
  nodeIsDirectory (header bm) = true /\
  nodeAt (pathNames p) bm' =
    Some (match nodeAt (pathNames p) bm with
          | Some c => clearDeletedAt c
          | None => freshNode (header bm) now ty
          end) /\
  getDeepestNode normalize path bm' =
    Ok (match nodeAt (pathNames p) bm' with
        | Some c => Some (pathNames p, c)
        | None => None
        end) /\
  getDeepestNode normalize path bm =
    Ok (match nodeAt (pathNames p) bm with
        | Some c => Some (pathNames p, c)
        | None => None
        end).
Proof.
  intros Hnorm Hplain. unfold createNodesFromPath, nodeAt.
  destruct (pathIsPlain_cases p Hplain) as [Hne [Hall Hsplit]].
  rewrite !getDeepestNode_resolveFrom, Hnorm, (pathIsPlain_not_root p Hplain).
  assert (Hloop : createNodesLoop (header bm) now ty (split slash p) =
                  createNodesLoop (header bm) now ty (pathNames p)).
  { destruct Hsplit as [-> | ->]; [reflexivity|].
    now apply createNodesLoop_leading. }
  assert (Hres : forall r0 x, resolveFrom (split slash p) r0 x =
                              resolveFrom (pathNames p) r0 x).
  { intros r0 x. destruct Hsplit as [-> | ->]; [reflexivity|].
    now apply resolveFrom_leading. }
  rewrite Hloop, !Hres.
  destruct (createNodesLoop (header bm) now ty (pathNames p) (header bm))
    as [h res] eqn:El.
  intros H. inversion H. subst bm' res. clear H. cbn [header withHeader templateKeySSI].
  destruct (createNodesLoop_spec _ _ _ _ Hne Hall _ _ _ El)
    as [Hr [Hdir [_ [Hlook [Hnew Hold]]]]].
  split; [exact Hr|]. split; [reflexivity|]. split; [exact Hdir|].
  split; [exact Hlook|]. split; [apply (Hnew []) | apply (Hold [])].
Qed.

(** ** Mutating the node a path resolves to *)

Lemma navigateFrom_extends segs :
  forall r p r1 q, navigateFrom segs r p = Ok (Some (r1, q)) -> exists t, r1 = r ++ t.
Proof.
  induction segs as [|seg rest IH]; intros r p r1 q; simpl.
  - intros H. inversion H. exists []. now rewrite app_nil_r.
  - destruct (String.eqb seg EmptyString); [apply IH|].
    destruct (items p) as [its|]; [|discriminate].
    destruct (getProp seg its) as [c|]; [|discriminate].
    destruct (nodeIsDirectory c); [|apply IH].
    intros H. destruct (IH _ _ _ _ H) as [t ->].
    exists (seg :: t). now rewrite <- app_assoc.
Qed.

Lemma isPrefix_longer r k : isPrefix (r ++ [k]) r = false.
Proof.
  induction r as [|x r IH]; simpl; [reflexivity|].
  now rewrite IH, andb_false_r.
Qed.

(** [navigate] ends at the same reference when a node it does not walk
    through is changed into a node of the same kind. *)
Lemma navigateFrom_updateRef_kind f segs :
  forall r0 p s t q,
    navigateFrom segs r0 p = Ok (Some (r0 ++ t, q)) ->
    isPrefix s t = false ->
    (forall x, lookupRef s p = Some x -> nodeIsDirectory (f x) = nodeIsDirectory x) ->
    exists q', navigateFrom segs r0 (updateRef s f p) = Ok (Some (r0 ++ t, q')).
Proof.
  induction segs as [|seg rest IH]; intros r0 p s t q; simpl.
  - intros H _ _. injection H as Hr Hq.
    assert (Ht : t = []) by (apply (app_inv_head r0); now rewrite app_nil_r).
    subst t. rewrite app_nil_r. eexists. reflexivity.
  - destruct (String.eqb seg EmptyString); [apply IH|].
    destruct s as [|k s]; [intros _ H; discriminate H|].
    destruct (items p) as [its|] eqn:Ei; [|discriminate].
    destruct (getProp seg its) as [c|] eqn:Ec; [|discriminate].
    intros Hnav Hpre Hkind.
    assert (Hsame : forall ck, getProp k its = Some ck ->
              setItemsProp (setProp k (updateRef s f ck) its) p =
              updateRef (k :: s) f p).
    { intros ck Hck. simpl. now rewrite Ei, Hck. }
    cbn [updateRef]. rewrite Ei.
    destruct (getProp k its) as [ck|] eqn:Eck.
    + cbn [items setItemsProp].
      destruct (String.eqb k seg) eqn:Ek.
      * apply String.eqb_eq in Ek. subst k.
        rewrite getProp_setProp_same.
        rewrite Eck in Ec. inversion Ec. subst ck.
        rewrite nodeIsDirectory_updateRef.
        2:{ intros x Hx. apply Hkind. simpl. now rewrite Ei, Eck. }
        destruct (nodeIsDirectory c).
        -- destruct (navigateFrom_extends _ _ _ _ _ Hnav) as [t' Ht].
           rewrite <- app_assoc in Ht. apply app_inv_head in Ht. subst t.
           simpl in Hpre. rewrite String.eqb_refl in Hpre. simpl in Hpre.
           rewrite app_assoc in Hnav. rewrite app_assoc.
           apply (IH _ _ _ _ _ Hnav Hpre).
           intros x Hx. apply Hkind. simpl. now rewrite Ei, Eck.
        -- rewrite (Hsame _ eq_refl). apply (IH _ _ _ _ _ Hnav Hpre Hkind).
      * apply String.eqb_neq in Ek.
        rewrite getProp_setProp_other by exact Ek. rewrite Ec.
        destruct (nodeIsDirectory c).
        -- eexists. exact Hnav.
        -- rewrite (Hsame _ eq_refl). apply (IH _ _ _ _ _ Hnav Hpre Hkind).
    + rewrite Ei, Ec. destruct (nodeIsDirectory c); eexists; exact Hnav.
Qed.

(** A mutation that leaves the node of a path a node of the same kind
    does not change what the path resolves to. *)
Lemma getDeepestNode_mutateAt_kind normalize path bm r n f :
  getDeepestNode normalize path bm = Ok (Some (r, n)) ->
  nodeIsDirectory (f n) = nodeIsDirectory n ->
  getDeepestNode normalize path (mutateAt r f bm) = Ok (Some (r, f n)).
Proof.
  intros Hg Hkind.
  pose proof (getDeepestNode_sound _ _ _ _ _ Hg) as Hat.
  pose proof (nodeAt_mutateAt r f bm n Hat) as Hat'.
  revert Hg. unfold getDeepestNode.
  destruct (String.eqb (normalize path) "/").
  - intros H. inversion H. subst. reflexivity.
  - unfold navigate.
    destruct (navigateFrom (split slash (dirname (normalize path))) [] (header bm))
      as [[[r1 q]|]|e] eqn:E1; try discriminate.
    destruct (items q) as [its|] eqn:Ei; try discriminate.
    destruct (getProp (basename (normalize path)) its) as [c|] eqn:Ec;
      try discriminate.
    intros H. inversion H. subst r c. clear H.
    destruct (navigateFrom_updateRef_kind f _ [] (header bm)
                (r1 ++ [basename (normalize path)]) r1 q E1
                (isPrefix_longer _ _)) as [q' E2].
    { intros x Hx. unfold nodeAt in Hat. rewrite Hat in Hx. inversion Hx.
      subst x. exact Hkind. }
    cbn [header mutateAt withHeader]. simpl app in E2. rewrite E2.
    pose proof (navigateFrom_sound _ _ [] _ _ _ eq_refl E2) as Hq'.
    unfold nodeAt in Hat'. simpl in Hat'.
    rewrite lookupRef_app, Hq' in Hat'.
    destruct (items q') as [its'|]; [|discriminate].
    now rewrite Hat'.
Qed.

Lemma lookupRef_updateRef_diverge f r :
  forall r' n, refsDiverge r r' = true ->
               lookupRef r' (updateRef r f n) = lookupRef r' n.
Proof.
  induction r as [|k r IH]; intros r' n; [discriminate|].
  destruct r' as [|k' r']; [discriminate|]. simpl.
  destruct (items n) as [its|] eqn:Ei; [|now rewrite Ei].
  destruct (getProp k its) as [c|] eqn:Ec; [|now rewrite Ei].
  cbn [items setItemsProp].
  destruct (String.eqb k k') eqn:Ek.
  - apply String.eqb_eq in Ek. subst k'. intros Hd.
    rewrite getProp_setProp_same, Ec. now apply IH.
  - intros _. apply String.eqb_neq in Ek.
    now rewrite getProp_setProp_other.
Qed.

Lemma nodeAt_mutateAt_diverge f r r' bm :
  refsDiverge r r' = true -> nodeAt r' (mutateAt r f bm) = nodeAt r' bm.
Proof. intros H. unfold nodeAt, mutateAt. simpl. now apply lookupRef_updateRef_diverge. Qed.

(** ** What materialising a path keeps *)

Lemma deleteProp_idem {A : Type} k (o : list (string * A)) :
  deleteProp k (deleteProp k o) = deleteProp k o.
Proof.
  induction o as [|[k0 v0] o IH]; simpl; [reflexivity|].
  destruct (String.eqb k k0) eqn:E; simpl; [exact IH|].
  now rewrite E, IH.
Qed.

Lemma revived_refl c : revived c c.
Proof. unfold revived. auto. Qed.

Lemma revived_trans a b c : revived a b -> revived b c -> revived a c.
Proof.
  unfold revived. intros [H1 [H2 H3]] [H4 [H5 H6]].
  split; [congruence|]. split; [congruence|].
  destruct H3 as [H3|H3], H6 as [H6|H6]; rewrite H6, H3; auto.
  right. apply deleteProp_idem.
Qed.

Lemma revived_clear c : revived c (clearDeletedAt c).
Proof. unfold revived. destruct c. simpl. auto. Qed.

Lemma lookupRef_clear r x c :
  lookupRef r x = Some c ->
  exists d, lookupRef r (clearDeletedAt x) = Some d /\ revived c d.
Proof.
  destruct r as [|k r].
  - simpl. intros H. inversion H. subst. eexists. split; [reflexivity|].
    apply revived_clear.
  - intros H. exists c. split; [|apply revived_refl].
    rewrite (lookupRef_same_items (k :: r) (clearDeletedAt x) x);
      [exact H | discriminate | reflexivity].
Qed.

Lemma loopIteration_keeps hdr now ty s isLast continue n :
  (isLast = false ->
   forall c r' x, lookupRef r' c = Some x ->
     exists x', lookupRef r' (fst (continue c)) = Some x' /\ revived x x') ->
  forall r' x, lookupRef r' n = Some x ->
    exists x', lookupRef r' (fst (loopIteration hdr now ty s isLast continue n)) = Some x' /\
               revived x x'.
Proof.
  intros Hcont r' x Hx.
  destruct (items n) as [its|] eqn:Ei.
  2:{ rewrite loopIteration_throws by exact Ei. exists x. split; [exact Hx|].
      apply revived_refl. }
  destruct (loopIteration_shape hdr now ty s isLast continue n its Ei)
    as [child [res [Eloop Hres]]].
  rewrite Eloop. cbn [fst].
  destruct r' as [|k t].
  - simpl in Hx. inversion Hx. subst x. eexists. split; [reflexivity|].
    unfold revived, nodeIsDirectory. cbn [hashLinks items metadata].
    rewrite Ei. auto.
  - cbn [lookupRef items] in *. rewrite Ei in Hx.
    destruct (getProp k its) as [ck|] eqn:Eck; [|discriminate].
    destruct (String.eqb s k) eqn:Esk.
    + apply String.eqb_eq in Esk. subst k.
      rewrite getProp_setProp_same. rewrite Eck in Hres.
      destruct (lookupRef_clear _ _ _ Hx) as [d [Hd Hrev]].
      destruct isLast.
      * destruct Hres as [-> _]. now exists d.
      * destruct Hres as [r'' [Ek _]].
        destruct (Hcont eq_refl _ _ _ Hd) as [x' [Hx' Hrev']].
        rewrite Ek in Hx'. exists x'. split; [exact Hx'|].
        eapply revived_trans; eauto.
    + apply String.eqb_neq in Esk.
      rewrite getProp_setProp_other by exact Esk. rewrite Eck.
      exists x. split; [exact Hx | apply revived_refl].
Qed.

Lemma createNodesLoop_keeps hdr now ty segs :
  segs <> [] ->
  forall n r' x, lookupRef r' n = Some x ->
    exists x', lookupRef r' (fst (createNodesLoop hdr now ty segs n)) = Some x' /\
               revived x x'.
Proof.
  apply (createNodesLoop_ind
           (fun _ f => forall n r' x, lookupRef r' n = Some x ->
              exists x', lookupRef r' (fst (f n)) = Some x' /\ revived x x')).
  intros name isLast continue Hc _ n.
  apply loopIteration_keeps. intros E.
  destruct (Hc E) as [rest [_ [_ H]]]. exact H.
Qed.

Lemma createNodesFromPath_keeps now ty path bm r c :
  nodeAt r bm = Some c ->
  exists c', nodeAt r (fst (createNodesFromPath now ty path bm)) = Some c' /\
             revived c c'.
Proof.
  unfold nodeAt, createNodesFromPath. intros H.
  destruct (createNodesLoop_keeps (header bm) now ty (split slash path)
              (split_nonempty _ _) (header bm) r c H) as [c' [Hc' Hrev]].
  destruct (createNodesLoop _ _ _ _ _) as [h res]. now exists c'.
Qed.

(** X2.  After [createNodesFromPath] has returned for a path without
    empty segments, [getDeepestNode] resolves the path to the node that was
    returned: the reference is the list of the path's names, the node is
    not tombstoned, and it is the node that was there before, without its
    [deletedAt], or a new node when there was none. *)
Theorem createNodesFromPath_then_getDeepestNode (normalize : string -> string)
    now ty path bm bm' r :
  pathIsPlain (normalize path) = true ->
  createNodesFromPath now ty (normalize path) bm = (bm', Ok r) ->
  r = pathNames (normalize path) /\
  exists c,
    getDeepestNode normalize path bm' = Ok (Some (r, c)) /\
    nodeIsDeleted c = false /\
    c = match getDeepestNode normalize path bm with
        | Ok (Some (_, c0)) => clearDeletedAt c0
        | _ => freshNode (header bm) now ty
        end.
Proof.
  intros Hplain Hc.
  destruct (createNodesFromPath_spec normalize now ty _ path bm bm' r
              eq_refl Hplain Hc) as [Hr [_ [_ [Hat [Hnew Hold]]]]].
  split; [exact Hr|]. rewrite Hnew, Hold, Hat, Hr.
  eexists. split; [reflexivity|]. split.
  - destruct (nodeAt (pathNames (normalize path)) bm).
    + apply nodeIsDeleted_clear.
    + apply nodeIsDeleted_freshNode.
  - now destruct (nodeAt (pathNames (normalize path)) bm).
Qed.

Lemma createNodesFromPath_then_getDeepestNode_witness :
  exists c,
    getDeepestNode pskNormalize "/x/y"
      (fst (createNodesFromPath "t1" Parent (pskNormalize "/x/y") freshMap)) =
      Ok (Some (["x"; "y"], c)) /\
    nodeIsDeleted c = false.
Proof.
  destruct (createNodesFromPath_then_getDeepestNode pskNormalize "t1" Parent "/x/y"
              freshMap
              (fst (createNodesFromPath "t1" Parent (pskNormalize "/x/y") freshMap))
              ["x"; "y"] eq_refl eq_refl) as [_ [c [H1 [H2 _]]]].
  exists c. split; [exact H1 | exact H2].
Defined.

(** X3.  [createNodesFromPath] never removes or replaces a node: whether
    it returns or throws, every node of the map is still there afterwards
    under the same reference, as a node of the same kind with the same
    bricks, and its metadata is as before or has lost its [deletedAt]
    entry. *)
Theorem createNodesFromPath_keeps_nodes now ty path bm r c :
  nodeAt r bm = Some c ->
  exists c',
    nodeAt r (fst (createNodesFromPath now ty path bm)) = Some c' /\
    hashLinks c' = hashLinks c /\
    nodeIsDirectory c' = nodeIsDirectory c /\
    (metadata c' = metadata c \/
     metadata c' = deleteProp "deletedAt" (metadata c)).
Proof. apply createNodesFromPath_keeps. Qed.

Lemma createNodesFromPath_keeps_nodes_witness :
  exists c',
    nodeAt ["a"; "b"; "file.txt"]
      (fst (createNodesFromPath "t2" Parent "a/b/file.txt/x" mapWithFile)) = Some c' /\
    hashLinks c' = Some [mkBrickRef "c1" "h1" None None] /\
    nodeIsDirectory c' = false.
Proof.
  destruct (createNodesFromPath_keeps_nodes "t2" Parent "a/b/file.txt/x" mapWithFile
              ["a"; "b"; "file.txt"]
              (Node [("createdAt", VStr "t1"); ("updatedAt", VStr "t1")] None
                    (Some [mkBrickRef "c1" "h1" None None]))
              eq_refl) as [c' [H1 [H2 [H3 _]]]].
  exists c'. split; [exact H1|]. split; [exact H2 | exact H3].
Defined.

(** ** Adding bricks *)

Lemma getDeepestNode_normalize normalize p p' bm :
  normalize p = normalize p' ->
  getDeepestNode normalize p bm = getDeepestNode normalize p' bm.
Proof. unfold getDeepestNode. now intros ->. Qed.

Lemma items_clearIfTruthy n : items (clearDeletedAtIfTruthy n) = items n.
Proof.
  unfold clearDeletedAtIfTruthy.
  destruct (getProp "deletedAt" (metadata n)) as [v|]; [|reflexivity].
  now destruct (truthy v).
Qed.

Lemma nodeIsDirectory_items n n' : items n' = items n -> nodeIsDirectory n' = nodeIsDirectory n.
Proof. unfold nodeIsDirectory. now intros ->. Qed.

(** What a successful [add] leaves at a plain path: the path resolves
    by its names to a node that is not tombstoned, with the items that were
    there and the new brick after the bricks that were there. *)
Lemma add_ok normalize now path brick bm bm' :
  pathIsPlain (normalize path) = true ->
  add normalize now path brick bm = (bm', Ok tt) ->
  getDeepestNode normalize path bm =
    Ok (match nodeAt (pathNames (normalize path)) bm with
        | Some c => Some (pathNames (normalize path), c)
        | None => None
        end) /\
  exists c,
    getDeepestNode normalize path bm' = Ok (Some (pathNames (normalize path), c)) /\
    nodeIsDeleted c = false /\
    items c = itemsAt (pathNames (normalize path)) bm /\
    hashLinks c = Some (bricksAt (pathNames (normalize path)) bm ++ [brickObj brick]).
Proof.
  intros Hplain. unfold add. rewrite (pathIsPlain_not_empty _ Hplain).
  destruct (createNodesFromPath now Child (normalize path) bm) as [bm1 [r|e]] eqn:Ec;
    [|discriminate].
  destruct (createNodesFromPath_spec normalize now Child _ path bm bm1 r
              eq_refl Hplain Ec) as [-> [_ [_ [Hat [Hnew Hold]]]]].
  set (names := pathNames (normalize path)) in *.
  set (c1 := match nodeAt names bm with
             | Some c => clearDeletedAt c
             | None => freshNode (header bm) now Child
             end) in *.
  rewrite Hat in Hnew.
  assert (Hlive : nodeIsDeleted c1 = false).
  { unfold c1. destruct (nodeAt names bm);
      [apply nodeIsDeleted_clear | apply nodeIsDeleted_freshNode]. }
  pose proof (getDeepestNode_mutateAt_kind normalize path bm1 names c1
                clearDeletedAtIfTruthy Hnew
                (nodeIsDirectory_items _ _ (items_clearIfTruthy c1))) as H2.
  rewrite (nodeIsDeleted_clearIfTruthy c1 Hlive) in H2.
  rewrite (getDeepestNode_sound _ _ _ _ _ H2).
  unfold appendBrick. rewrite hashLinks_stamp.
  destruct (hashLinks c1) as [hl|] eqn:Ehl; [|discriminate].
  intros H. inversion H. subst bm'. clear H.
  split; [exact Hold|].
  eexists. split; [|split; [|split]].
  - apply (getDeepestNode_mutateAt_kind normalize path _ names c1 (fun _ => _) H2).
    unfold nodeIsDirectory. cbn [items setHashLinksProp]. now rewrite items_stamp.
  - rewrite nodeIsDeleted_setHashLinks, nodeIsDeleted_stamp by discriminate.
    exact Hlive.
  - cbn [items setHashLinksProp]. rewrite items_stamp. unfold itemsAt, c1.
    destruct (nodeAt names bm); [reflexivity|]. now rewrite items_freshNode.
  - cbn [hashLinks setHashLinksProp]. f_equal. f_equal.
    unfold bricksAt. revert Ehl. unfold c1.
    destruct (nodeAt names bm) as [c0|].
    + rewrite hashLinks_clearDeletedAt. now intros ->.
    + rewrite hashLinks_freshNode. intros H. now inversion H.
Qed.

Lemma getBricksMeta_of normalize path bm r c :
  getDeepestNode normalize path bm = Ok (Some (r, c)) ->
  nodeIsDeleted c = false -> items c = None ->
  getBricksMeta normalize path bm = Ok (hashLinks c).
Proof.
  intros Hg Hl Hi. unfold getBricksMeta, nodeIsDirectory. now rewrite Hg, Hi, Hl.
Qed.

Lemma fileExists_of normalize path bm r c :
  getDeepestNode normalize path bm = Ok (Some (r, c)) ->
  fileExists normalize path bm = Ok (Some (negb (nodeIsDeleted c))).
Proof. intros Hg. unfold fileExists. now rewrite Hg. Qed.

Lemma at_missing normalize path bm names :
  getDeepestNode normalize path bm =
    Ok (match nodeAt names bm with Some c => Some (names, c) | None => None end) ->
  getDeepestNode normalize path bm = Ok None ->
  itemsAt names bm = None /\ bricksAt names bm = [].
Proof.
  unfold itemsAt, bricksAt. intros H1 H2. rewrite H2 in H1.
  destruct (nodeAt names bm); [discriminate | now split].
Qed.

Lemma at_present normalize path bm names r n :
  getDeepestNode normalize path bm =
    Ok (match nodeAt names bm with Some c => Some (names, c) | None => None end) ->
  getDeepestNode normalize path bm = Ok (Some (r, n)) ->
  r = names /\ nodeAt names bm = Some n /\
  itemsAt names bm = items n /\
  bricksAt names bm = match hashLinks n with Some hl => hl | None => [] end.
Proof.
  unfold itemsAt, bricksAt. intros H1 H2. rewrite H2 in H1.
  destruct (nodeAt names bm); inversion H1. subst. auto.
Qed.

(** X4.  After [add] has returned for a path without empty segments the
    path names a node that is not tombstoned, and [getBricksMeta] returns
    the new brick object alone when the path resolved to nothing before,
    and after the bricks that were there when it resolved to a file (a
    tombstoned file included). *)
Theorem add_then_getBricksMeta (normalize : string -> string) now path brick bm bm' :
  pathIsPlain (normalize path) = true ->
  add normalize now path brick bm = (bm', Ok tt) ->
  fileExists normalize path bm' = Ok (Some true) /\
  (getDeepestNode normalize path bm = Ok None ->
   getBricksMeta normalize path bm' = Ok (Some [brickObj brick])) /\
  (forall r n hl,
     getDeepestNode normalize path bm = Ok (Some (r, n)) ->
     nodeIsDirectory n = false -> hashLinks n = Some hl ->
     getBricksMeta normalize path bm' = Ok (Some (hl ++ [brickObj brick]))).
Proof.
  intros Hplain Hadd.
  destruct (add_ok _ _ _ _ _ _ Hplain Hadd) as [Hold [c [Hg [Hlive [Hi Hh]]]]].
  split; [|split].
  - rewrite (fileExists_of _ _ _ _ _ Hg), Hlive. reflexivity.
  - intros Hnone. destruct (at_missing _ _ _ _ Hold Hnone) as [Ei Eb].
    rewrite (getBricksMeta_of _ _ _ _ _ Hg Hlive) by congruence.
    now rewrite Hh, Eb.
  - intros r n hl Hsome Hfile Hhl.
    destruct (at_present _ _ _ _ _ _ Hold Hsome) as [_ [_ [Ei Eb]]].
    unfold nodeIsDirectory in Hfile. destruct (items n) eqn:En; [discriminate|].
    rewrite (getBricksMeta_of _ _ _ _ _ Hg Hlive) by congruence.
    now rewrite Hh, Eb, Hhl.
Qed.

Lemma add_then_getBricksMeta_witness :
  getBricksMeta pskNormalize "f"
    (fst (add pskNormalize "t2" "f" brickWithKey mapWithTopFile)) =
  Ok (Some [mkBrickRef "c1" "h1" None None;
            mkBrickRef "c1" "h1" (Some 3%Z) (Some (VBuf [Byte.x01; Byte.xff; Byte.x00]))]).
Proof.
  exact (proj2 (proj2 (add_then_getBricksMeta pskNormalize "t2" "f" brickWithKey
                         mapWithTopFile
                         (fst (add pskNormalize "t2" "f" brickWithKey mapWithTopFile))
                         eq_refl eq_refl))
           ["f"]
           (Node [("createdAt", VStr "t1"); ("updatedAt", VStr "t1")] None
                 (Some [mkBrickRef "c1" "h1" None None]))
           [mkBrickRef "c1" "h1" None None] eq_refl eq_refl eq_refl).
Defined.

(** The loop of [appendBricksToFile]. *)
Lemma addAll_ok normalize now path l :
  l <> [] ->
  forall bm bm',
    pathIsPlain (normalize path) = true ->
    addAll normalize now path l bm = (bm', Ok tt) ->
    getDeepestNode normalize path bm =
      Ok (match nodeAt (pathNames (normalize path)) bm with
          | Some c => Some (pathNames (normalize path), c)
          | None => None
          end) /\
    exists c,
      getDeepestNode normalize path bm' = Ok (Some (pathNames (normalize path), c)) /\
      nodeIsDeleted c = false /\
      items c = itemsAt (pathNames (normalize path)) bm /\
      hashLinks c = Some (bricksAt (pathNames (normalize path)) bm ++ map brickObj l).
Proof.
  induction l as [|b l IH]; [congruence|]. intros _ bm bm' Hplain. simpl.
  destruct (add normalize now path b bm) as [bm1 [[]|e]] eqn:Eadd; [|discriminate].
  destruct (add_ok _ _ _ _ _ _ Hplain Eadd) as [Hold [c1 [Hg1 [Hlive1 [Hi1 Hh1]]]]].
  destruct l as [|b2 l].
  - simpl. intros H. inversion H. subst bm'. split; [exact Hold|]. now exists c1.
  - intros Hall.
    destruct (IH ltac:(discriminate) bm1 bm' Hplain Hall)
      as [Hold1 [c [Hg [Hlive [Hi Hh]]]]].
    split; [exact Hold|]. exists c. split; [exact Hg|]. split; [exact Hlive|].
    destruct (at_present _ _ _ _ _ _ Hold1 Hg1) as [_ [_ [Ei Eb]]].
    split.
    + now rewrite Hi, Ei.
    + rewrite Hh, Eb, Hh1, <- app_assoc. reflexivity.
Qed.

(** X5.  [appendBricksToFile] with at least one brick: after it has
    returned for a path without empty segments, [getBricksMeta] returns the
    brick objects of the given bricks, in their order, after the bricks the
    file held before. *)
Theorem appendBricksToFile_then_getBricksMeta (normalize : string -> string)
    now path bricks bm bm' :
  pathIsPlain (normalize path) = true ->
  bricksOf bricks <> [] ->
  appendBricksToFile normalize now path bricks bm = (bm', Ok tt) ->
  (getDeepestNode normalize path bm = Ok None ->
   getBricksMeta normalize path bm' = Ok (Some (map brickObj (bricksOf bricks)))) /\
  (forall r n hl,
     getDeepestNode normalize path bm = Ok (Some (r, n)) ->
     nodeIsDirectory n = false -> hashLinks n = Some hl ->
     getBricksMeta normalize path bm' =
       Ok (Some (hl ++ map brickObj (bricksOf bricks)))).
Proof.
  intros Hplain Hne Happ. unfold appendBricksToFile in Happ.
  destruct (addAll_ok _ _ _ _ Hne _ _ Hplain Happ) as [Hold [c [Hg [Hlive [Hi Hh]]]]].
  split.
  - intros Hnone. destruct (at_missing _ _ _ _ Hold Hnone) as [Ei Eb].
    rewrite (getBricksMeta_of _ _ _ _ _ Hg Hlive) by congruence.
    now rewrite Hh, Eb.
  - intros r n hl Hsome Hfile Hhl.
    destruct (at_present _ _ _ _ _ _ Hold Hsome) as [_ [_ [Ei Eb]]].
    unfold nodeIsDirectory in Hfile. destruct (items n) eqn:En; [discriminate|].
    rewrite (getBricksMeta_of _ _ _ _ _ Hg Hlive) by congruence.
    now rewrite Hh, Eb, Hhl.
Qed.

Lemma appendBricksToFile_then_getBricksMeta_witness :
  getBricksMeta pskNormalize "a/g"
    (fst (appendBricksToFile pskNormalize "t2" "a/g"
            (BrickArray [brickC1; brickWithKey]) mapWithFile)) =
  Ok (Some [mkBrickRef "c1" "h1" None None;
            mkBrickRef "c1" "h1" (Some 3%Z) (Some (VBuf [Byte.x01; Byte.xff; Byte.x00]))]).
Proof.
  exact (proj1 (appendBricksToFile_then_getBricksMeta pskNormalize "t2" "a/g"
                  (BrickArray [brickC1; brickWithKey]) mapWithFile
                  (fst (appendBricksToFile pskNormalize "t2" "a/g"
                          (BrickArray [brickC1; brickWithKey]) mapWithFile))
                  eq_refl ltac:(discriminate) eq_refl)
           eq_refl).
Defined.

(** ** Truncating and replacing the content of a file *)

Lemma items_truncateNode hdr now n :
  items (truncateNode hdr now n) =
  match items n with Some _ => Some [] | None => None end.
Proof.
  unfold truncateNode, nodeIsDirectory. rewrite items_stamp.
  cbn [items clearDeletedAt setMetadataProp].
  destruct (items n) eqn:Ei; cbn [items setHashLinksProp setItemsProp];
    [reflexivity|].
  now rewrite items_stamp.
Qed.

Lemma hashLinks_truncateNode hdr now n : hashLinks (truncateNode hdr now n) = Some [].
Proof. reflexivity. Qed.

Lemma nodeIsDeleted_truncateNode hdr now n : nodeIsDeleted (truncateNode hdr now n) = false.
Proof.
  unfold truncateNode. rewrite nodeIsDeleted_setHashLinks.
  destruct (nodeIsDirectory _); [rewrite nodeIsDeleted_setItems|];
    rewrite nodeIsDeleted_stamp by discriminate; apply nodeIsDeleted_clear.
Qed.

Lemma nodeIsDirectory_truncateNode hdr now n :
  nodeIsDirectory (truncateNode hdr now n) = nodeIsDirectory n.
Proof.
  unfold nodeIsDirectory. rewrite items_truncateNode. now destruct (items n).
Qed.

Lemma emptyList_ok normalize now path bm r n :
  getDeepestNode normalize path bm = Ok (Some (r, n)) ->
  emptyList normalize now path bm =
    (mutateAt r (truncateNode (header bm) now) bm, Ok tt) /\
  getDeepestNode normalize path (mutateAt r (truncateNode (header bm) now) bm) =
    Ok (Some (r, truncateNode (header bm) now n)).
Proof.
  intros Hg. unfold emptyList. rewrite Hg. split; [reflexivity|].
  apply getDeepestNode_mutateAt_kind; [exact Hg|].
  apply nodeIsDirectory_truncateNode.
Qed.

Lemma addFileEntry_ok normalize now path bricks bm bm' :
  pathIsPlain (normalize path) = true ->
  bricksOf bricks <> [] ->
  addFileEntry normalize now path bricks bm = (bm', Ok tt) ->
  exists c,
    getDeepestNode normalize path bm' = Ok (Some (pathNames (normalize path), c)) /\
    nodeIsDeleted c = false /\
    hashLinks c = Some (map brickObj (bricksOf bricks)) /\
    items c =
      match getDeepestNode normalize path bm with
      | Ok (Some (_, n)) => match items n with Some _ => Some [] | None => None end
      | _ => None
      end.
Proof.
  intros Hplain Hne. unfold addFileEntry, appendBricksToFile.
  assert (Htrunc : forall r n,
            getDeepestNode normalize path bm = Ok (Some (r, n)) ->
            addAll normalize now path (bricksOf bricks)
              (mutateAt r (truncateNode (header bm) now) bm) = (bm', Ok tt) ->
            exists c,
              getDeepestNode normalize path bm' =
                Ok (Some (pathNames (normalize path), c)) /\
              nodeIsDeleted c = false /\
              hashLinks c = Some (map brickObj (bricksOf bricks)) /\
              items c = match items n with Some _ => Some [] | None => None end).
  { intros r n Hg Hall.
    destruct (emptyList_ok normalize now path bm r n Hg) as [_ Hg1].
    destruct (addAll_ok _ _ _ _ Hne _ _ Hplain Hall) as [Hold [c [Hc [Hlive [Hi Hh]]]]].
    destruct (at_present _ _ _ _ _ _ Hold Hg1) as [_ [_ [Ei Eb]]].
    exists c. split; [exact Hc|]. split; [exact Hlive|]. split.
    - now rewrite Hh, Eb, hashLinks_truncateNode.
    - now rewrite Hi, Ei, items_truncateNode. }
  unfold isEmpty.
  destruct (getDeepestNode normalize path bm) as [[[r n]|]|e] eqn:Eg.
  - destruct (items n) as [its|] eqn:Ei.
    + cbn [arrayIsTruthy negb].
      destruct (emptyList_ok normalize now path bm r n Eg) as [-> _].
      intros Hall. destruct (Htrunc r n eq_refl Hall) as [c Hc].
      rewrite Ei in Hc. now exists c.
    + destruct (hashLinks n) as [hl|] eqn:Eh; [|discriminate].
      destruct (Nat.eqb (List.length hl) 0) eqn:El.
      * intros Hall.
        destruct (addAll_ok _ _ _ _ Hne _ _ Hplain Hall)
          as [Hold [c [Hc [Hlive [Hi Hh]]]]].
        destruct (at_present _ _ _ _ _ _ Hold Eg) as [_ [_ [Ei' Eb]]].
        exists c. split; [exact Hc|]. split; [exact Hlive|]. split.
        -- rewrite Hh, Eb, Eh. destruct hl; [reflexivity | discriminate].
        -- now rewrite Hi, Ei'.
      * destruct (emptyList_ok normalize now path bm r n Eg) as [-> _].
        intros Hall. destruct (Htrunc r n eq_refl Hall) as [c Hc].
        rewrite Ei in Hc. now exists c.
  - intros Hall.
    destruct (addAll_ok _ _ _ _ Hne _ _ Hplain Hall) as [Hold [c [Hc [Hlive [Hi Hh]]]]].
    destruct (at_missing _ _ _ _ Hold Eg) as [Ei Eb].
    exists c. split; [exact Hc|]. split; [exact Hlive|]. split.
    + now rewrite Hh, Eb.
    + now rewrite Hi, Ei.
  - discriminate.
Qed.

(** X6.  [addFileEntry] with at least one brick replaces the content:
    after it has returned for a path without empty segments the path names
    a node that is not tombstoned; unless the path named a directory,
    [getBricksMeta] returns exactly the brick objects of the given bricks;
    and when it named a directory, that directory has lost all its entries
    (the emptiness test never holds for a directory, so it is truncated). *)
Theorem addFileEntry_replaces_content (normalize : string -> string)
    (pathJoin : string -> string -> string) now path bricks bm bm' recursive :
  pathIsPlain (normalize path) = true ->
  bricksOf bricks <> [] ->
  addFileEntry normalize now path bricks bm = (bm', Ok tt) ->
  fileExists normalize path bm' = Ok (Some true) /\
  (stat normalize path bm <> Ok DirectoryType ->
   getBricksMeta normalize path bm' = Ok (Some (map brickObj (bricksOf bricks)))) /\
  (stat normalize path bm = Ok DirectoryType ->
   getFileList normalize pathJoin path recursive bm' = Ok [] /\
   getFolderList normalize pathJoin path recursive bm' = Ok []).
Proof.
  intros Hplain Hne Hadd.
  destruct (addFileEntry_ok _ _ _ _ _ _ Hplain Hne Hadd) as [c [Hg [Hlive [Hh Hi]]]].
  split; [|split].
  - rewrite (fileExists_of _ _ _ _ _ Hg), Hlive. reflexivity.
  - intros Hstat.
    assert (Hitems : items c = None).
    { rewrite Hi. unfold stat, nodeIsDirectory in Hstat.
      destruct (getDeepestNode normalize path bm) as [[[r n]|]|e]; try reflexivity.
      destruct (items n); [congruence | reflexivity]. }
    rewrite (getBricksMeta_of _ _ _ _ _ Hg Hlive Hitems). now rewrite Hh.
  - intros Hstat.
    assert (Hitems : items c = Some []).
    { rewrite Hi. unfold stat, nodeIsDirectory in Hstat.
      destruct (getDeepestNode normalize path bm) as [[[r n]|]|e]; try discriminate.
      destruct (items n); [reflexivity | discriminate]. }
    unfold getFileList, getFolderList. rewrite Hg, Hitems. now split.
Qed.

Lemma addFileEntry_replaces_content_witness :
  getBricksMeta pskNormalize "a/b/file.txt"
    (fst (addFileEntry pskNormalize "t2" "a/b/file.txt" (OneBrick brickWithKey)
            mapWithFile)) =
    Ok (Some [mkBrickRef "c1" "h1" (Some 3%Z)
                (Some (VBuf [Byte.x01; Byte.xff; Byte.x00]))]) /\
  getFileList pskNormalize (fun a b => join [a; b]) "a" None
    (fst (addFileEntry pskNormalize "t2" "a" (OneBrick brickC1) mapWithFile)) = Ok [].
Proof.
  split.
  - exact (proj1 (proj2 (addFileEntry_replaces_content pskNormalize
                           (fun a b => join [a; b]) "t2" "a/b/file.txt"
                           (OneBrick brickWithKey) mapWithFile
                           (fst (addFileEntry pskNormalize "t2" "a/b/file.txt"
                                   (OneBrick brickWithKey) mapWithFile))
                           None eq_refl ltac:(discriminate) eq_refl))
             ltac:(discriminate)).
  - exact (proj1 (proj2 (proj2 (addFileEntry_replaces_content pskNormalize
                           (fun a b => join [a; b]) "t2" "a"
                           (OneBrick brickC1) mapWithFile
                           (fst (addFileEntry pskNormalize "t2" "a"
                                   (OneBrick brickC1) mapWithFile))
                           None eq_refl ltac:(discriminate) eq_refl))
             eq_refl)).
Defined.

Lemma replaceBrickWith_ok normalize repl now path bm bm' :
  pathIsPlain (normalize path) = true ->
  replaceBrickWith normalize repl now path bm = (bm', Ok tt) ->
  getDeepestNode normalize path bm =
    Ok (match nodeAt (pathNames (normalize path)) bm with
        | Some c => Some (pathNames (normalize path), c)
        | None => None
        end) /\
  exists c,
    getDeepestNode normalize path bm' = Ok (Some (pathNames (normalize path), c)) /\
    nodeIsDeleted c = false /\
    items c = itemsAt (pathNames (normalize path)) bm /\
    hashLinks c = Some (repl (bricksAt (pathNames (normalize path)) bm)).
Proof.
  intros Hplain. unfold replaceBrickWith, getNodeFromPath.
  rewrite (pathIsPlain_not_empty _ Hplain).
  destruct (createNodesFromPath now Child (normalize path) bm) as [bm1 [r|e]] eqn:Ec;
    [|discriminate].
  destruct (createNodesFromPath_spec normalize now Child _ path bm bm1 r
              eq_refl Hplain Ec) as [-> [_ [_ [Hat [Hnew Hold]]]]].
  set (names := pathNames (normalize path)) in *.
  set (c1 := match nodeAt names bm with
             | Some c => clearDeletedAt c
             | None => freshNode (header bm) now Child
             end) in *.
  rewrite Hat in Hnew.
  assert (Hlive : nodeIsDeleted c1 = false).
  { unfold c1. destruct (nodeAt names bm);
      [apply nodeIsDeleted_clear | apply nodeIsDeleted_freshNode]. }
  pose proof (getDeepestNode_mutateAt_kind normalize path bm1 names c1
                clearDeletedAtIfTruthy Hnew
                (nodeIsDirectory_items _ _ (items_clearIfTruthy c1))) as H2.
  rewrite (nodeIsDeleted_clearIfTruthy c1 Hlive) in H2.
  pose proof (getDeepestNode_mutateAt_kind normalize path _ names c1
                (updateTimeMetadata (header bm) now "updatedAt") H2
                (nodeIsDirectory_items _ _ (items_stamp _ _ _ c1))) as H3.
  rewrite (getDeepestNode_sound _ _ _ _ _ H3), hashLinks_stamp.
  destruct (hashLinks c1) as [hl|] eqn:Ehl; [|discriminate].
  intros H. inversion H. subst bm'. clear H.
  split; [exact Hold|].
  eexists. split; [|split; [|split]].
  - apply (getDeepestNode_mutateAt_kind normalize path _ names _ _ H3). reflexivity.
  - rewrite nodeIsDeleted_setHashLinks, nodeIsDeleted_stamp by discriminate.
    exact Hlive.
  - cbn [items setHashLinksProp]. rewrite items_stamp. unfold itemsAt, c1.
    destruct (nodeAt names bm); [reflexivity|]. now rewrite items_freshNode.
  - cbn [hashLinks setHashLinksProp]. f_equal. f_equal.
    unfold bricksAt. revert Ehl. unfold c1.
    destruct (nodeAt names bm) as [c0|].
    + rewrite hashLinks_clearDeletedAt. now intros ->.
    + rewrite hashLinks_freshNode. intros H. now inversion H.
Qed.

(** X7.  [replaceFirstBrick] on a path without empty segments: after it
    has returned, a file that held bricks holds the given brick in the
    first place and the others as before; a file without bricks stays
    without, and a path that resolved to nothing names an empty file: the
    brick is stored only in place of another. *)
Theorem replaceFirstBrick_then_getBricksMeta (normalize : string -> string)
    now path brick bm bm' :
  pathIsPlain (normalize path) = true ->
  replaceFirstBrick normalize now path brick bm = (bm', Ok tt) ->
  (getDeepestNode normalize path bm = Ok None ->
   getBricksMeta normalize path bm' = Ok (Some [])) /\
  (forall r n hl,
     getDeepestNode normalize path bm = Ok (Some (r, n)) ->
     nodeIsDirectory n = false -> hashLinks n = Some hl ->
     getBricksMeta normalize path bm' =
       Ok (Some (match hl with [] => [] | _ :: rest => brick :: rest end))).
Proof.
  intros Hplain Hrep.
  destruct (replaceBrickWith_ok _ _ _ _ _ _ Hplain Hrep)
    as [Hold [c [Hg [Hlive [Hi Hh]]]]].
  split.
  - intros Hnone. destruct (at_missing _ _ _ _ Hold Hnone) as [Ei Eb].
    rewrite (getBricksMeta_of _ _ _ _ _ Hg Hlive) by congruence.
    now rewrite Hh, Eb.
  - intros r n hl Hsome Hfile Hhl.
    destruct (at_present _ _ _ _ _ _ Hold Hsome) as [_ [_ [Ei Eb]]].
    unfold nodeIsDirectory in Hfile. destruct (items n) eqn:En; [discriminate|].
    rewrite (getBricksMeta_of _ _ _ _ _ Hg Hlive) by congruence.
    now rewrite Hh, Eb, Hhl.
Qed.

Lemma replaceFirstBrick_then_getBricksMeta_witness :
  getBricksMeta pskNormalize "f"
    (fst (replaceFirstBrick pskNormalize "t2" "f" (mkBrickRef "c2" "h2" None None)
            mapWithTopFile)) =
    Ok (Some [mkBrickRef "c2" "h2" None None]) /\
  getBricksMeta pskNormalize "g"
    (fst (replaceFirstBrick pskNormalize "t2" "g" (mkBrickRef "c2" "h2" None None)
            mapWithTopFile)) =
    Ok (Some []).
Proof.
  split.
  - exact (proj2 (replaceFirstBrick_then_getBricksMeta pskNormalize "t2" "f"
                    (mkBrickRef "c2" "h2" None None) mapWithTopFile
                    (fst (replaceFirstBrick pskNormalize "t2" "f"
                            (mkBrickRef "c2" "h2" None None) mapWithTopFile))
                    eq_refl eq_refl)
             ["f"]
             (Node [("createdAt", VStr "t1"); ("updatedAt", VStr "t1")] None
                   (Some [mkBrickRef "c1" "h1" None None]))
             [mkBrickRef "c1" "h1" None None] eq_refl eq_refl eq_refl).
  - exact (proj1 (replaceFirstBrick_then_getBricksMeta pskNormalize "t2" "g"
                    (mkBrickRef "c2" "h2" None None) mapWithTopFile
                    (fst (replaceFirstBrick pskNormalize "t2" "g"
                            (mkBrickRef "c2" "h2" None None) mapWithTopFile))
                    eq_refl eq_refl)
             eq_refl).
Defined.

Lemma length_removelast_snoc {A : Type} (l : list A) x :
  l <> [] -> List.length (removelast l ++ [x]) = List.length l.
Proof.
  induction l as [|a l IH]; [congruence|]. intros _.
  destruct l as [|b l]; [reflexivity|].
  change (removelast (a :: b :: l)) with (a :: removelast (b :: l)).
  simpl. f_equal. apply IH. discriminate.
Qed.

(** X8.  [replaceLastBrick] on a path without empty segments: after it
    has returned, a file that held bricks holds the given brick in the last
    place and the others as before, so the number of bricks is the same; a
    file without bricks stays without, and a path that resolved to nothing
    names an empty file. *)
Theorem replaceLastBrick_then_getBricksMeta (normalize : string -> string)
    now path brick bm bm' :
  pathIsPlain (normalize path) = true ->
  replaceLastBrick normalize now path brick bm = (bm', Ok tt) ->
  (getDeepestNode normalize path bm = Ok None ->
   getBricksMeta normalize path bm' = Ok (Some [])) /\
  (forall r n hl,
     getDeepestNode normalize path bm = Ok (Some (r, n)) ->
     nodeIsDirectory n = false -> hashLinks n = Some hl ->
     exists hl',
       getBricksMeta normalize path bm' = Ok (Some hl') /\
       List.length hl' = List.length hl /\
       (hl <> [] -> hl' = removelast hl ++ [brick])).
Proof.
  intros Hplain Hrep.
  destruct (replaceBrickWith_ok _ _ _ _ _ _ Hplain Hrep)
    as [Hold [c [Hg [Hlive [Hi Hh]]]]].
  split.
  - intros Hnone. destruct (at_missing _ _ _ _ Hold Hnone) as [Ei Eb].
    rewrite (getBricksMeta_of _ _ _ _ _ Hg Hlive) by congruence.
    now rewrite Hh, Eb.
  - intros r n hl Hsome Hfile Hhl.
    destruct (at_present _ _ _ _ _ _ Hold Hsome) as [_ [_ [Ei Eb]]].
    unfold nodeIsDirectory in Hfile. destruct (items n) eqn:En; [discriminate|].
    rewrite (getBricksMeta_of _ _ _ _ _ Hg Hlive) by congruence.
    rewrite Hh, Eb, Hhl. eexists. split; [reflexivity|].
    destruct hl as [|b hl]; [split; [reflexivity | congruence]|].
    split; [|reflexivity].
    unfold replaceLast. apply length_removelast_snoc. discriminate.
Qed.

Lemma replaceLastBrick_then_getBricksMeta_witness :
  exists hl',
    getBricksMeta pskNormalize "f"
      (fst (replaceLastBrick pskNormalize "t2" "f" (mkBrickRef "c2" "h2" None None)
              mapWithTopFile)) = Ok (Some hl') /\
    List.length hl' = 1.
Proof.
  destruct (proj2 (replaceLastBrick_then_getBricksMeta pskNormalize "t2" "f"
                     (mkBrickRef "c2" "h2" None None) mapWithTopFile
                     (fst (replaceLastBrick pskNormalize "t2" "f"
                             (mkBrickRef "c2" "h2" None None) mapWithTopFile))
                     eq_refl eq_refl)
              ["f"]
              (Node [("createdAt", VStr "t1"); ("updatedAt", VStr "t1")] None
                    (Some [mkBrickRef "c1" "h1" None None]))
              [mkBrickRef "c1" "h1" None None] eq_refl eq_refl eq_refl)
    as [hl' [H1 [H2 _]]].
  exists hl'. split; [exact H1 | exact H2].
Defined.

(** ** Creating files and folders *)

Lemma createNode_ok normalize now path ty bm bm' :
  createNode normalize now path ty bm = (bm', Ok tt) ->
  exists r, createNodesFromPath now ty (normalize path) bm = (bm', Ok r).
Proof.
  unfold createNode.
  destruct (String.eqb (normalize path) "/"); [discriminate|].
  destruct (getDeepestNode normalize (dirname (normalize path)) bm) as [parentDir|e];
    [|discriminate].
  destruct (String.eqb (basename (normalize path)) EmptyString); [discriminate|].
  destruct (createNodesFromPath now ty (normalize path) bm) as [bm1 [r|e]] eqn:Ec.
  - assert (H : forall x : BrickMap * outcome unit,
              (x = (bm1, Ok tt) \/ exists e, x = (bm, Throw e)) ->
              x = (bm', Ok tt) -> exists r0, (bm1, Ok r : outcome ref) = (bm', Ok r0)).
    { intros x [-> | [e ->]] Hx; [|discriminate]. inversion Hx. now exists r. }
    apply H. destruct parentDir as [[r0 parentNode]|]; [|now left].
    destruct (String.eqb (dirname (normalize path)) EmptyString); [now left|].
    destruct (items parentNode) as [its|]; [|right; eauto].
    destruct (getProp (basename (normalize path)) its), ty;
      try (now left); right; eauto.
  - intros H. exfalso. destruct parentDir as [[r0 parentNode]|]; [|discriminate].
    destruct (String.eqb (dirname (normalize path)) EmptyString); [discriminate|].
    destruct (items parentNode) as [its|]; [|discriminate].
    destruct (getProp (basename (normalize path)) its), ty; discriminate.
Qed.

(** X9.  [createNode], the body of [createFolder] and [createFile], on a
    path without empty segments: after it has returned the path names a
    node that is not tombstoned; a node that was there has kept its kind,
    and where there was none there is a directory for [createFolder] and a
    file without bricks for [createFile]. *)
Theorem createNode_then_stat (normalize : string -> string) now path ty bm bm' :
  pathIsPlain (normalize path) = true ->
  createNode normalize now path ty bm = (bm', Ok tt) ->
  fileExists normalize path bm' = Ok (Some true) /\
  stat normalize path bm' =
    match stat normalize path bm with
    | Ok kind => Ok kind
    | Throw _ => Ok (match ty with Parent => DirectoryType | Child => FileType end)
    end /\
  (getDeepestNode normalize path bm = Ok None -> ty = Child ->
   getBricksMeta normalize path bm' = Ok (Some [])).
Proof.
  intros Hplain Hc. destruct (createNode_ok _ _ _ _ _ _ Hc) as [r Hr].
  destruct (createNodesFromPath_spec normalize now ty _ path bm bm' r
              eq_refl Hplain Hr) as [-> [_ [_ [Hat [Hnew Hold]]]]].
  rewrite Hat in Hnew.
  split; [|split].
  - rewrite (fileExists_of _ _ _ _ _ Hnew).
    destruct (nodeAt (pathNames (normalize path)) bm);
      [rewrite nodeIsDeleted_clear | rewrite nodeIsDeleted_freshNode]; reflexivity.
  - unfold stat. rewrite Hnew, Hold.
    destruct (nodeAt (pathNames (normalize path)) bm) as [c0|]; [reflexivity|].
    unfold nodeIsDirectory. rewrite items_freshNode. now destruct ty.
  - intros Hnone ->. rewrite Hold in Hnone.
    destruct (nodeAt (pathNames (normalize path)) bm) as [c0|]; [discriminate|].
    rewrite (getBricksMeta_of _ _ _ _ _ Hnew).
    + now rewrite hashLinks_freshNode.
    + apply nodeIsDeleted_freshNode.
    + now rewrite items_freshNode.
Qed.

Lemma createNode_then_stat_witness :
  stat pskNormalize "d/e/x"
    (fst (createFolder pskNormalize "t2" "d/e/x" mapWithFolder)) = Ok DirectoryType /\
  stat pskNormalize "f"
    (fst (createFolder pskNormalize "t2" "f" mapWithTopFile)) = Ok FileType /\
  getBricksMeta pskNormalize "d/e/x"
    (fst (createFile pskNormalize "t2" "d/e/x" mapWithFolder)) = Ok (Some []).
Proof.
  split; [|split].
  - exact (proj1 (proj2 (createNode_then_stat pskNormalize "t2" "d/e/x" Parent
                           mapWithFolder
                           (fst (createFolder pskNormalize "t2" "d/e/x" mapWithFolder))
                           eq_refl eq_refl))).
  - exact (proj1 (proj2 (createNode_then_stat pskNormalize "t2" "f" Parent
                           mapWithTopFile
                           (fst (createFolder pskNormalize "t2" "f" mapWithTopFile))
                           eq_refl eq_refl))).
  - exact (proj2 (proj2 (createNode_then_stat pskNormalize "t2" "d/e/x" Child
                           mapWithFolder
                           (fst (createFile pskNormalize "t2" "d/e/x" mapWithFolder))
                           eq_refl eq_refl))
             eq_refl eq_refl).
Defined.

(** ** Deleting and reading *)

Lemma nodeIsDirectory_deleteNode hdr now n :
  nodeIsDirectory (deleteNode hdr now n) = nodeIsDirectory n.
Proof.
  unfold nodeIsDirectory.
  destruct (items n) as [its|] eqn:Ei.
  - destruct (deleteNode_directory hdr now n) as [-> _]; [|reflexivity].
    unfold nodeIsDirectory. now rewrite Ei.
  - destruct (deleteNode_file hdr now n) as [_ ->]; [|reflexivity].
    unfold nodeIsDirectory. now rewrite Ei.
Qed.

Lemma items_deleteNode hdr now n :
  items (deleteNode hdr now n) =
  match items n with Some _ => Some [] | None => None end.
Proof.
  destruct (items n) as [its|] eqn:Ei.
  - apply deleteNode_directory. unfold nodeIsDirectory. now rewrite Ei.
  - apply deleteNode_file. unfold nodeIsDirectory. now rewrite Ei.
Qed.

(** X10.  In a map with time stamps, after [delete] of a path that
    resolves to a node, [fileExists] is false and [fileDeleted] is true for
    the path, and [getBricksMeta] throws (the folder error for a directory,
    not-found for a file); when the node was not tombstoned before, the
    listings under the path are empty. *)
Theorem delete_then_queries (normalize : string -> string)
    (pathJoin : string -> string -> string) now path bm r n recursive :
  normalize (normalize path) = normalize path ->
  timestampsEnabled (header bm) = true ->
  getDeepestNode normalize path bm = Ok (Some (r, n)) ->
  fileExists normalize path (fst (delete normalize now path bm)) = Ok (Some false) /\
  fileDeleted normalize path (fst (delete normalize now path bm)) = Ok (Some true) /\
  getBricksMeta normalize path (fst (delete normalize now path bm)) =
    Throw (if nodeIsDirectory n then PathIsFolder path else PathNotFound path) /\
  (nodeIsDeleted n = false ->
   getFileList normalize pathJoin path recursive (fst (delete normalize now path bm)) =
     Ok [] /\
   getFolderList normalize pathJoin path recursive (fst (delete normalize now path bm)) =
     Ok []).
Proof.
  intros Hidem Hts Hg. unfold delete.
  rewrite (getDeepestNode_normalize normalize (normalize path) path bm Hidem), Hg.
  destruct (nodeIsDeleted n) eqn:Hdel; cbn [fst].
  - unfold fileExists, fileDeleted, getBricksMeta. rewrite Hg, Hdel.
    split; [reflexivity|]. split; [reflexivity|]. split; [|discriminate].
    now destruct (nodeIsDirectory n).
  - pose proof (getDeepestNode_mutateAt_kind normalize path bm r n
                  (deleteNode (header bm) now) Hg
                  (nodeIsDirectory_deleteNode _ _ _)) as Hg'.
    unfold fileExists, fileDeleted, getBricksMeta, getFileList, getFolderList.
    rewrite Hg', nodeIsDirectory_deleteNode, (deleteNode_stamped _ now n Hts),
      items_deleteNode.
    split; [reflexivity|]. split; [reflexivity|]. split.
    + now destruct (nodeIsDirectory n).
    + intros _. now destruct (items n).
Qed.

Lemma delete_then_queries_witness :
  fileExists pskNormalize "a/b/file.txt"
    (fst (delete pskNormalize "t2" "a/b/file.txt" mapWithFile)) = Ok (Some false) /\
  getBricksMeta pskNormalize "a/b"
    (fst (delete pskNormalize "t2" "a/b" mapWithFile)) = Throw (PathIsFolder "a/b") /\
  getFileList pskNormalize (fun a b => join [a; b]) "a/b" None
    (fst (delete pskNormalize "t2" "a/b" mapWithFile)) = Ok [].
Proof.
  split; [|split].
  - exact (proj1 (delete_then_queries pskNormalize (fun a b => join [a; b]) "t2"
                    "a/b/file.txt" mapWithFile _ _ None eq_refl eq_refl eq_refl)).
  - exact (proj1 (proj2 (proj2 (delete_then_queries pskNormalize
                    (fun a b => join [a; b]) "t2"
                    "a/b" mapWithFile _ _ None eq_refl eq_refl eq_refl)))).
  - exact (proj1 (proj2 (proj2 (proj2 (delete_then_queries pskNormalize
                    (fun a b => join [a; b]) "t2"
                    "a/b" mapWithFile _ _ None eq_refl eq_refl eq_refl))) eq_refl)).
Defined.

Lemma updateRef_updateRef f g r :
  forall n, updateRef r g (updateRef r f n) = updateRef r (fun x => g (f x)) n.
Proof.
  induction r as [|k r IH]; intros n; simpl; [reflexivity|].
  destruct (items n) as [its|] eqn:Ei; [|now rewrite Ei].
  destruct (getProp k its) as [c|] eqn:Ec; [|now rewrite Ei, Ec].
  cbn [items setItemsProp]. rewrite getProp_setProp_same, IH, setProp_setProp_same.
  reflexivity.
Qed.

Lemma createdAt_updateRef f r n :
  (forall x, getProp "createdAt" (metadata (f x)) = getProp "createdAt" (metadata x)) ->
  getProp "createdAt" (metadata (updateRef r f n)) = getProp "createdAt" (metadata n).
Proof.
  intros Hf. destruct r as [|k r]; simpl; [apply Hf|].
  destruct (items n) as [its|]; [|reflexivity].
  now destruct (getProp k its).
Qed.

Lemma timestampsEnabled_updateRef f r n :
  (forall x, getProp "createdAt" (metadata (f x)) = getProp "createdAt" (metadata x)) ->
  timestampsEnabled (updateRef r f n) = timestampsEnabled n.
Proof. intros Hf. unfold timestampsEnabled. now rewrite createdAt_updateRef. Qed.

Lemma createdAt_deleteNode hdr now x :
  getProp "createdAt" (metadata (deleteNode hdr now x)) = getProp "createdAt" (metadata x).
Proof.
  rewrite deleteNode_metadata. destruct (timestampsEnabled hdr); [|reflexivity].
  now rewrite getProp_setProp_other.
Qed.

Lemma deleteNode_twice hdr hdr' now now' x :
  timestampsEnabled hdr = false -> timestampsEnabled hdr' = false ->
  deleteNode hdr' now' (deleteNode hdr now x) = deleteNode hdr now x.
Proof.
  intros H H'. unfold deleteNode.
  rewrite !updateTimeMetadata_disabled by assumption.
  destruct x as [m [its|] hl]; reflexivity.
Qed.

(** X11.  [delete] is idempotent: a second [delete] of the same path, at
    whatever time, leaves the map as the first one left it. *)
Theorem delete_idempotent (normalize : string -> string) now now' path bm :
  fst (delete normalize now' path (fst (delete normalize now path bm))) =
  fst (delete normalize now path bm).
Proof.
  unfold delete.
  destruct (getDeepestNode normalize (normalize path) bm) as [[[r n]|]|e] eqn:Eg;
    cbn [fst]; try (rewrite Eg; reflexivity).
  destruct (nodeIsDeleted n) eqn:Hdel; cbn [fst].
  - now rewrite Eg, Hdel.
  - rewrite (getDeepestNode_mutateAt_kind normalize _ bm r n
               (deleteNode (header bm) now) Eg (nodeIsDirectory_deleteNode _ _ _)).
    destruct (nodeIsDeleted (deleteNode (header bm) now n)) eqn:Hdel'; [reflexivity|].
    cbn [fst].
    assert (Hoff : timestampsEnabled (header bm) = false).
    { destruct (timestampsEnabled (header bm)) eqn:E; [|reflexivity].
      rewrite (deleteNode_stamped _ now n E) in Hdel'. discriminate. }
    unfold mutateAt, withHeader. cbn [header templateKeySSI].
    rewrite updateRef_updateRef. f_equal. apply updateRef_ext. intros x.
    apply deleteNode_twice; [exact Hoff|].
    rewrite timestampsEnabled_updateRef; [exact Hoff|].
    intros y. apply createdAt_deleteNode.
Qed.

(** X12.  [emptyList] throws the not-found error, and changes nothing,
    for a path that resolves to no node.  For a path that resolves it
    returns, and afterwards the path names a node that is not tombstoned
    and lists no file and no folder; when the node is a file,
    [getBricksMeta] returns the empty list. *)
Theorem emptyList_then_queries (normalize : string -> string)
    (pathJoin : string -> string -> string) now path bm recursive :
  (getDeepestNode normalize path bm = Ok None ->
   emptyList normalize now path bm = (bm, Throw (PathNotFound path))) /\
  (forall r n,
     getDeepestNode normalize path bm = Ok (Some (r, n)) ->
     snd (emptyList normalize now path bm) = Ok tt /\
     fileExists normalize path (fst (emptyList normalize now path bm)) = Ok (Some true) /\
     getFileList normalize pathJoin path recursive
       (fst (emptyList normalize now path bm)) = Ok [] /\
     getFolderList normalize pathJoin path recursive
       (fst (emptyList normalize now path bm)) = Ok [] /\
     (nodeIsDirectory n = false ->
      getBricksMeta normalize path (fst (emptyList normalize now path bm)) =
        Ok (Some []))).
Proof.
  split.
  - intros Hg. unfold emptyList. now rewrite Hg.
  - intros r n Hg. destruct (emptyList_ok normalize now path bm r n Hg) as [-> Hg'].
    cbn [fst snd]. split; [reflexivity|].
    unfold fileExists, getFileList, getFolderList, getBricksMeta.
    rewrite Hg', nodeIsDeleted_truncateNode, nodeIsDirectory_truncateNode,
      items_truncateNode.
    split; [reflexivity|].
    split; [now destruct (items n)|]. split; [now destruct (items n)|].
    now intros ->.
Qed.

Lemma emptyList_then_queries_witness :
  emptyList pskNormalize "t2" "a/x" mapWithFile =
    (mapWithFile, Throw (PathNotFound "a/x")) /\
  getBricksMeta pskNormalize "a/b/file.txt"
    (fst (emptyList pskNormalize "t2" "a/b/file.txt" mapWithFile)) = Ok (Some []) /\
  getFileList pskNormalize (fun a b => join [a; b]) "a" None
    (fst (emptyList pskNormalize "t2" "a" mapWithFile)) = Ok [].
Proof.
  split; [|split].
  - exact (proj1 (emptyList_then_queries pskNormalize (fun a b => join [a; b]) "t2"
                    "a/x" mapWithFile None) eq_refl).
  - exact (proj2 (proj2 (proj2 (proj2
             (proj2 (emptyList_then_queries pskNormalize (fun a b => join [a; b]) "t2"
                       "a/b/file.txt" mapWithFile None) _ _ eq_refl)))) eq_refl).
  - exact (proj1 (proj2 (proj2
             (proj2 (emptyList_then_queries pskNormalize (fun a b => join [a; b]) "t2"
                       "a" mapWithFile None) _ _ eq_refl)))).
Defined.

(** ** Metadata *)

(** X13.  [updateMetadata] followed by [getMetadata]: for a path whose
    metadata can be read and a key other than [__proto__] (an assignment
    under that name sets the prototype of the metadata object and stores no
    entry), the update returns, and the metadata read afterwards holds the
    given value under the given key and, under every other key, what it
    held before. *)
Theorem updateMetadata_then_getMetadata (normalize : string -> string)
    path k v bm m :
  k <> "__proto__" ->
  getMetadata normalize path bm = Ok m ->
  snd (updateMetadata normalize path k v bm) = Ok tt /\
  exists m',
    getMetadata normalize path (fst (updateMetadata normalize path k v bm)) = Ok m' /\
    getProp k m' = Some v /\
    (forall k', k' <> k -> getProp k' m' = getProp k' m).
Proof.
  intros _. unfold getMetadata at 1, updateMetadata.
  destruct (getDeepestNode normalize path bm) as [[[r n]|]|e] eqn:Hg; try discriminate.
  intros H. inversion H. subst m. clear H. cbn [fst snd]. split; [reflexivity|].
  unfold getMetadata.
  rewrite (getDeepestNode_mutateAt_kind normalize path bm r n _ Hg) by reflexivity.
  eexists. split; [reflexivity|]. cbn [metadata setMetadataProp]. split.
  - apply getProp_setProp_same.
  - intros k' Hk. apply getProp_setProp_other. congruence.
Qed.

Lemma updateMetadata_then_getMetadata_witness :
  exists m',
    getMetadata pskNormalize "a/b"
      (fst (updateMetadata pskNormalize "a/b" "owner" (VStr "me") mapWithFile)) =
      Ok m' /\
    getProp "owner" m' = Some (VStr "me") /\
    getProp "createdAt" m' = Some (VStr "t1").
Proof.
  destruct (updateMetadata_then_getMetadata pskNormalize "a/b" "owner" (VStr "me")
              mapWithFile [("createdAt", VStr "t1")] ltac:(discriminate) eq_refl)
    as [_ [m' [H1 [H2 H3]]]].
  exists m'. split; [exact H1|]. split; [exact H2|].
  exact (H3 "createdAt" ltac:(discriminate)).
Defined.

Lemma isJSON_stringify v : isJSON (stringify v) = true.
Proof.
  induction v as [| | | |l IH|fields IH|bytes] using value_ind'; try reflexivity.
  - simpl. induction IH as [|x l Hx _ IHl]; simpl; [reflexivity|].
    now rewrite Hx, IHl.
  - simpl. unfold mapValues.
    induction IH as [|[k x] l Hx _ IHl]; simpl; [reflexivity|].
    simpl in Hx. now rewrite Hx, IHl.
  - simpl. induction bytes as [|b bytes IHb]; [reflexivity|]. exact IHb.
Qed.

Lemma stringify_isJSON v : isJSON v = true -> stringify v = v.
Proof.
  induction v as [| | | |l IH|fields IH|bytes] using value_ind'; try reflexivity.
  - simpl. intros H. f_equal.
    induction IH as [|x l Hx _ IHl]; simpl in *; [reflexivity|].
    apply andb_prop in H. destruct H as [H1 H2]. now rewrite Hx, IHl.
  - simpl. intros H. f_equal. unfold mapValues.
    induction IH as [|[k x] l Hx _ IHl]; simpl in *; [reflexivity|].
    apply andb_prop in H. destruct H as [H1 H2]. now rewrite Hx, IHl.
  - discriminate.
Qed.

(** X14.  [setMetadata] followed by [getMetadata]: for a path whose
    metadata can be read, the metadata read afterwards is the given mapping
    as JSON data: it has the same keys in the same order, holds no byte
    buffer (a buffer is stored as its JSON form), and is the given mapping
    itself when that held none. *)
Theorem setMetadata_then_getMetadata (normalize : string -> string)
    path m bm m0 :
  getMetadata normalize path bm = Ok m0 ->
  snd (setMetadata normalize path m bm) = Ok tt /\
  exists m',
    getMetadata normalize path (fst (setMetadata normalize path m bm)) = Ok m' /\
    objectKeys m' = objectKeys m /\
    forallb (fun kv => isJSON (snd kv)) m' = true /\
    (forall k v, getProp k m = Some v -> getProp k m' = Some (stringify v)) /\
    (forallb (fun kv => isJSON (snd kv)) m = true -> m' = m).
Proof.
  unfold getMetadata at 1, setMetadata.
  destruct (getDeepestNode normalize path bm) as [[[r n]|]|e] eqn:Hg; try discriminate.
  intros _. cbn [fst snd]. split; [reflexivity|].
  unfold getMetadata.
  rewrite (getDeepestNode_mutateAt_kind normalize path bm r n _ Hg) by reflexivity.
  eexists. split; [reflexivity|]. cbn [metadata setMetadataProp].
  unfold cloneMetadata, mapValues, objectKeys. split; [|split; [|split]].
  - rewrite map_map. reflexivity.
  - induction m as [|[k v] m IH]; simpl; [reflexivity|].
    now rewrite isJSON_stringify, IH.
  - intros k v. induction m as [|[k0 v0] m IH]; simpl; [discriminate|].
    destruct (String.eqb k k0); [|exact IH]. intros H. now inversion H.
  - induction m as [|[k v] m IH]; simpl; [reflexivity|]. intros H.
    apply andb_prop in H. destruct H as [H1 H2].
    now rewrite (stringify_isJSON _ H1), IH.
Qed.

Lemma setMetadata_then_getMetadata_witness :
  exists m',
    getMetadata pskNormalize "f"
      (fst (setMetadata pskNormalize "f"
              [("tag", VBuf [Byte.x01]); ("n", VNum 7)] mapWithTopFile)) = Ok m' /\
    objectKeys m' = ["tag"; "n"] /\
    getProp "tag" m' = Some (bufferToJSON [Byte.x01]).
Proof.
  destruct (setMetadata_then_getMetadata pskNormalize "f"
              [("tag", VBuf [Byte.x01]); ("n", VNum 7)] mapWithTopFile
              [("createdAt", VStr "t1"); ("updatedAt", VStr "t1")] eq_refl)
    as [_ [m' [H1 [H2 [_ [H3 _]]]]]].
  exists m'. split; [exact H1|]. split; [exact H2|].
  exact (H3 "tag" (VBuf [Byte.x01]) eq_refl).
Defined.

(** ** Copying a file *)

Lemma map_hashLink_cloneBrick hl : map hashLink (map cloneBrick hl) = map hashLink hl.
Proof. rewrite map_map. apply map_ext. now intros []. Qed.

(** X15.  [copy] of a file: when the source path gives bricks to
    [getBricksMeta], the destination path has no empty segment and is in
    normal form, and it did not name a directory, then after [copy] has
    returned the destination names a file that is not tombstoned and holds
    the JSON clones of the source's bricks, with the same hash links in the
    same order. *)
Theorem copy_then_getBricksMeta (normalize : string -> string)
    now srcPath dstPath bm bm' hl :
  pathIsPlain dstPath = true ->
  normalize dstPath = dstPath ->
  getBricksMeta normalize srcPath bm = Ok (Some hl) ->
  stat normalize dstPath bm <> Ok DirectoryType ->
  copy normalize now srcPath dstPath bm = (bm', Ok tt) ->
  fileExists normalize dstPath bm' = Ok (Some true) /\
  getBricksMeta normalize dstPath bm' = Ok (Some (map cloneBrick hl)) /\
  getHashList normalize dstPath bm' = Ok (map hashLink hl).
Proof.
  intros Hplain Hnorm Hsrc Hstat. unfold copy.
  unfold getBricksMeta in Hsrc.
  destruct (getDeepestNode normalize srcPath bm) as [[[rs n]|]|e] eqn:Hg;
    try discriminate.
  destruct (nodeIsDirectory n) eqn:Hdir; [discriminate|].
  destruct (nodeIsDeleted n) eqn:Hdel; [discriminate|].
  inversion Hsrc as [Hhl]. clear Hsrc.
  destruct (createNodesFromPath now Child dstPath bm) as [bm1 [rd|e]] eqn:Ec;
    [|discriminate].
  destruct (createNodesFromPath_spec normalize now Child dstPath dstPath bm bm1 rd
              Hnorm Hplain Ec) as [-> [_ [_ [Hat [Hnew Hold]]]]].
  rewrite Hat in Hnew.
  destruct (createNodesFromPath_keeps now Child dstPath bm rs n
              (getDeepestNode_sound _ _ _ _ _ Hg)) as [n1 [Hn1 [Hl1 [Hk1 _]]]].
  rewrite Ec in Hn1. cbn [fst] in Hn1. rewrite Hn1.
  rewrite Hdir in Hk1. unfold nodeIsDirectory in Hk1.
  destruct (items n1); [discriminate|]. rewrite Hl1, Hhl.
  intros H. inversion H. subst bm'. clear H.
  set (c1 := match nodeAt (pathNames dstPath) bm with
             | Some c => clearDeletedAt c
             | None => freshNode (header bm) now Child
             end) in *.
  assert (Hlive : nodeIsDeleted c1 = false).
  { unfold c1. destruct (nodeAt (pathNames dstPath) bm);
      [apply nodeIsDeleted_clear | apply nodeIsDeleted_freshNode]. }
  assert (Hfile : items c1 = None).
  { unfold c1. unfold stat in Hstat. rewrite Hold in Hstat.
    destruct (nodeAt (pathNames dstPath) bm) as [c0|].
    - rewrite items_clearDeletedAt. unfold nodeIsDirectory in Hstat.
      destruct (items c0); [congruence | reflexivity].
    - now rewrite items_freshNode. }
  pose proof (getDeepestNode_mutateAt_kind normalize dstPath bm1 _ c1
                (setHashLinksProp (map cloneBrick hl)) Hnew eq_refl) as Hg'.
  split; [|split].
  - rewrite (fileExists_of _ _ _ _ _ Hg'), nodeIsDeleted_setHashLinks, Hlive.
    reflexivity.
  - now rewrite (getBricksMeta_of _ _ _ _ _ Hg').
  - unfold getHashList. rewrite (pathIsPlain_not_empty _ Hplain), Hg'.
    unfold nodeIsDirectory. cbn [items hashLinks setHashLinksProp].
    now rewrite Hfile, map_hashLink_cloneBrick.
Qed.

Lemma copy_then_getBricksMeta_witness :
  getBricksMeta pskNormalize "a/copy"
    (fst (copy pskNormalize "t2" "f" "a/copy" mapWithKey)) =
    Ok (Some [mkBrickRef "c1" "h1" (Some 3%Z)
                (Some (bufferToJSON [Byte.x01; Byte.xff; Byte.x00]))]) /\
  getHashList pskNormalize "a/copy"
    (fst (copy pskNormalize "t2" "f" "a/copy" mapWithKey)) = Ok ["h1"].
Proof.
  destruct (copy_then_getBricksMeta pskNormalize "t2" "f" "a/copy" mapWithKey
              (fst (copy pskNormalize "t2" "f" "a/copy" mapWithKey))
              [mkBrickRef "c1" "h1" (Some 3%Z)
                 (Some (VBuf [Byte.x01; Byte.xff; Byte.x00]))]
              eq_refl eq_refl eq_refl ltac:(discriminate) eq_refl)
    as [_ [H1 H2]].
  split; [exact H1 | exact H2].
Defined.

(** ** Listings *)

Section Listings.

Variable pathJoin : string -> string -> string.

Lemma findFilesAt_directory recursive m l hl itemPath :
  findFilesAt pathJoin recursive (Node m (Some l) hl) itemPath =
  if recursive then findFiles pathJoin recursive l itemPath else [].
Proof.
  simpl. destruct recursive; [|reflexivity]. unfold findFiles.
  induction l as [|[k c] l IH]; simpl; [reflexivity|]. now rewrite IH.
Qed.

Lemma findFoldersAt_directory recursive m l hl itemPath :
  findFoldersAt pathJoin recursive (Node m (Some l) hl) itemPath =
  if nodeIsDeleted (Node m (Some l) hl) then []
  else itemPath :: (if recursive then findFolders pathJoin recursive l itemPath else []).
Proof.
  simpl. destruct (nodeIsDeleted _); [reflexivity|]. f_equal.
  destruct recursive; [|reflexivity]. unfold findFolders.
  induction l as [|[k c] l IH]; simpl; [reflexivity|]. now rewrite IH.
Qed.

Lemma findFilesAt_spec item :
  forall itemPath p,
    In p (findFilesAt pathJoin true item itemPath) <->
    (items item = None /\ nodeIsDeleted item = false /\ p = itemPath) \/
    (exists its names c,
       items item = Some its /\ descends its names c /\
       nodeIsDirectory c = false /\ nodeIsDeleted c = false /\
       p = joinAll pathJoin itemPath names).
Proof.
  induction item as [m l hl IH | m hl] using node_ind'; intros itemPath p.
  - rewrite findFilesAt_directory. unfold findFiles. rewrite in_flat_map.
    rewrite Forall_forall in IH. split.
    + intros [[k c] [Hin Hp]]. right. exists l.
      apply (IH _ Hin) in Hp. cbn [fst snd] in Hp.
      destruct Hp as [[Hi [Hd ->]] | [its [names [d [Hi [Hdesc [Hf [Hd ->]]]]]]]].
      * exists [k], c. split; [reflexivity|]. split; [now constructor|].
        unfold nodeIsDirectory. rewrite Hi. now split.
      * exists (k :: names), d. split; [reflexivity|].
        split; [eapply descends_deeper; eauto|]. now split.
    + intros [[Hi _] | [its [names [d [Hi [Hdesc [Hf [Hd ->]]]]]]]]; [discriminate|].
      cbn [items] in Hi. inversion Hi. subst its. clear Hi.
      inversion Hdesc as [its0 k c Hin | its0 k c its' r d0 Hin Hi' Hdesc']; subst.
      * exists (k, d). split; [exact Hin|]. apply (IH _ Hin). left.
        unfold nodeIsDirectory in Hf. cbn [fst snd].
        destruct (items d); [discriminate|]. now split.
      * exists (k, c). split; [exact Hin|]. apply (IH _ Hin). right.
        exists its', r, d. cbn [fst snd]. now repeat split.
  - simpl. split.
    + destruct (nodeIsDeleted (Node m None hl)) eqn:Hd; [intros []|].
      intros [<- | []]. left. now split.
    + intros [[_ [Hd ->]] | [its [names [d [Hi _]]]]]; [|discriminate].
      rewrite Hd. now left.
Qed.

Lemma findFiles_recursive its currentPath p :
  In p (findFiles pathJoin true its currentPath) <->
  exists names c,
    descends its names c /\ nodeIsDirectory c = false /\ nodeIsDeleted c = false /\
    p = joinAll pathJoin currentPath names.
Proof.
  pose proof (findFilesAt_spec (Node [] (Some its) None) currentPath p) as H.
  rewrite findFilesAt_directory in H. rewrite H. split.
  - intros [[Hi _] | [its' [names [c [Hi Hrest]]]]]; [discriminate|].
    inversion Hi. subst its'. now exists names, c.
  - intros [names [c Hrest]]. right. now exists its, names, c.
Qed.

Lemma findFiles_flat its currentPath p :
  In p (findFiles pathJoin false its currentPath) <->
  exists k c,
    In (k, c) its /\ nodeIsDirectory c = false /\ nodeIsDeleted c = false /\
    p = pathJoin currentPath k.
Proof.
  unfold findFiles. rewrite in_flat_map. split.
  - intros [[k c] [Hin Hp]]. exists k, c. split; [exact Hin|].
    destruct c as [m [l|] hl]; cbn [fst snd findFilesAt] in Hp; [destruct Hp|].
    destruct (nodeIsDeleted (Node m None hl)) eqn:Hd; [destruct Hp|].
    destruct Hp as [<- | []]. now repeat split.
  - intros [k [c [Hin [Hf [Hd ->]]]]]. exists (k, c). split; [exact Hin|].
    destruct c as [m [l|] hl]; [discriminate|]. cbn [fst snd findFilesAt].
    rewrite Hd. now left.
Qed.

Lemma findFoldersAt_spec item :
  forall itemPath p,
    In p (findFoldersAt pathJoin true item itemPath) <->
    exists its,
      items item = Some its /\ nodeIsDeleted item = false /\
      (p = itemPath \/
       exists names c,
         descendsLive its names c /\
         nodeIsDirectory c = true /\ nodeIsDeleted c = false /\
         p = joinAll pathJoin itemPath names).
Proof.
  induction item as [m l hl IH | m hl] using node_ind'; intros itemPath p.
  - rewrite findFoldersAt_directory. rewrite Forall_forall in IH.
    destruct (nodeIsDeleted (Node m (Some l) hl)) eqn:Hdel.
    + split; [intros [] | intros [its [_ [H _]]]; discriminate].
    + cbn [In]. unfold findFolders. rewrite in_flat_map. split.
      * intros [<- | [[k c] [Hin Hp]]]; exists l;
          (split; [reflexivity|]); (split; [reflexivity|]); [now left|].
        right. apply (IH _ Hin) in Hp. cbn [fst snd] in Hp.
        destruct Hp as [its [Hi [Hd [-> | [names [d [Hdesc [Hf [Hdd ->]]]]]]]]].
        -- exists [k], c. split; [now constructor|].
           unfold nodeIsDirectory. rewrite Hi. now split.
        -- exists (k :: names), d.
           split; [eapply descendsLive_deeper; eauto|]. now split.
      * intros [its [Hi [_ [-> | [names [d [Hdesc [Hf [Hdd ->]]]]]]]]]; [now left|].
        right. cbn [items] in Hi. inversion Hi. subst its. clear Hi.
        inversion Hdesc as [its0 k c Hin | its0 k c its' r d0 Hin Hi' Hlive Hdesc'];
          subst.
        -- exists (k, d). split; [exact Hin|]. apply (IH _ Hin). cbn [fst snd].
           unfold nodeIsDirectory in Hf.
           destruct (items d) as [itsd|] eqn:Hid; [|discriminate].
           exists itsd. split; [reflexivity|]. split; [exact Hdd | now left].
        -- exists (k, c). split; [exact Hin|]. apply (IH _ Hin). cbn [fst snd].
           exists its'. split; [exact Hi'|]. split; [exact Hlive|]. right.
           now exists r, d.
  - simpl. split; [intros [] | intros [its [H _]]; discriminate].
Qed.

Lemma findFolders_recursive its currentPath p :
  In p (findFolders pathJoin true its currentPath) <->
  exists names c,
    descendsLive its names c /\ nodeIsDirectory c = true /\ nodeIsDeleted c = false /\
    p = joinAll pathJoin currentPath names.
Proof.
  unfold findFolders. rewrite in_flat_map. split.
  - intros [[k c] [Hin Hp]]. apply findFoldersAt_spec in Hp. cbn [fst snd] in Hp.
    destruct Hp as [its' [Hi [Hd [-> | [names [d [Hdesc [Hf [Hdd ->]]]]]]]]].
    + exists [k], c. split; [now constructor|].
      unfold nodeIsDirectory. rewrite Hi. now split.
    + exists (k :: names), d.
      split; [eapply descendsLive_deeper; eauto|]. now split.
  - intros [names [d [Hdesc [Hf [Hdd ->]]]]].
    inversion Hdesc as [its0 k c Hin | its0 k c its' r d0 Hin Hi' Hlive Hdesc']; subst.
    + exists (k, d). split; [exact Hin|]. apply findFoldersAt_spec. cbn [fst snd].
      unfold nodeIsDirectory in Hf.
      destruct (items d) as [itsd|] eqn:Hid; [|discriminate].
      exists itsd. split; [reflexivity|]. split; [exact Hdd | now left].
    + exists (k, c). split; [exact Hin|]. apply findFoldersAt_spec. cbn [fst snd].
      exists its'. split; [exact Hi'|]. split; [exact Hlive|]. right.
      now exists r, d.
Qed.

Lemma findFolders_flat its currentPath p :
  In p (findFolders pathJoin false its currentPath) <->
  exists k c,
    In (k, c) its /\ nodeIsDirectory c = true /\ nodeIsDeleted c = false /\
    p = pathJoin currentPath k.
Proof.
  unfold findFolders. rewrite in_flat_map. split.
  - intros [[k c] [Hin Hp]]. exists k, c. split; [exact Hin|].
    destruct c as [m [l|] hl]; cbn [fst snd] in Hp; [|destruct Hp].
    rewrite findFoldersAt_directory in Hp.
    destruct (nodeIsDeleted (Node m (Some l) hl)) eqn:Hd; [destruct Hp|].
    destruct Hp as [<- | []]. now repeat split.
  - intros [k [c [Hin [Hf [Hd ->]]]]]. exists (k, c). split; [exact Hin|].
    destruct c as [m [l|] hl]; [|discriminate]. cbn [fst snd].
    rewrite findFoldersAt_directory, Hd. now left.
Qed.

End Listings.

(** X16.  [getFileList] of a path that resolves to a directory: with
    [recursive] left out or true it lists exactly the files that are not
    tombstoned and are reached from the directory's items through
    directories, each under the join of the names that lead to it; with
    [recursive] false it lists exactly the files among the directory's own
    items that are not tombstoned. *)
Theorem getFileList_lists_live_files (normalize : string -> string)
    (pathJoin : string -> string -> string) path bm r n its :
  getDeepestNode normalize path bm = Ok (Some (r, n)) ->
  items n = Some its ->
  (exists l,
     getFileList normalize pathJoin path None bm = Ok l /\
     getFileList normalize pathJoin path (Some true) bm = Ok l /\
     forall p,
       In p l <->
       exists names c,
         descends its names c /\ nodeIsDirectory c = false /\
         nodeIsDeleted c = false /\ p = joinAll pathJoin EmptyString names) /\
  (exists l,
     getFileList normalize pathJoin path (Some false) bm = Ok l /\
     forall p,
       In p l <->
       exists k c,
         In (k, c) its /\ nodeIsDirectory c = false /\
         nodeIsDeleted c = false /\ p = pathJoin EmptyString k).
Proof.
  intros Hg Hi. unfold getFileList. rewrite Hg, Hi. split.
  - eexists. split; [reflexivity|]. split; [reflexivity|].
    intros p. apply findFiles_recursive.
  - eexists. split; [reflexivity|]. intros p. apply findFiles_flat.
Qed.

Lemma getFileList_lists_live_files_witness :
  exists l,
    getFileList pskNormalize (fun a b => join [a; b]) "a" None mapWithFile = Ok l /\
    In "/b/file.txt" l.
Proof.
  destruct (proj1 (getFileList_lists_live_files pskNormalize (fun a b => join [a; b])
                     "a" mapWithFile _ _ _ eq_refl eq_refl))
    as [l [H1 [_ H2]]].
  exists l. split; [exact H1|]. apply H2.
  exists ["b"; "file.txt"],
         (Node [("createdAt", VStr "t1"); ("updatedAt", VStr "t1")] None
               (Some [mkBrickRef "c1" "h1" None None])).
  split; [|split; [reflexivity | split; reflexivity]].
  eapply descends_deeper; [left; reflexivity | reflexivity |].
  apply descends_child. left. reflexivity.
Defined.

(** X17.  [getFolderList] of a path that resolves to a directory: with
    [recursive] left out or false it lists exactly the directories among
    the directory's own items that are not tombstoned; with [recursive]
    true it lists exactly the directories that are not tombstoned and are
    reached from the items through directories that are not tombstoned,
    each under the join of the names that lead to it. *)
Theorem getFolderList_lists_live_folders (normalize : string -> string)
    (pathJoin : string -> string -> string) path bm r n its :
  getDeepestNode normalize path bm = Ok (Some (r, n)) ->
  items n = Some its ->
  (exists l,
     getFolderList normalize pathJoin path None bm = Ok l /\
     getFolderList normalize pathJoin path (Some false) bm = Ok l /\
     forall p,
       In p l <->
       exists k c,
         In (k, c) its /\ nodeIsDirectory c = true /\
         nodeIsDeleted c = false /\ p = pathJoin EmptyString k) /\
  (exists l,
     getFolderList normalize pathJoin path (Some true) bm = Ok l /\
     forall p,
       In p l <->
       exists names c,
         descendsLive its names c /\ nodeIsDirectory c = true /\
         nodeIsDeleted c = false /\ p = joinAll pathJoin EmptyString names).
Proof.
  intros Hg Hi. unfold getFolderList. rewrite Hg, Hi. split.
  - eexists. split; [reflexivity|]. split; [reflexivity|].
    intros p. apply findFolders_flat.
  - eexists. split; [reflexivity|]. intros p. apply findFolders_recursive.
Qed.

Lemma getFolderList_lists_live_folders_witness :
  exists l,
    getFolderList pskNormalize (fun a b => join [a; b]) "/" (Some true) mapWithFolder =
      Ok l /\
    In "/d/e" l.
Proof.
  destruct (proj2 (getFolderList_lists_live_folders pskNormalize
                     (fun a b => join [a; b]) "/" mapWithFolder _ _ _ eq_refl eq_refl))
    as [l [H1 H2]].
  exists l. split; [exact H1|]. apply H2.
  exists ["d"; "e"], (Node [("createdAt", VStr "t1")] (Some []) None).
  split; [|split; [reflexivity | split; reflexivity]].
  eapply descendsLive_deeper; [left; reflexivity | reflexivity | reflexivity |].
  apply descendsLive_child. left. reflexivity.
Defined.

(** ** What a call leaves alone *)

Lemma isPrefix_diverge r :
  forall r1 k, refsDiverge r (r1 ++ [k]) = true -> isPrefix r r1 = false.
Proof.
  induction r as [|x r IH]; intros r1 k; [discriminate|].
  destruct r1 as [|x1 r1]; [reflexivity|]. simpl.
  destruct (String.eqb x x1); [apply IH | reflexivity].
Qed.

Lemma refsDiverge_nil r : refsDiverge r [] = false.
Proof. now destruct r. Qed.

(** A path that resolves to a reference diverging from the one that is
    mutated resolves to the same node afterwards, when the mutation keeps
    the kind of the node. *)
Lemma getDeepestNode_mutateAt_diverge normalize other bm r f r2 n2 :
  getDeepestNode normalize other bm = Ok (Some (r2, n2)) ->
  refsDiverge r r2 = true ->
  (forall x, nodeAt r bm = Some x -> nodeIsDirectory (f x) = nodeIsDirectory x) ->
  getDeepestNode normalize other (mutateAt r f bm) = Ok (Some (r2, n2)).
Proof.
  intros Hg Hdiv Hkind.
  pose proof (getDeepestNode_sound _ _ _ _ _ Hg) as Hat.
  rewrite <- (nodeAt_mutateAt_diverge f r r2 bm Hdiv) in Hat.
  revert Hg. unfold getDeepestNode.
  destruct (String.eqb (normalize other) "/").
  - intros H. inversion H. subst r2. now rewrite refsDiverge_nil in Hdiv.
  - unfold navigate.
    destruct (navigateFrom (split slash (dirname (normalize other))) [] (header bm))
      as [[[r1 q]|]|e] eqn:E1; try discriminate.
    destruct (items q) as [its|] eqn:Ei; try discriminate.
    destruct (getProp (basename (normalize other)) its) as [c|] eqn:Ec;
      try discriminate.
    intros H. inversion H. subst r2 c. clear H.
    destruct (navigateFrom_updateRef_kind f _ [] (header bm) r r1 q E1
                (isPrefix_diverge _ _ _ Hdiv) Hkind) as [q' E2].
    cbn [header mutateAt withHeader]. simpl app in E2. rewrite E2.
    pose proof (navigateFrom_sound _ _ [] _ _ _ eq_refl E2) as Hq'.
    unfold nodeAt in Hat. simpl in Hat.
    rewrite lookupRef_app, Hq' in Hat.
    destruct (items q') as [its'|]; [|discriminate].
    now rewrite Hat.
Qed.

(** [navigate] ends at the same reference in a tree that has kept every
    node of the tree it walked, as a node of the same kind. *)
Lemma navigateFrom_keeps segs :
  forall r0 n n' t q,
    (forall r' x, lookupRef r' n = Some x ->
       exists x', lookupRef r' n' = Some x' /\ nodeIsDirectory x' = nodeIsDirectory x) ->
    navigateFrom segs r0 n = Ok (Some (r0 ++ t, q)) ->
    exists q', navigateFrom segs r0 n' = Ok (Some (r0 ++ t, q')).
Proof.
  induction segs as [|seg rest IH]; intros r0 n n' t q Hkeep; simpl.
  - intros H. injection H as Hr Hq.
    assert (Ht : t = []) by (apply (app_inv_head r0); now rewrite app_nil_r).
    subst t. rewrite app_nil_r. eexists. reflexivity.
  - destruct (String.eqb seg EmptyString); [now apply IH|].
    destruct (items n) as [its|] eqn:Ei; [|discriminate].
    destruct (getProp seg its) as [c|] eqn:Ec; [|discriminate].
    destruct (Hkeep [seg] c) as [c' [Hc' Hkc]]; [simpl; now rewrite Ei, Ec|].
    simpl in Hc'. destruct (items n') as [its'|] eqn:Ei'; [|discriminate].
    destruct (getProp seg its') as [c1|] eqn:Ec'; [|discriminate].
    inversion Hc'. subst c1. rewrite Hkc.
    destruct (nodeIsDirectory c); [|now apply IH].
    intros Hnav. destruct (navigateFrom_extends _ _ _ _ _ Hnav) as [t' Ht].
    rewrite <- app_assoc in Ht. apply app_inv_head in Ht. subst t.
    rewrite app_assoc in Hnav. rewrite app_assoc.
    apply (IH _ c c' _ q); [|exact Hnav].
    intros r' x Hx. destruct (Hkeep (seg :: r') x) as [x' [Hx' Hk]].
    + simpl. now rewrite Ei, Ec.
    + exists x'. split; [|exact Hk]. simpl in Hx'. now rewrite Ei', Ec' in Hx'.
Qed.

Lemma getDeepestNode_keeps normalize other bm bm' r2 n2 :
  (forall r' x, nodeAt r' bm = Some x ->
     exists x', nodeAt r' bm' = Some x' /\ nodeIsDirectory x' = nodeIsDirectory x) ->
  getDeepestNode normalize other bm = Ok (Some (r2, n2)) ->
  exists n2', getDeepestNode normalize other bm' = Ok (Some (r2, n2')) /\
              nodeAt r2 bm' = Some n2'.
Proof.
  intros Hkeep Hg.
  pose proof (getDeepestNode_sound _ _ _ _ _ Hg) as Hat.
  revert Hg. unfold getDeepestNode.
  destruct (String.eqb (normalize other) "/").
  - intros H. inversion H. subst. now exists (header bm').
  - unfold navigate, nodeAt in *.
    destruct (navigateFrom (split slash (dirname (normalize other))) [] (header bm))
      as [[[r1 q]|]|e] eqn:E1; try discriminate.
    destruct (items q) as [its|] eqn:Ei; try discriminate.
    destruct (getProp (basename (normalize other)) its) as [c|] eqn:Ec;
      try discriminate.
    intros H. inversion H. subst r2 c. clear H.
    destruct (navigateFrom_keeps _ [] (header bm) (header bm') r1 q Hkeep E1)
      as [q' E2].
    simpl app in E2. rewrite E2.
    pose proof (navigateFrom_sound _ _ [] _ _ _ eq_refl E2) as Hq'.
    destruct (Hkeep _ _ Hat) as [x' [Hx' _]].
    pose proof Hx' as Hx''. rewrite lookupRef_app, Hq' in Hx''.
    destruct (items q') as [its'|]; [|discriminate].
    rewrite Hx''. now exists x'.
Qed.

Lemma createNodesLoop_diverge hdr now ty names :
  forallb isNonEmptyString names = true ->
  forall n r', refsDiverge names r' = true ->
    lookupRef r' (fst (createNodesLoop hdr now ty names n)) = lookupRef r' n.
Proof.
  induction names as [|s rest IH]; [discriminate|].
  intros Hall n r' Hdiv. simpl in Hall. apply andb_prop in Hall.
  destruct Hall as [Hs Hrest].
  rewrite (createNodesLoop_plain _ _ _ _ _ Hs).
  destruct (items n) as [its|] eqn:Ei;
    [|now rewrite loopIteration_throws by exact Ei].
  destruct (loopIteration_shape hdr now ty s (isEmptyList rest)
              (createNodesLoop hdr now ty rest) n its Ei)
    as [child [res [Eloop Hres]]].
  rewrite Eloop. cbn [fst].
  destruct r' as [|k t]; [discriminate|].
  cbn [lookupRef items]. rewrite Ei. simpl in Hdiv.
  destruct (String.eqb s k) eqn:Esk.
  - apply String.eqb_eq in Esk. subst k. rewrite getProp_setProp_same.
    destruct rest as [|s2 rest]; [discriminate|]. cbn [isEmptyList] in Hres.
    destruct Hres as [r'' [Ek _]].
    assert (Hchild : lookupRef t child =
              lookupRef t (match getProp s its with
                           | Some c0 => clearDeletedAt c0
                           | None => freshNode hdr now Parent
                           end)).
    { rewrite <- (IH Hrest (match getProp s its with
                            | Some c0 => clearDeletedAt c0
                            | None => freshNode hdr now Parent
                            end) t Hdiv).
      now rewrite Ek. }
    rewrite Hchild.
    assert (Ht : t <> []) by (intros ->; now rewrite refsDiverge_nil in Hdiv).
    destruct (getProp s its) as [c0|].
    + now apply lookupRef_same_items.
    + destruct t as [|k t]; [congruence|]. simpl. now rewrite items_freshNode.
  - apply String.eqb_neq in Esk. now rewrite getProp_setProp_other.
Qed.

Lemma createNodesFromPath_diverge now ty p bm r' :
  pathIsPlain p = true ->
  refsDiverge (pathNames p) r' = true ->
  nodeAt r' (fst (createNodesFromPath now ty p bm)) = nodeAt r' bm.
Proof.
  intros Hplain Hdiv. unfold createNodesFromPath, nodeAt.
  destruct (pathIsPlain_cases p Hplain) as [Hne [Hall Hsplit]].
  assert (Hloop : createNodesLoop (header bm) now ty (split slash p) =
                  createNodesLoop (header bm) now ty (pathNames p)).
  { destruct Hsplit as [-> | ->]; [reflexivity|].
    now apply createNodesLoop_leading. }
  rewrite Hloop.
  pose proof (createNodesLoop_diverge (header bm) now ty _ Hall (header bm) r' Hdiv) as H.
  destruct (createNodesLoop _ _ _ _ _) as [h res]. exact H.
Qed.

Lemma items_appendBrick hdr now brick n :
  items (fst (appendBrick hdr now brick n)) = items n.
Proof.
  unfold appendBrick. rewrite hashLinks_stamp.
  destruct (hashLinks n); cbn [fst items setHashLinksProp]; apply items_stamp.
Qed.

(** X18.  [add] leaves the other paths alone: a path that resolves to a
    node whose reference parts from the names of the path added to (neither
    leads to the other) resolves to the same node after the call, whether
    the call returned or threw, so [getBricksMeta] and [getMetadata] give
    for it what they gave before. *)
Theorem add_leaves_other_paths (normalize : string -> string)
    now path brick bm other r2 n2 :
  pathIsPlain (normalize path) = true ->
  getDeepestNode normalize other bm = Ok (Some (r2, n2)) ->
  refsDiverge (pathNames (normalize path)) r2 = true ->
  getDeepestNode normalize other (fst (add normalize now path brick bm)) =
    Ok (Some (r2, n2)) /\
  getBricksMeta normalize other (fst (add normalize now path brick bm)) =
    getBricksMeta normalize other bm /\
  getMetadata normalize other (fst (add normalize now path brick bm)) =
    getMetadata normalize other bm.
Proof.
  intros Hplain Hg Hdiv.
  assert (H : getDeepestNode normalize other (fst (add normalize now path brick bm)) =
              Ok (Some (r2, n2))).
  { unfold add. rewrite (pathIsPlain_not_empty _ Hplain).
    assert (H1 : getDeepestNode normalize other
                   (fst (createNodesFromPath now Child (normalize path) bm)) =
                 Ok (Some (r2, n2))).
    { destruct (getDeepestNode_keeps normalize other bm
                  (fst (createNodesFromPath now Child (normalize path) bm)) r2 n2)
        as [n2' [Hg' Hat']]; [|exact Hg|].
      - intros r' x Hx.
        destruct (createNodesFromPath_keeps now Child (normalize path) bm r' x Hx)
          as [x' [Hx' [_ [Hk _]]]].
        now exists x'.
      - rewrite (createNodesFromPath_diverge now Child _ bm r2 Hplain Hdiv) in Hat'.
        rewrite (getDeepestNode_sound _ _ _ _ _ Hg) in Hat'.
        inversion Hat'. subst n2'. exact Hg'. }
    destruct (createNodesFromPath now Child (normalize path) bm) as [bm1 [r|e]] eqn:Ec;
      cbn [fst] in *; [|exact H1].
    destruct (createNodesFromPath_spec normalize now Child _ path bm bm1 r
                eq_refl Hplain Ec) as [-> _].
    pose proof (getDeepestNode_mutateAt_diverge normalize other bm1 _
                  clearDeletedAtIfTruthy r2 n2 H1 Hdiv
                  (fun x _ => nodeIsDirectory_items _ _ (items_clearIfTruthy x))) as H2.
    destruct (nodeAt (pathNames (normalize path))
                (mutateAt (pathNames (normalize path)) clearDeletedAtIfTruthy bm1))
      as [n|] eqn:En; [|exact H2].
    pose proof (items_appendBrick (header bm) now (brickObj brick) n) as Hi.
    destruct (appendBrick (header bm) now (brickObj brick) n) as [n' res].
    cbn [fst] in *.
    apply (getDeepestNode_mutateAt_diverge normalize other _ _ _ r2 n2 H2 Hdiv).
    intros x Hx. rewrite En in Hx. inversion Hx. subst x.
    now apply nodeIsDirectory_items. }
  split; [exact H|]. unfold getBricksMeta, getMetadata. now rewrite H, Hg.
Qed.

Lemma add_leaves_other_paths_witness :
  getBricksMeta pskNormalize "a/b/file.txt"
    (fst (add pskNormalize "t2" "a/b/other.txt" brickWithKey mapWithFile)) =
  Ok (Some [mkBrickRef "c1" "h1" None None]).
Proof.
  exact (proj1 (proj2 (add_leaves_other_paths pskNormalize "t2" "a/b/other.txt"
                         brickWithKey mapWithFile "a/b/file.txt"
                         ["a"; "b"; "file.txt"]
                         (Node [("createdAt", VStr "t1"); ("updatedAt", VStr "t1")] None
                               (Some [mkBrickRef "c1" "h1" None None]))
                         eq_refl eq_refl eq_refl))).
Defined.

(** X19.  [delete], [emptyList], [setMetadata] and [updateMetadata]
    leave the other paths alone: when the path they are called with
    resolves to a node, a path that resolves to a node whose reference
    parts from that node's (neither leads to the other) resolves to the
    same node after the call. *)
Theorem mutation_leaves_other_paths (normalize : string -> string)
    now path other bm r n r2 n2 :
  getDeepestNode normalize path bm = Ok (Some (r, n)) ->
  getDeepestNode normalize other bm = Ok (Some (r2, n2)) ->
  refsDiverge r r2 = true ->
  (normalize (normalize path) = normalize path ->
   getDeepestNode normalize other (fst (delete normalize now path bm)) =
     Ok (Some (r2, n2))) /\
  getDeepestNode normalize other (fst (emptyList normalize now path bm)) =
    Ok (Some (r2, n2)) /\
  (forall m,
     getDeepestNode normalize other (fst (setMetadata normalize path m bm)) =
       Ok (Some (r2, n2))) /\
  (forall k v,
     getDeepestNode normalize other (fst (updateMetadata normalize path k v bm)) =
       Ok (Some (r2, n2))).
Proof.
  intros Hg Ho Hdiv.
  assert (Hmut : forall f,
            (forall x, nodeIsDirectory (f x) = nodeIsDirectory x) ->
            getDeepestNode normalize other (mutateAt r f bm) = Ok (Some (r2, n2))).
  { intros f Hf. apply getDeepestNode_mutateAt_diverge; auto. }
  split; [|split; [|split]].
  - intros Hidem. unfold delete.
    rewrite (getDeepestNode_normalize normalize (normalize path) path bm Hidem), Hg.
    destruct (nodeIsDeleted n); cbn [fst]; [exact Ho|].
    apply Hmut. intros x. apply nodeIsDirectory_deleteNode.
  - unfold emptyList. rewrite Hg. cbn [fst].
    apply Hmut. intros x. apply nodeIsDirectory_truncateNode.
  - intros m. unfold setMetadata. rewrite Hg. cbn [fst]. now apply Hmut.
  - intros k v. unfold updateMetadata. rewrite Hg. cbn [fst]. now apply Hmut.
Qed.

Lemma mutation_leaves_other_paths_witness :
  getDeepestNode pskNormalize "d/e"
    (fst (delete pskNormalize "t2" "f"
            (fst (add pskNormalize "t1" "f" brickC1 mapWithFolder)))) =
    Ok (Some (["d"; "e"], Node [("createdAt", VStr "t1")] (Some []) None)).
Proof.
  exact (proj1 (mutation_leaves_other_paths pskNormalize "t2" "f" "d/e"
                  (fst (add pskNormalize "t1" "f" brickC1 mapWithFolder))
                  ["f"]
                  (Node [("createdAt", VStr "t1"); ("updatedAt", VStr "t1")] None
                        (Some [mkBrickRef "c1" "h1" None None]))
                  ["d"; "e"] (Node [("createdAt", VStr "t1")] (Some []) None)
                  eq_refl eq_refl eq_refl) eq_refl).
Defined.

(** ** The creation time stamp of the map *)

Lemma createdAt_stamp hdr now prop n :
  prop <> "createdAt" ->
  getProp "createdAt" (metadata (updateTimeMetadata hdr now prop n)) =
  getProp "createdAt" (metadata n).
Proof.
  intros Hp. unfold updateTimeMetadata.
  destruct (timestampsEnabled hdr); [|reflexivity].
  cbn [metadata setMetadataProp]. now rewrite getProp_setProp_other.
Qed.

Lemma createdAt_clear n :
  getProp "createdAt" (metadata (clearDeletedAt n)) = getProp "createdAt" (metadata n).
Proof.
  unfold clearDeletedAt. cbn [metadata setMetadataProp].
  now rewrite getProp_deleteProp_other.
Qed.

Lemma createdAt_clearIfTruthy n :
  getProp "createdAt" (metadata (clearDeletedAtIfTruthy n)) =
  getProp "createdAt" (metadata n).
Proof.
  unfold clearDeletedAtIfTruthy.
  destruct (getProp "deletedAt" (metadata n)) as [v|]; [|reflexivity].
  destruct (truthy v); [apply createdAt_clear | reflexivity].
Qed.

Lemma createdAt_truncateNode hdr now n :
  getProp "createdAt" (metadata (truncateNode hdr now n)) =
  getProp "createdAt" (metadata n).
Proof.
  unfold truncateNode. cbn [metadata setHashLinksProp].
  destruct (nodeIsDirectory _); cbn [metadata setItemsProp];
    rewrite createdAt_stamp by discriminate; apply createdAt_clear.
Qed.

Lemma createdAt_appendBrick hdr now brick n :
  getProp "createdAt" (metadata (fst (appendBrick hdr now brick n))) =
  getProp "createdAt" (metadata n).
Proof.
  unfold appendBrick. rewrite hashLinks_stamp.
  destruct (hashLinks n); cbn [fst metadata setHashLinksProp];
    now rewrite createdAt_stamp by discriminate.
Qed.

Lemma createdAtOf_mutateAt f r bm :
  (forall x, nodeAt r bm = Some x ->
     getProp "createdAt" (metadata (f x)) = getProp "createdAt" (metadata x)) ->
  createdAtOf (mutateAt r f bm) = createdAtOf bm.
Proof.
  unfold createdAtOf, mutateAt, nodeAt. cbn [header withHeader]. intros Hf.
  destruct r as [|k r]; simpl; [now apply Hf|].
  destruct (items (header bm)) as [its|]; [|reflexivity].
  now destruct (getProp k its).
Qed.

Lemma createdAtOf_createNodesFromPath now ty p bm :
  createdAtOf (fst (createNodesFromPath now ty p bm)) = createdAtOf bm.
Proof.
  destruct (createNodesFromPath_keeps now ty p bm [] (header bm) eq_refl)
    as [c' [Hc' [_ [_ Hm]]]].
  unfold nodeAt in Hc'. simpl in Hc'. inversion Hc' as [Hh].
  unfold createdAtOf. rewrite Hh.
  destruct Hm as [-> | ->]; [reflexivity|].
  now rewrite getProp_deleteProp_other.
Qed.

Lemma createdAtOf_getNodeFromPath normalize now path bm :
  createdAtOf (fst (getNodeFromPath normalize now path bm)) = createdAtOf bm.
Proof.
  unfold getNodeFromPath.
  destruct (String.eqb (normalize path) EmptyString); [reflexivity|].
  pose proof (createdAtOf_createNodesFromPath now Child (normalize path) bm) as H.
  destruct (createNodesFromPath now Child (normalize path) bm) as [bm1 [r|e]];
    cbn [fst] in *; [|exact H].
  rewrite createdAtOf_mutateAt; [exact H|].
  intros x _. apply createdAt_clearIfTruthy.
Qed.

Lemma createdAtOf_perform normalize now o bm :
  writesNoCallerMetadata o = true ->
  createdAtOf (perform normalize now o bm) = createdAtOf bm.
Proof.
  destruct o as [path brick|path|path|src dst|path|path|path brick|path brick
                 |path m|path k v]; try discriminate; intros _; cbn [perform].
  - unfold add.
    destruct (String.eqb (normalize path) EmptyString); [reflexivity|].
    pose proof (createdAtOf_createNodesFromPath now Child (normalize path) bm) as H.
    destruct (createNodesFromPath now Child (normalize path) bm) as [bm1 [r|e]];
      cbn [fst] in *; [|exact H].
    assert (H2 : createdAtOf (mutateAt r clearDeletedAtIfTruthy bm1) = createdAtOf bm).
    { rewrite createdAtOf_mutateAt; [exact H|].
      intros x _. apply createdAt_clearIfTruthy. }
    destruct (nodeAt r (mutateAt r clearDeletedAtIfTruthy bm1)) as [n|] eqn:En;
      [|exact H2].
    pose proof (createdAt_appendBrick (header bm) now (brickObj brick) n) as Ha.
    destruct (appendBrick (header bm) now (brickObj brick) n) as [n' res].
    cbn [fst] in *. rewrite createdAtOf_mutateAt; [exact H2|].
    intros x Hx. rewrite En in Hx. inversion Hx. subst x. exact Ha.
  - unfold delete.
    destruct (getDeepestNode normalize (normalize path) bm) as [[[r n]|]|e];
      try reflexivity.
    destruct (nodeIsDeleted n); [reflexivity|]. cbn [fst].
    apply createdAtOf_mutateAt. intros x _. apply createdAt_deleteNode.
  - unfold emptyList.
    destruct (getDeepestNode normalize path bm) as [[[r n]|]|e]; try reflexivity.
    cbn [fst]. apply createdAtOf_mutateAt. intros x _. apply createdAt_truncateNode.
  - unfold copy.
    destruct (getDeepestNode normalize src bm) as [[[rs n]|]|e]; try reflexivity.
    pose proof (createdAtOf_createNodesFromPath now
                  (if nodeIsDirectory n then Parent else Child) dst bm) as H.
    destruct (createNodesFromPath now (if nodeIsDirectory n then Parent else Child)
                dst bm) as [bm1 [rd|e]]; cbn [fst] in *; [|exact H].
    destruct (nodeAt rs bm1) as [n1|]; [|exact H].
    destruct (items n1) as [its|].
    + cbn [fst]. now rewrite createdAtOf_mutateAt.
    + destruct (hashLinks n1) as [hl|]; [|exact H].
      cbn [fst]. now rewrite createdAtOf_mutateAt.
  - unfold createFolder.
    destruct (createNode normalize now path Parent bm) as [bm' [[]|e]] eqn:Ec.
    + destruct (createNode_ok _ _ _ _ _ _ Ec) as [r Hr].
      pose proof (createdAtOf_createNodesFromPath now Parent (normalize path) bm) as H.
      now rewrite Hr in H.
    + cbn [fst]. revert Ec. unfold createNode.
      pose proof (createdAtOf_createNodesFromPath now Parent (normalize path) bm) as H.
      destruct (createNodesFromPath now Parent (normalize path) bm) as [bm1 [r|e1]];
        cbn [fst] in H;
        repeat match goal with
               | |- context [match ?x with _ => _ end] => destruct x
               | |- context [if ?x then _ else _] => destruct x
               end;
        intros Hx; inversion Hx; subst; try reflexivity; exact H.
  - unfold createFile.
    destruct (createNode normalize now path Child bm) as [bm' [[]|e]] eqn:Ec.
    + destruct (createNode_ok _ _ _ _ _ _ Ec) as [r Hr].
      pose proof (createdAtOf_createNodesFromPath now Child (normalize path) bm) as H.
      now rewrite Hr in H.
    + cbn [fst]. revert Ec. unfold createNode.
      pose proof (createdAtOf_createNodesFromPath now Child (normalize path) bm) as H.
      destruct (createNodesFromPath now Child (normalize path) bm) as [bm1 [r|e1]];
        cbn [fst] in H;
        repeat match goal with
               | |- context [match ?x with _ => _ end] => destruct x
               | |- context [if ?x then _ else _] => destruct x
               end;
        intros Hx; inversion Hx; subst; try reflexivity; exact H.
  - unfold replaceFirstBrick, replaceBrickWith.
    pose proof (createdAtOf_getNodeFromPath normalize now path bm) as H.
    destruct (getNodeFromPath normalize now path bm) as [bm1 [r|e]];
      cbn [fst] in *; [|exact H].
    assert (H2 : createdAtOf
                   (mutateAt r (updateTimeMetadata (header bm) now "updatedAt") bm1) =
                 createdAtOf bm).
    { rewrite createdAtOf_mutateAt; [exact H|].
      intros x _. now apply createdAt_stamp. }
    destruct (nodeAt r _) as [n|]; [|exact H2].
    destruct (hashLinks n); [|exact H2]. cbn [fst]. now rewrite createdAtOf_mutateAt.
  - unfold replaceLastBrick, replaceBrickWith.
    pose proof (createdAtOf_getNodeFromPath normalize now path bm) as H.
    destruct (getNodeFromPath normalize now path bm) as [bm1 [r|e]];
      cbn [fst] in *; [|exact H].
    assert (H2 : createdAtOf
                   (mutateAt r (updateTimeMetadata (header bm) now "updatedAt") bm1) =
                 createdAtOf bm).
    { rewrite createdAtOf_mutateAt; [exact H|].
      intros x _. now apply createdAt_stamp. }
    destruct (nodeAt r _) as [n|]; [|exact H2].
    destruct (hashLinks n); [|exact H2]. cbn [fst]. now rewrite createdAtOf_mutateAt.
Qed.

(** X20.  The creation time stamp of the map is never rewritten: after
    any sequence of [add], [delete], [emptyList], [copy], [createFolder],
    [createFile], [replaceFirstBrick] and [replaceLastBrick] calls, each of
    which may return or throw, [header.metadata.createdAt] is what it was,
    so a map stays with or without time stamps as it was created. *)
Theorem operations_keep_createdAt (normalize : string -> string)
    (calls : list (string * operation)) (bm : BrickMap) :
  forallb (fun c => writesNoCallerMetadata (snd c)) calls = true ->
  createdAtOf (run normalize calls bm) = createdAtOf bm /\
  timestampsEnabled (header (run normalize calls bm)) = timestampsEnabled (header bm).
Proof.
  intros Hall.
  assert (H : createdAtOf (run normalize calls bm) = createdAtOf bm).
  { revert bm. induction calls as [|[now o] calls IH]; intros bm; [reflexivity|].
    simpl in Hall. apply andb_prop in Hall. destruct Hall as [Ho Hrest].
    simpl. rewrite (IH Hrest). now apply createdAtOf_perform. }
  split; [exact H|]. unfold createdAtOf in H. unfold timestampsEnabled. now rewrite H.
Qed.

Lemma operations_keep_createdAt_witness :
  createdAtOf
    (run pskNormalize
       [("t1", OpAdd "a/b" brickC1); ("t2", OpDelete "/"); ("t3", OpCreateFolder "a/b/c");
        ("t4", OpCopy "a" "z"); ("t5", OpEmptyList "/")]
       freshMap) = Some (VStr "t0").
Proof.
  exact (proj1 (operations_keep_createdAt pskNormalize
                  [("t1", OpAdd "a/b" brickC1); ("t2", OpDelete "/");
                   ("t3", OpCreateFolder "a/b/c"); ("t4", OpCopy "a" "z");
                   ("t5", OpEmptyList "/")]
                  freshMap eq_refl)).
Defined.

(** ** Paths through a file *)

Lemma append_slash_not_root file name :
  file <> EmptyString -> String.eqb (file ++ String slash name) "/" = false.
Proof.
  intros Hf. destruct file as [|c file]; [congruence|]. simpl.
  destruct (Ascii.eqb c "/"); [|reflexivity]. now destruct file.
Qed.

(** X21.  [navigate] steps over a segment that names a file: a path
    [file/name] whose first segment names a file of the header is resolved
    by [getDeepestNode] to the header's own entry [name] (to the file
    itself when [name] is the file's name), not to anything below the
    file.  [name] is none of the names inherited from [Object.prototype],
    for which the read of a missing entry finds the inherited function. *)
Theorem getDeepestNode_skips_file_segment (normalize : string -> string)
    path file name bm its c :
  normalize path = (file ++ String slash name)%string ->
  file <> EmptyString -> hasNoSlash file = true -> hasNoSlash name = true ->
  inheritedName name = false ->
  items (header bm) = Some its ->
  getProp file its = Some c -> nodeIsDirectory c = false ->
  getDeepestNode normalize path bm =
    match getProp name its with
    | Some d => Ok (Some ([name], d))
    | None => Ok None
    end.
Proof.
  intros Hnorm Hne Hfile Hname _ Hi Hc Hkind.
  rewrite getDeepestNode_resolveFrom, Hnorm, (append_slash_not_root _ _ Hne).
  rewrite (split_app_slash _ _ Hfile), (split_plain _ Hname).
  unfold resolveFrom. cbn [removelast last navigateFrom].
  destruct (String.eqb file EmptyString) eqn:E;
    [apply String.eqb_eq in E; congruence|].
  rewrite Hi, Hc, Hkind, Hi. now destruct (getProp name its).
Qed.

Lemma getDeepestNode_skips_file_segment_witness :
  getDeepestNode pskNormalize "f/f" mapWithTopFile =
    Ok (Some (["f"],
              Node [("createdAt", VStr "t1"); ("updatedAt", VStr "t1")] None
                   (Some [mkBrickRef "c1" "h1" None None]))).
Proof.
  exact (getDeepestNode_skips_file_segment pskNormalize "f/f" "f" "f" mapWithTopFile
           _ _ eq_refl ltac:(discriminate) eq_refl eq_refl eq_refl eq_refl eq_refl
           eq_refl).
Defined.

(** ** Items of the header *)

Lemma setProp_not_empty {A : Type} k (v : A) o : isEmptyList (setProp k v o) = false.
Proof. destruct o as [|[k0 v0] o]; simpl; [reflexivity|]. now destruct (String.eqb k k0). Qed.

Lemma hasItems_updateRef f r n :
  r <> [] ->
  match items n with Some its => isEmptyList its = false | None => True end ->
  match items (updateRef r f n) with
  | Some its => isEmptyList its = false
  | None => True
  end.
Proof.
  destruct r as [|k r]; [congruence|]. intros _. simpl.
  destruct (items n) as [its|] eqn:Ei; [|now rewrite Ei].
  destruct (getProp k its); [|now rewrite Ei].
  intros _. cbn [items setItemsProp]. apply setProp_not_empty.
Qed.

(** X22.  [hasItems] counts tombstones: it is true after an [add] that
    returned for a path without empty segments, and once it is true
    [delete] never makes it false again, except when the path deleted
    normalises to the root. *)
Theorem hasItems_after_add_and_delete (normalize : string -> string)
    now path brick bm :
  (forall bm',
     pathIsPlain (normalize path) = true ->
     add normalize now path brick bm = (bm', Ok tt) ->
     hasItems bm' = Ok true) /\
  (hasItems bm = Ok true ->
   String.eqb (normalize (normalize path)) "/" = false ->
   hasItems (fst (delete normalize now path bm)) = Ok true).
Proof.
  split.
  - intros bm' Hplain Hadd.
    destruct (add_ok _ _ _ _ _ _ Hplain Hadd) as [_ [c [Hg _]]].
    pose proof (getDeepestNode_sound _ _ _ _ _ Hg) as Hat.
    destruct (pathIsPlain_cases _ Hplain) as [Hne _].
    unfold nodeAt in Hat. unfold hasItems.
    destruct (pathNames (normalize path)) as [|k t]; [congruence|].
    simpl in Hat. destruct (items (header bm')) as [its|]; [|discriminate].
    destruct its as [|kv its]; [discriminate | reflexivity].
  - intros Hhas Hroot. unfold delete.
    destruct (getDeepestNode normalize (normalize path) bm) as [[[r n]|]|e] eqn:Hg;
      try exact Hhas.
    destruct (nodeIsDeleted n); [exact Hhas|]. cbn [fst].
    assert (Hr : r <> []).
    { revert Hg. unfold getDeepestNode. rewrite Hroot.
      destruct (navigate _ bm) as [[[r1 q]|]|e]; try discriminate.
      destruct (items q) as [its|]; try discriminate.
      destruct (getProp _ its); try discriminate.
      intros H. inversion H. now destruct r1. }
    unfold hasItems in *. cbn [header mutateAt withHeader].
    pose proof (hasItems_updateRef (deleteNode (header bm) now) r (header bm) Hr) as H.
    destruct (items (header bm)) as [its|] eqn:Ei; [|discriminate].
    inversion Hhas as [Hemp]. apply negb_true_iff in Hemp. specialize (H Hemp).
    destruct (items (updateRef r (deleteNode (header bm) now) (header bm)))
      as [its'|] eqn:Ei'.
    + now rewrite H.
    + exfalso. destruct r as [|k r]; [congruence|]. simpl in Ei'. rewrite Ei in Ei'.
      destruct (getProp k its); [discriminate | congruence].
Qed.

Lemma hasItems_after_add_and_delete_witness :
  hasItems (fst (add pskNormalize "t1" "f" brickC1 freshMap)) = Ok true /\
  hasItems (fst (delete pskNormalize "t2" "f" mapWithTopFile)) = Ok true.
Proof.
  split.
  - exact (proj1 (hasItems_after_add_and_delete pskNormalize "t1" "f" brickC1 freshMap)
             (fst (add pskNormalize "t1" "f" brickC1 freshMap)) eq_refl eq_refl).
  - exact (proj2 (hasItems_after_add_and_delete pskNormalize "t2" "f" brickC1
                    mapWithTopFile) eq_refl eq_refl).
Defined.

(** ** The snapshot *)

(** X23.  The snapshot [getState] returns is JSON data: it holds no
    byte buffer, and printing it again gives the same data. *)
Theorem getState_isJSON (bm : BrickMap) :
  isJSON (getState bm) = true /\ stringify (getState bm) = getState bm.
Proof.
  unfold getState. split.
  - apply isJSON_stringify.
  - apply stringify_isJSON, isJSON_stringify.
Qed.

(** ** Deleting and adding again *)

(** X24.  A file that was deleted comes back by [add]: when the path,
    without empty segments, resolved to a file, after [delete] and then an
    [add] that returned, the path is not tombstoned and [getBricksMeta]
    returns the new brick object alone. *)
Theorem delete_then_add (normalize : string -> string)
    now now' path brick bm r n bm' :
  pathIsPlain (normalize path) = true ->
  normalize (normalize path) = normalize path ->
  getDeepestNode normalize path bm = Ok (Some (r, n)) ->
  nodeIsDirectory n = false ->
  nodeIsDeleted n = false ->
  add normalize now' path brick (fst (delete normalize now path bm)) = (bm', Ok tt) ->
  fileExists normalize path bm' = Ok (Some true) /\
  fileDeleted normalize path bm' = Ok (Some false) /\
  getBricksMeta normalize path bm' = Ok (Some [brickObj brick]).
Proof.
  intros Hplain Hidem Hg Hfile Hlive. unfold delete.
  rewrite (getDeepestNode_normalize normalize (normalize path) path bm Hidem), Hg, Hlive.
  cbn [fst]. intros Hadd.
  pose proof (getDeepestNode_mutateAt_kind normalize path bm r n
                (deleteNode (header bm) now) Hg
                (nodeIsDirectory_deleteNode _ _ _)) as Hg1.
  destruct (add_ok _ _ _ _ _ _ Hplain Hadd) as [Hold [c [Hc [Hl [Hi Hh]]]]].
  destruct (at_present _ _ _ _ _ _ Hold Hg1) as [_ [_ [Ei Eb]]].
  destruct (deleteNode_file (header bm) now n Hfile) as [Hhl Hit].
  rewrite Hhl in Eb. rewrite Hit in Ei.
  unfold fileDeleted. rewrite (fileExists_of _ _ _ _ _ Hc), Hc, Hl.
  split; [reflexivity|]. split; [reflexivity|].
  rewrite (getBricksMeta_of _ _ _ _ _ Hc Hl) by congruence.
  now rewrite Hh, Eb.
Qed.

Lemma delete_then_add_witness :
  getBricksMeta pskNormalize "a/b/file.txt"
    (fst (add pskNormalize "t3" "a/b/file.txt" brickWithKey
            (fst (delete pskNormalize "t2" "a/b/file.txt" mapWithFile)))) =
  Ok (Some [mkBrickRef "c1" "h1" (Some 3%Z)
              (Some (VBuf [Byte.x01; Byte.xff; Byte.x00]))]).
Proof.
  exact (proj2 (proj2 (delete_then_add pskNormalize "t2" "t3" "a/b/file.txt"
                         brickWithKey mapWithFile _ _
                         (fst (add pskNormalize "t3" "a/b/file.txt" brickWithKey
                                 (fst (delete pskNormalize "t2" "a/b/file.txt"
                                         mapWithFile))))
                         eq_refl eq_refl eq_refl eq_refl eq_refl eq_refl))).
Defined.

(** ** Copying a directory *)

Section CopyListings.

Variable pathJoin : string -> string -> string.

Lemma findFilesAt_cloneNode recursive item :
  forall itemPath,
    findFilesAt pathJoin recursive (cloneNode item) itemPath =
    findFilesAt pathJoin recursive item itemPath.
Proof.
  induction item as [m l hl IH | m hl] using node_ind'; intros itemPath.
  - cbn [cloneNode]. rewrite !findFilesAt_directory.
    destruct recursive; [|reflexivity]. unfold findFiles, mapValues.
    induction IH as [|[k c] l Hc _ IHl]; [reflexivity|].
    cbn [map flat_map fst snd]. cbn [snd] in Hc. now rewrite Hc, IHl.
  - cbn [cloneNode findFilesAt].
    change (Node (cloneMetadata m) None
              match hl with Some l => Some (map cloneBrick l) | None => None end)
      with (cloneNode (Node m None hl)).
    now rewrite nodeIsDeleted_cloneNode.
Qed.

Lemma findFoldersAt_cloneNode recursive item :
  forall itemPath,
    findFoldersAt pathJoin recursive (cloneNode item) itemPath =
    findFoldersAt pathJoin recursive item itemPath.
Proof.
  induction item as [m l hl IH | m hl] using node_ind'; intros itemPath.
  - cbn [cloneNode]. rewrite !findFoldersAt_directory.
    change (Node (cloneMetadata m) (Some (mapValues cloneNode l))
              match hl with Some l0 => Some (map cloneBrick l0) | None => None end)
      with (cloneNode (Node m (Some l) hl)).
    rewrite nodeIsDeleted_cloneNode.
    destruct (nodeIsDeleted (Node m (Some l) hl)); [reflexivity|]. f_equal.
    destruct recursive; [|reflexivity]. unfold findFolders, mapValues.
    induction IH as [|[k c] l Hc _ IHl]; [reflexivity|].
    cbn [map flat_map fst snd]. cbn [snd] in Hc. now rewrite Hc, IHl.
  - reflexivity.
Qed.

Lemma findFiles_clone recursive its currentPath :
  findFiles pathJoin recursive (mapValues cloneNode its) currentPath =
  findFiles pathJoin recursive its currentPath.
Proof.
  unfold findFiles, mapValues.
  induction its as [|[k c] its IH]; [reflexivity|].
  cbn [map flat_map fst snd]. now rewrite findFilesAt_cloneNode, IH.
Qed.

Lemma findFolders_clone recursive its currentPath :
  findFolders pathJoin recursive (mapValues cloneNode its) currentPath =
  findFolders pathJoin recursive its currentPath.
Proof.
  unfold findFolders, mapValues.
  induction its as [|[k c] its IH]; [reflexivity|].
  cbn [map flat_map fst snd]. now rewrite findFoldersAt_cloneNode, IH.
Qed.

End CopyListings.

(** X25.  [copy] of a directory: when the source path resolves to a
    directory, the destination path has no empty segment, is in normal
    form, leads neither into the source nor to a node above it and did not
    name a file, then after [copy] has returned the destination lists the
    files and the folders the source listed. *)
Theorem copy_directory_then_lists (normalize : string -> string)
    (pathJoin : string -> string -> string)
    now srcPath dstPath bm bm' rs n recursive :
  pathIsPlain dstPath = true ->
  normalize dstPath = dstPath ->
  getDeepestNode normalize srcPath bm = Ok (Some (rs, n)) ->
  nodeIsDirectory n = true ->
  refsDiverge (pathNames dstPath) rs = true ->
  stat normalize dstPath bm <> Ok FileType ->
  copy normalize now srcPath dstPath bm = (bm', Ok tt) ->
  getFileList normalize pathJoin dstPath recursive bm' =
    getFileList normalize pathJoin srcPath recursive bm /\
  getFolderList normalize pathJoin dstPath recursive bm' =
    getFolderList normalize pathJoin srcPath recursive bm.
Proof.
  intros Hplain Hnorm Hg Hdir Hdiv Hstat. unfold copy. rewrite Hg, Hdir.
  destruct (createNodesFromPath now Parent dstPath bm) as [bm1 [rd|e]] eqn:Ec;
    [|discriminate].
  destruct (createNodesFromPath_spec normalize now Parent dstPath dstPath bm bm1 rd
              Hnorm Hplain Ec) as [-> [_ [_ [Hat [Hnew Hold]]]]].
  rewrite Hat in Hnew.
  pose proof (createNodesFromPath_diverge now Parent dstPath bm rs Hplain Hdiv) as Hsrc.
  rewrite Ec in Hsrc. cbn [fst] in Hsrc.
  rewrite Hsrc, (getDeepestNode_sound _ _ _ _ _ Hg).
  unfold nodeIsDirectory in Hdir. destruct (items n) as [its|] eqn:Ei; [|discriminate].
  intros H. inversion H. subst bm'. clear H.
  set (c1 := match nodeAt (pathNames dstPath) bm with
             | Some c => clearDeletedAt c
             | None => freshNode (header bm) now Parent
             end) in *.
  assert (Hc1 : nodeIsDirectory c1 = true).
  { unfold c1, nodeIsDirectory. unfold stat in Hstat. rewrite Hold in Hstat.
    destruct (nodeAt (pathNames dstPath) bm) as [c0|].
    - rewrite items_clearDeletedAt. unfold nodeIsDirectory in Hstat.
      destruct (items c0); [reflexivity | congruence].
    - now rewrite items_freshNode. }
  pose proof (getDeepestNode_mutateAt_kind normalize dstPath bm1 _ c1
                (setItemsProp (mapValues cloneNode its)) Hnew
                (eq_trans eq_refl (eq_sym Hc1))) as Hg'.
  unfold getFileList, getFolderList. rewrite Hg', Hg, Ei.
  cbn [items setItemsProp]. now rewrite findFiles_clone, findFolders_clone.
Qed.

Lemma copy_directory_then_lists_witness :
  getFileList pskNormalize (fun a b => join [a; b]) "z/w" None
    (fst (copy pskNormalize "t2" "a" "z/w" mapWithFile)) =
  getFileList pskNormalize (fun a b => join [a; b]) "a" None mapWithFile.
Proof.
  exact (proj1 (copy_directory_then_lists pskNormalize (fun a b => join [a; b])
                  "t2" "a" "z/w" mapWithFile
                  (fst (copy pskNormalize "t2" "a" "z/w" mapWithFile)) _ _ None
                  eq_refl eq_refl eq_refl eq_refl eq_refl ltac:(discriminate) eq_refl)).
Defined.

(** ** When a path can be walked *)

Lemma walkable_same_items names p p' :
  items p = items p' -> walkable names p = walkable names p'.
Proof. destruct names as [|s rest]; [reflexivity|]. simpl. now intros ->. Qed.

Lemma walkable_freshNode hdr now names :
  walkable names (freshNode hdr now Parent) = true.
Proof.
  destruct names as [|s [|s2 rest]]; simpl; try reflexivity;
    now rewrite items_freshNode.
Qed.

Lemma walkable_step s s2 rest n :
  walkable (s :: s2 :: rest) n =
  match items n with
  | None => false
  | Some its =>
      match getProp s its with
      | Some c => walkable (s2 :: rest) c
      | None => true
      end
  end.
Proof. reflexivity. Qed.

Lemma createNodesLoop_outcome hdr now ty names :
  names <> [] -> forallb isNonEmptyString names = true ->
  forall n,
    snd (createNodesLoop hdr now ty names n) =
    if walkable names n then Ok names else Throw TypeError.
Proof.
  induction names as [|s rest IH]; [congruence|].
  intros _ Hall n. simpl in Hall. apply andb_prop in Hall.
  destruct Hall as [Hs Hrest].
  rewrite (createNodesLoop_plain _ _ _ _ _ Hs).
  destruct (items n) as [its|] eqn:Ei.
  2:{ rewrite loopIteration_throws by exact Ei. simpl. now rewrite Ei. }
  destruct (loopIteration_shape hdr now ty s (isEmptyList rest)
              (createNodesLoop hdr now ty rest) n its Ei)
    as [child [res [Eloop Hres]]].
  rewrite Eloop. cbn [snd].
  destruct rest as [|s2 rest].
  - simpl in Hres. destruct Hres as [_ ->]. simpl. now rewrite Ei.
  - cbn [isEmptyList] in Hres. destruct Hres as [r' [Ek ->]].
    pose proof (IH ltac:(discriminate) Hrest
                  (match getProp s its with
                   | Some c0 => clearDeletedAt c0
                   | None => freshNode hdr now Parent
                   end)) as Hrec.
    rewrite Ek in Hrec. cbn [snd] in Hrec. rewrite Hrec.
    rewrite walkable_step, Ei.
    destruct (getProp s its) as [c0|].
    + rewrite (walkable_same_items (s2 :: rest) (clearDeletedAt c0) c0 eq_refl).
      now destruct (walkable (s2 :: rest) c0).
    + now rewrite walkable_freshNode.
Qed.

Lemma createNodesFromPath_outcome now ty p bm :
  pathIsPlain p = true ->
  snd (createNodesFromPath now ty p bm) =
  if walkable (pathNames p) (header bm) then Ok (pathNames p) else Throw TypeError.
Proof.
  intros Hplain. unfold createNodesFromPath.
  destruct (pathIsPlain_cases p Hplain) as [Hne [Hall Hsplit]].
  assert (Hloop : createNodesLoop (header bm) now ty (split slash p) =
                  createNodesLoop (header bm) now ty (pathNames p)).
  { destruct Hsplit as [-> | ->]; [reflexivity|].
    now apply createNodesLoop_leading. }
  rewrite Hloop.
  pose proof (createNodesLoop_outcome (header bm) now ty _ Hne Hall (header bm)) as H.
  destruct (createNodesLoop _ _ _ _ _) as [h res]. exact H.
Qed.

(** X26.  The outcome of [add] for a path without empty segments, none
    of whose names is inherited from [Object.prototype]: it throws a
    [TypeError] when the walk along the names of the path comes, before the
    last name, to a node that is not a directory, or when the path names a
    node without a list of bricks; in every other case it returns. *)
Theorem add_outcome (normalize : string -> string) now path brick bm :
  pathIsPlain (normalize path) = true ->
  existsb inheritedName (pathNames (normalize path)) = false ->
  snd (add normalize now path brick bm) =
    if walkable (pathNames (normalize path)) (header bm)
    then match nodeAt (pathNames (normalize path)) bm with
         | Some c =>
             match hashLinks c with
             | Some _ => Ok tt
             | None => Throw TypeError
             end
         | None => Ok tt
         end
    else Throw TypeError.
Proof.
  intros Hplain _. unfold add. rewrite (pathIsPlain_not_empty _ Hplain).
  pose proof (createNodesFromPath_outcome now Child _ bm Hplain) as Hout.
  destruct (createNodesFromPath now Child (normalize path) bm) as [bm1 [r|e]] eqn:Ec;
    cbn [snd] in Hout.
  - destruct (walkable (pathNames (normalize path)) (header bm)); [|discriminate].
    destruct (createNodesFromPath_spec normalize now Child _ path bm bm1 r
                eq_refl Hplain Ec) as [-> [_ [_ [Hat [Hnew Hold]]]]].
    set (names := pathNames (normalize path)) in *.
    set (c1 := match nodeAt names bm with
               | Some c => clearDeletedAt c
               | None => freshNode (header bm) now Child
               end) in *.
    assert (Hlive : nodeIsDeleted c1 = false).
    { unfold c1. destruct (nodeAt names bm);
        [apply nodeIsDeleted_clear | apply nodeIsDeleted_freshNode]. }
    rewrite (nodeAt_mutateAt names clearDeletedAtIfTruthy bm1 c1 Hat).
    rewrite (nodeIsDeleted_clearIfTruthy c1 Hlive).
    unfold appendBrick. rewrite hashLinks_stamp. unfold c1.
    destruct (nodeAt names bm) as [c0|].
    + rewrite hashLinks_clearDeletedAt. now destruct (hashLinks c0).
    + now rewrite hashLinks_freshNode.
  - cbn [snd]. destruct (walkable (pathNames (normalize path)) (header bm));
      [discriminate|]. now inversion Hout.
Qed.

Lemma add_outcome_witness :
  snd (add pskNormalize "t2" "a/b/file.txt/x" brickC1 mapWithFile) = Throw TypeError /\
  snd (add pskNormalize "t2" "a/b" brickC1 mapWithFile) = Throw TypeError /\
  snd (add pskNormalize "t2" "a/b/new/x" brickC1 mapWithFile) = Ok tt.
Proof.
  split; [|split].
  - exact (add_outcome pskNormalize "t2" "a/b/file.txt/x" brickC1 mapWithFile
             eq_refl eq_refl).
  - exact (add_outcome pskNormalize "t2" "a/b" brickC1 mapWithFile eq_refl eq_refl).
  - exact (add_outcome pskNormalize "t2" "a/b/new/x" brickC1 mapWithFile
             eq_refl eq_refl).
Defined.

Lemma resolveFrom_walkable names :
  names <> [] -> forallb isNonEmptyString names = true ->
  forall n r0,
    walkable names n = true ->
    resolveFrom names r0 n =
    Ok (match lookupRef names n with
        | Some c => Some (r0 ++ names, c)
        | None => None
        end).
Proof.
  induction names as [|s rest IH]; [congruence|].
  intros _ Hall n r0. simpl in Hall. apply andb_prop in Hall.
  destruct Hall as [Hs Hrest].
  destruct rest as [|s2 rest].
  - rewrite resolveFrom_single. simpl.
    destruct (items n) as [its|]; [|discriminate]. intros _.
    now destruct (getProp s its).
  - rewrite (resolveFrom_step _ _ _ _ _ Hs), walkable_step.
    change (lookupRef (s :: s2 :: rest) n)
      with (match items n with
            | Some its =>
                match getProp s its with
                | Some c => lookupRef (s2 :: rest) c
                | None => None
                end
            | None => None
            end).
    destruct (items n) as [its|]; [|discriminate].
    destruct (getProp s its) as [c|]; [|reflexivity].
    intros Hw.
    assert (Hdir : nodeIsDirectory c = true).
    { unfold nodeIsDirectory. revert Hw. simpl. now destruct (items c). }
    rewrite Hdir, (IH ltac:(discriminate) Hrest c (r0 ++ [s]) Hw).
    destruct (lookupRef (s2 :: rest) c); [|reflexivity].
    now rewrite <- app_assoc.
Qed.

Lemma getDeepestNode_walkable normalize path bm :
  pathIsPlain (normalize path) = true ->
  walkable (pathNames (normalize path)) (header bm) = true ->
  getDeepestNode normalize path bm =
    Ok (match nodeAt (pathNames (normalize path)) bm with
        | Some c => Some (pathNames (normalize path), c)
        | None => None
        end).
Proof.
  intros Hplain Hw.
  destruct (pathIsPlain_cases _ Hplain) as [Hne [Hall Hsplit]].
  rewrite getDeepestNode_resolveFrom, (pathIsPlain_not_root _ Hplain).
  assert (Hres : resolveFrom (split slash (normalize path)) [] (header bm) =
                 resolveFrom (pathNames (normalize path)) [] (header bm)).
  { destruct Hsplit as [-> | ->]; [reflexivity|]. now apply resolveFrom_leading. }
  rewrite Hres. apply (resolveFrom_walkable _ Hne Hall _ [] Hw).
Qed.

(** X27.  [getDeepestNode] follows the names of a path without empty
    segments, none of them a name inherited from [Object.prototype], as
    long as the walk meets directories only before the last name: it then
    returns the node the names lead to, with the names as its reference,
    and nothing when they lead to no node. *)
Theorem getDeepestNode_by_names (normalize : string -> string) path bm :
  pathIsPlain (normalize path) = true ->
  existsb inheritedName (pathNames (normalize path)) = false ->
  walkable (pathNames (normalize path)) (header bm) = true ->
  getDeepestNode normalize path bm =
    Ok (match nodeAt (pathNames (normalize path)) bm with
        | Some c => Some (pathNames (normalize path), c)
        | None => None
        end).
Proof. intros Hplain _. now apply getDeepestNode_walkable. Qed.

Lemma getDeepestNode_by_names_witness :
  getDeepestNode pskNormalize "/a/b/file.txt" mapWithFile =
    Ok (Some (["a"; "b"; "file.txt"],
              Node [("createdAt", VStr "t1"); ("updatedAt", VStr "t1")] None
                   (Some [mkBrickRef "c1" "h1" None None]))) /\
  getDeepestNode pskNormalize "a/x/y" mapWithFile = Ok None.
Proof.
  split.
  - exact (getDeepestNode_by_names pskNormalize "/a/b/file.txt" mapWithFile
             eq_refl eq_refl eq_refl).
  - exact (getDeepestNode_by_names pskNormalize "a/x/y" mapWithFile
             eq_refl eq_refl eq_refl).
Defined.

(** ** Adding below a deleted folder *)

Lemma nodeIsDeleted_deleteProp m its hl :
  nodeIsDeleted (Node (deleteProp "deletedAt" m) its hl) = false.
Proof. unfold nodeIsDeleted. cbn [metadata]. now rewrite getProp_deleteProp_same. Qed.

Lemma isPrefix_nil p : isPrefix p [] = true -> p = [].
Proof. destruct p; [reflexivity | discriminate]. Qed.

Lemma createNodesLoop_revives hdr now ty names :
  names <> [] -> forallb isNonEmptyString names = true ->
  forall n n' r,
    createNodesLoop hdr now ty names n = (n', Ok r) ->
    forall p, isPrefix p names = true ->
      exists c, lookupRef p n' = Some c /\ nodeIsDeleted c = false.
Proof.
  induction names as [|s rest IH]; [congruence|].
  intros _ Hall n n' r. simpl in Hall. apply andb_prop in Hall.
  destruct Hall as [Hs Hrest].
  rewrite (createNodesLoop_plain _ _ _ _ _ Hs).
  destruct (items n) as [its|] eqn:Ei;
    [|rewrite loopIteration_throws by exact Ei; discriminate].
  destruct (loopIteration_shape hdr now ty s (isEmptyList rest)
              (createNodesLoop hdr now ty rest) n its Ei)
    as [child [res [Eloop Hres]]].
  rewrite Eloop. intros H. inversion H. subst n' res. clear H Eloop.
  intros p Hp. destruct p as [|k p].
  - eexists. split; [reflexivity|]. apply nodeIsDeleted_deleteProp.
  - simpl in Hp. apply andb_prop in Hp. destruct Hp as [Hk Hp].
    apply String.eqb_eq in Hk. subst k.
    cbn [lookupRef items]. rewrite getProp_setProp_same.
    destruct rest as [|s2 rest].
    + apply isPrefix_nil in Hp. subst p. simpl in Hres. destruct Hres as [-> _].
      eexists. split; [reflexivity|].
      destruct (getProp s its);
        [apply nodeIsDeleted_clear | apply nodeIsDeleted_freshNode].
    + cbn [isEmptyList] in Hres. destruct Hres as [r' [Ek Hr]].
      destruct r' as [r'|e]; [|discriminate].
      apply (IH ltac:(discriminate) Hrest _ _ _ Ek p Hp).
Qed.

Lemma lookupRef_updateRef_above f p :
  forall r n c,
    isPrefix p r = true -> p <> r ->
    lookupRef p n = Some c ->
    exists c', lookupRef p (updateRef r f n) = Some c' /\ metadata c' = metadata c.
Proof.
  induction p as [|k p IH]; intros r n c Hpre Hne.
  - simpl. intros H. inversion H. subst c.
    destruct r as [|k r]; [congruence|]. simpl.
    destruct (items n) as [its|]; [|now exists n].
    destruct (getProp k its); [|now exists n]. eexists. split; reflexivity.
  - destruct r as [|k' r]; [discriminate|]. simpl in Hpre.
    apply andb_prop in Hpre. destruct Hpre as [Hk Hpre].
    apply String.eqb_eq in Hk. subst k'. simpl.
    destruct (items n) as [its|] eqn:Ei; [|discriminate].
    destruct (getProp k its) as [ck|] eqn:Ec; [|discriminate].
    intros Hc. cbn [items setItemsProp]. rewrite getProp_setProp_same.
    apply IH; [exact Hpre | congruence | exact Hc].
Qed.

Lemma walkable_of_lookup p :
  forall names n c,
    lookupRef names n = Some c -> isPrefix p names = true -> walkable p n = true.
Proof.
  induction p as [|k p IH]; intros names n c Hl Hp; [reflexivity|].
  destruct names as [|k' names]; [discriminate|]. simpl in Hp.
  apply andb_prop in Hp. destruct Hp as [Hk Hp].
  apply String.eqb_eq in Hk. subst k'. simpl in Hl. simpl.
  destruct (items n) as [its|]; [|discriminate].
  destruct p as [|k2 p]; [reflexivity|].
  destruct (getProp k its) as [ck|]; [|reflexivity].
  now apply (IH names ck c).
Qed.

Lemma refs_eq_dec (p r : ref) : {p = r} + {p <> r}.
Proof. apply (list_eq_dec string_dec). Qed.

Lemma add_revives normalize now path brick bm bm' :
  pathIsPlain (normalize path) = true ->
  add normalize now path brick bm = (bm', Ok tt) ->
  nodeAt (pathNames (normalize path)) bm' <> None /\
  forall p, isPrefix p (pathNames (normalize path)) = true ->
    exists c, nodeAt p bm' = Some c /\ nodeIsDeleted c = false.
Proof.
  intros Hplain Hadd.
  destruct (add_ok _ _ _ _ _ _ Hplain Hadd) as [_ [c [Hg [Hlive _]]]].
  pose proof (getDeepestNode_sound _ _ _ _ _ Hg) as Hat.
  split; [congruence|].
  intros p Hp.
  destruct (refs_eq_dec p (pathNames (normalize path))) as [-> | Hne];
    [now exists c|].
  revert Hadd. unfold add. rewrite (pathIsPlain_not_empty _ Hplain).
  destruct (createNodesFromPath now Child (normalize path) bm) as [bm1 [r|e]] eqn:Ec;
    [|discriminate].
  destruct (createNodesFromPath_spec normalize now Child _ path bm bm1 r
              eq_refl Hplain Ec) as [-> _].
  destruct (pathIsPlain_cases _ Hplain) as [Hnn [Hall Hsplit]].
  assert (H1 : exists c1, nodeAt p bm1 = Some c1 /\ nodeIsDeleted c1 = false).
  { revert Ec. unfold createNodesFromPath, nodeAt.
    assert (Hloop : createNodesLoop (header bm) now Child (split slash (normalize path)) =
                    createNodesLoop (header bm) now Child (pathNames (normalize path))).
    { destruct Hsplit as [-> | ->]; [reflexivity|].
      now apply createNodesLoop_leading. }
    rewrite Hloop.
    destruct (createNodesLoop (header bm) now Child (pathNames (normalize path))
                (header bm)) as [h res] eqn:El.
    intros H. inversion H. subst bm1 res. cbn [header withHeader].
    apply (createNodesLoop_revives _ _ _ _ Hnn Hall _ _ _ El p Hp). }
  destruct H1 as [c1 [Hc1 Hl1]].
  assert (Hstep : forall f bmx cx,
            nodeAt p bmx = Some cx -> nodeIsDeleted cx = false ->
            exists cy, nodeAt p (mutateAt (pathNames (normalize path)) f bmx) = Some cy /\
                       nodeIsDeleted cy = false).
  { intros f bmx cx Hx Hlx. unfold nodeAt, mutateAt in *. cbn [header withHeader].
    destruct (lookupRef_updateRef_above f p _ (header bmx) cx Hp Hne Hx)
      as [cy [Hcy Hm]].
    exists cy. split; [exact Hcy|]. unfold nodeIsDeleted in *. now rewrite Hm. }
  destruct (Hstep clearDeletedAtIfTruthy bm1 c1 Hc1 Hl1) as [c2 [Hc2 Hl2]].
  destruct (nodeAt (pathNames (normalize path))
              (mutateAt (pathNames (normalize path)) clearDeletedAtIfTruthy bm1))
    as [n|]; [|discriminate].
  destruct (appendBrick (header bm) now (brickObj brick) n) as [n' res].
  intros H. inversion H. subst bm' res.
  apply (Hstep _ _ c2 Hc2 Hl2).
Qed.

(** X28.  [add] brings deleted folders back: after [add] has returned
    for a path without empty segments, [fileExists] is true for the root
    and for every path, without empty segments, whose names are the first
    names of the path added to. *)
Theorem add_revives_folders (normalize : string -> string)
    now path brick bm bm' dir :
  pathIsPlain (normalize path) = true ->
  add normalize now path brick bm = (bm', Ok tt) ->
  (normalize dir = "/" -> fileExists normalize dir bm' = Ok (Some true)) /\
  (pathIsPlain (normalize dir) = true ->
   isPrefix (pathNames (normalize dir)) (pathNames (normalize path)) = true ->
   fileExists normalize dir bm' = Ok (Some true)).
Proof.
  intros Hplain Hadd.
  destruct (add_revives _ _ _ _ _ _ Hplain Hadd) as [Hthere Hrev].
  split.
  - intros Hroot. unfold fileExists. rewrite (getDeepestNode_root _ _ _ Hroot).
    destruct (Hrev [] eq_refl) as [c [Hc Hl]].
    unfold nodeAt in Hc. simpl in Hc. inversion Hc. subst c. now rewrite Hl.
  - intros Hdplain Hpre.
    destruct (Hrev _ Hpre) as [c [Hc Hl]].
    destruct (nodeAt (pathNames (normalize path)) bm') as [t|] eqn:Ht; [|congruence].
    rewrite (fileExists_of normalize dir bm' (pathNames (normalize dir)) c).
    + now rewrite Hl.
    + rewrite (getDeepestNode_walkable normalize dir bm' Hdplain).
      * now rewrite Hc.
      * apply (walkable_of_lookup _ _ _ _ Ht Hpre).
Qed.

Lemma add_revives_folders_witness :
  fileExists pskNormalize "a/b" (fst (delete pskNormalize "t2" "a/b" mapWithFile)) =
    Ok (Some false) /\
  fileExists pskNormalize "a/b"
    (fst (add pskNormalize "t3" "a/b/new.txt" brickC1
            (fst (delete pskNormalize "t2" "a/b" mapWithFile)))) = Ok (Some true).
Proof.
  split; [reflexivity|].
  exact (proj2 (add_revives_folders pskNormalize "t3" "a/b/new.txt" brickC1
                  (fst (delete pskNormalize "t2" "a/b" mapWithFile))
                  (fst (add pskNormalize "t3" "a/b/new.txt" brickC1
                          (fst (delete pskNormalize "t2" "a/b" mapWithFile))))
                  "a/b" eq_refl eq_refl) eq_refl eq_refl).
Defined.

(** ** Time stamps written by [add] *)

Lemma add_ok_metadata normalize now path brick bm bm' :
  pathIsPlain (normalize path) = true ->
  add normalize now path brick bm = (bm', Ok tt) ->
  exists c,
    getDeepestNode normalize path bm' = Ok (Some (pathNames (normalize path), c)) /\
    metadata c =
      metadata (updateTimeMetadata (header bm) now "updatedAt"
                  (match nodeAt (pathNames (normalize path)) bm with
                   | Some c0 => clearDeletedAt c0
                   | None => freshNode (header bm) now Child
                   end)).
Proof.
  intros Hplain. unfold add. rewrite (pathIsPlain_not_empty _ Hplain).
  destruct (createNodesFromPath now Child (normalize path) bm) as [bm1 [r|e]] eqn:Ec;
    [|discriminate].
  destruct (createNodesFromPath_spec normalize now Child _ path bm bm1 r
              eq_refl Hplain Ec) as [-> [_ [_ [Hat [Hnew Hold]]]]].
  set (names := pathNames (normalize path)) in *.
  set (c1 := match nodeAt names bm with
             | Some c => clearDeletedAt c
             | None => freshNode (header bm) now Child
             end) in *.
  rewrite Hat in Hnew.
  assert (Hlive : nodeIsDeleted c1 = false).
  { unfold c1. destruct (nodeAt names bm);
      [apply nodeIsDeleted_clear | apply nodeIsDeleted_freshNode]. }
  pose proof (getDeepestNode_mutateAt_kind normalize path bm1 names c1
                clearDeletedAtIfTruthy Hnew
                (nodeIsDirectory_items _ _ (items_clearIfTruthy c1))) as H2.
  rewrite (nodeIsDeleted_clearIfTruthy c1 Hlive) in H2.
  rewrite (getDeepestNode_sound _ _ _ _ _ H2).
  unfold appendBrick. rewrite hashLinks_stamp.
  destruct (hashLinks c1) as [hl|] eqn:Ehl; [|discriminate].
  intros H. inversion H. subst bm'. clear H.
  eexists. split.
  - apply (getDeepestNode_mutateAt_kind normalize path _ names c1 (fun _ => _) H2).
    unfold nodeIsDirectory. cbn [items setHashLinksProp]. now rewrite items_stamp.
  - reflexivity.
Qed.

(** X29.  In a map with time stamps, after [add] has returned for a
    path without empty segments, none of whose names is inherited from
    [Object.prototype]: the metadata of the path has no [deletedAt] and has
    [updatedAt] set to [now], the reading of the clock that [appendBrick]
    stamps with; a file that was there keeps its [createdAt], and one that
    was not has a [createdAt] time stamp (a reading of its own, taken by
    [createFileNode], which nothing ties to that of [updatedAt]). *)
Theorem add_stamps (normalize : string -> string) now path brick bm bm' :
  timestampsEnabled (header bm) = true ->
  pathIsPlain (normalize path) = true ->
  existsb inheritedName (pathNames (normalize path)) = false ->
  add normalize now path brick bm = (bm', Ok tt) ->
  exists m,
    getMetadata normalize path bm' = Ok m /\
    getProp "updatedAt" m = Some (VStr now) /\
    getProp "deletedAt" m = None /\
    (getDeepestNode normalize path bm = Ok None ->
     exists t, getProp "createdAt" m = Some (VStr t)) /\
    (forall r n,
       getDeepestNode normalize path bm = Ok (Some (r, n)) ->
       getProp "createdAt" m = getProp "createdAt" (metadata n)).
Proof.
  intros Hts Hplain _ Hadd.
  destruct (add_ok _ _ _ _ _ _ Hplain Hadd) as [Hold [c0 [Hg0 [Hlive _]]]].
  destruct (add_ok_metadata _ _ _ _ _ _ Hplain Hadd) as [c [Hg Hm]].
  rewrite Hg in Hg0. inversion Hg0. subst c0. clear Hg0.
  exists (metadata c). unfold getMetadata. rewrite Hg.
  split; [reflexivity|]. split; [|split; [|split]].
  - rewrite Hm. unfold updateTimeMetadata. rewrite Hts.
    cbn [metadata setMetadataProp]. apply getProp_setProp_same.
  - unfold nodeIsDeleted in Hlive. now destruct (getProp "deletedAt" (metadata c)).
  - intros Hnone. rewrite Hold in Hnone. rewrite Hm.
    destruct (nodeAt (pathNames (normalize path)) bm); [discriminate|].
    exists now. unfold freshNode, updateTimeMetadata. rewrite Hts. reflexivity.
  - intros r n Hsome. rewrite Hold in Hsome. rewrite Hm.
    destruct (nodeAt (pathNames (normalize path)) bm) as [x|]; [|discriminate].
    inversion Hsome. subst x. rewrite createdAt_stamp by discriminate.
    apply createdAt_clear.
Qed.

Lemma add_stamps_witness :
  exists m,
    getMetadata pskNormalize "a/b/file.txt"
      (fst (add pskNormalize "t5" "a/b/file.txt" brickC1 mapWithFile)) = Ok m /\
    getProp "updatedAt" m = Some (VStr "t5") /\
    getProp "createdAt" m = Some (VStr "t1").
Proof.
  destruct (add_stamps pskNormalize "t5" "a/b/file.txt" brickC1 mapWithFile
              (fst (add pskNormalize "t5" "a/b/file.txt" brickC1 mapWithFile))
              eq_refl eq_refl eq_refl eq_refl) as [m [H1 [H2 [_ [_ H3]]]]].
  exists m. split; [exact H1|]. split; [exact H2|].
  exact (H3 ["a"; "b"; "file.txt"]
            (Node [("createdAt", VStr "t1"); ("updatedAt", VStr "t1")] None
                  (Some [mkBrickRef "c1" "h1" None None])) eq_refl).
Defined.
